(** * AuraDoc AI: the session / transcript-capture core of [App.tsx] and
      the service helpers of [services/geminiService]

    A shallow embedding of the capture state machine ([toggleMic],
    [stopLiveSession], [cleanupSession], [handleTranslationPhase]), of draft
    assembly ([handleAnalyze]), of prescription verification
    ([handleVerifyMedicine]) and of the service helpers ([withRetry],
    [encode], [decode] and the four service calls).

    Conventions.
    - A JavaScript string is a [string]: the texts handled here are treated
      as sequences of 8-bit characters, and the binary strings exchanged by
      [encode]/[decode] only carry code units below 256.
    - An [async] function is a resumption: it runs atomically up to its next
      [await], where it hands a request to the environment together with its
      continuation; the continuation is resumed on the world as it is then.
    - A React state variable read inside a handler is the value captured by
      the closure at render time; it is passed as the parameter [c] (the
      "closure"), while [set...] calls and [useRef] cells act on the live
      world.
    - One handler is followed at a time.  While it is suspended the
      environment lets time pass and delivers transcript fragments to the
      live channel; a call that the handler starts without awaiting it is
      kept, suspended, beside the run ([detached]) and can be resumed
      afterwards ([resume]).  A second handler started by the user during a
      suspension is outside what is stated here. *)

From Stdlib Require Import String Ascii NArith ZArith Lia List Bool.
From Stdlib.Strings Require Import Byte.
From stdpp Require Import base option list gmap strings.
Import ListNotations.

(* ===================================================================== *)
(** ** JavaScript string primitives used by the source *)
(* ===================================================================== *)

Module Js.

(** White space removed by [String.prototype.trim], among the code units
    below 256: tab, line feed, vertical tab, form feed, carriage return,
    space and the no-break space U+00A0. *)
Definition isWhite (c : ascii) : bool :=
  match N_of_ascii c with
  | 9%N | 10%N | 11%N | 12%N | 13%N | 32%N | 160%N => true
  | _ => false
  end.

Fixpoint trimStart (s : string) : string :=
  match s with
  | String c r => if isWhite c then trimStart r else s
  | EmptyString => EmptyString
  end.

Fixpoint trimEnd (s : string) : string :=
  match s with
  | EmptyString => EmptyString
  | String c r =>
      match trimEnd r with
      | EmptyString => if isWhite c then EmptyString else String c EmptyString
      | String _ _ as r' => String c r'
      end
  end.

Definition trim (s : string) : string := trimEnd (trimStart s).

(** [s ? a : b] and [!s] on a string: the empty string is the only falsy
    one. *)
Definition truthy (s : string) : bool :=
  match s with EmptyString => false | String _ _ => true end.

(** [hay.includes(needle)]. *)
Fixpoint includes (needle hay : string) : bool :=
  String.prefix needle hay ||
  match hay with
  | EmptyString => false
  | String _ r => includes needle r
  end.

Definition lowerChar (c : ascii) : ascii :=
  let n := N_of_ascii c in
  if ((65 <=? n) && (n <=? 90))%N then ascii_of_N (n + 32) else c.

Fixpoint toLowerCase (s : string) : string :=
  match s with
  | EmptyString => EmptyString
  | String c r => String (lowerChar c) (toLowerCase r)
  end.

(** [xs.join(sep)]. *)
Fixpoint join (sep : string) (xs : list string) : string :=
  match xs with
  | [] => ""
  | [x] => x
  | x :: r => x +:+ sep +:+ join sep r
  end.

End Js.

(* ===================================================================== *)
(** ** [btoa] / [atob] and the helpers [encode] / [decode] *)
(* ===================================================================== *)

Module Base64.

Definition alphabet : string :=
  "ABCDEFGHIJKLMNOPQRSTUVWXYZabcdefghijklmnopqrstuvwxyz0123456789+/".

Definition padChar : ascii := "="%char.

(** The character of a sextet. *)
Definition sextetChar (n : N) : ascii :=
  match String.get (N.to_nat n) alphabet with
  | Some c => c
  | None => padChar
  end.

(** The sextet of a character of the alphabet. *)
Definition charSextet (c : ascii) : option N :=
  let n := N_of_ascii c in
  if ((65 <=? n) && (n <=? 90))%N then Some (n - 65)%N
  else if ((97 <=? n) && (n <=? 122))%N then Some (n - 71)%N
  else if ((48 <=? n) && (n <=? 57))%N then Some (n + 4)%N
  else if (n =? 43)%N then Some 62%N
  else if (n =? 47)%N then Some 63%N
  else None.

(** Three octets as four sextets, and back. *)
Definition split3 (b0 b1 b2 : N) : N * N * N * N :=
  ((b0 / 4), ((b0 mod 4) * 16 + b1 / 16),
   ((b1 mod 16) * 4 + b2 / 64), (b2 mod 64))%N.

Definition octet0 (s0 s1 : N) : N := ((s0 * 4 + s1 / 16) mod 256)%N.
Definition octet1 (s1 s2 : N) : N := (((s1 mod 16) * 16 + s2 / 4) mod 256)%N.
Definition octet2 (s2 s3 : N) : N := (((s2 mod 4) * 64 + s3) mod 256)%N.

(** [btoa] on the code units of a binary string (RFC 4648 with padding). *)
Fixpoint btoaUnits (l : list N) : list ascii :=
  match l with
  | b0 :: b1 :: b2 :: r =>
      let '(s0, s1, s2, s3) := split3 b0 b1 b2 in
      sextetChar s0 :: sextetChar s1 :: sextetChar s2 :: sextetChar s3
        :: btoaUnits r
  | [b0; b1] =>
      let '(s0, s1, s2, _) := split3 b0 b1 0 in
      [sextetChar s0; sextetChar s1; sextetChar s2; padChar]
  | [b0] =>
      let '(s0, s1, _, _) := split3 b0 0 0 in
      [sextetChar s0; sextetChar s1; padChar; padChar]
  | [] => []
  end.

Definition btoa (binary : string) : string :=
  string_of_list_ascii
    (btoaUnits (map N_of_ascii (list_ascii_of_string binary))).

(** ASCII white space skipped by [atob]. *)
Definition isAsciiWhitespace (c : ascii) : bool :=
  match N_of_ascii c with
  | 9%N | 10%N | 12%N | 13%N | 32%N => true
  | _ => false
  end.

(** "If data ends with one or two U+003D, remove them." *)
Definition dropPadding (l : list ascii) : list ascii :=
  match rev l with
  | c1 :: c2 :: r =>
      if Ascii.eqb c1 padChar then
        if Ascii.eqb c2 padChar then rev r else rev (c2 :: r)
      else l
  | [c1] => if Ascii.eqb c1 padChar then [] else l
  | [] => l
  end.

(** All characters as sextets; [None] when one is outside the alphabet. *)
Fixpoint sextetsOf (l : list ascii) : option (list N) :=
  match l with
  | [] => Some []
  | c :: r =>
      match charSextet c, sextetsOf r with
      | Some s, Some ss => Some (s :: ss)
      | _, _ => None
      end
  end.

(** The bit buffer of the decoder: 24 bits give three octets, a rest of
    12 bits one octet and a rest of 18 bits two. *)
Fixpoint octetsOf (l : list N) : list N :=
  match l with
  | s0 :: s1 :: s2 :: s3 :: r =>
      octet0 s0 s1 :: octet1 s1 s2 :: octet2 s2 s3 :: octetsOf r
  | [s0; s1; s2] => [octet0 s0 s1; octet1 s1 s2]
  | [s0; s1] => [octet0 s0 s1]
  | _ => []
  end.

(** [atob]: the forgiving base64 decoder; [None] is the
    [InvalidCharacterError] it throws. *)
Definition atob (data : string) : option string :=
  let d := List.filter (fun c => negb (isAsciiWhitespace c))
                  (list_ascii_of_string data) in
  let d := if (length d mod 4 =? 0)%nat then dropPadding d else d in
  if (length d mod 4 =? 1)%nat then None
  else
    match sextetsOf d with
    | None => None
    | Some ss => Some (string_of_list_ascii (map ascii_of_N (octetsOf ss)))
    end.

(** [encode(bytes)]: the loop appends [String.fromCharCode(bytes[i])] for
    [i = 0 .. len-1], then [btoa] is applied. *)
Definition encode (bytes : list byte) : string :=
  let binary :=
    fold_left (fun binary b => binary +:+ String (ascii_of_byte b) "")
              bytes ""%string in
  btoa binary.

(** [decode(base64)]: [atob], then [bytes[i] = binaryString.charCodeAt(i)]
    for [i = 0 .. len-1]. *)
Definition decode (base64 : string) : option (list byte) :=
  match atob base64 with
  | None => None
  | Some binaryString =>
      Some (map byte_of_ascii (list_ascii_of_string binaryString))
  end.

End Base64.

(* ===================================================================== *)
(** ** Data model ([types.ts] and the state of [App]) *)
(* ===================================================================== *)

(** ['Doctor' | 'Patient'], the role of a [Message]. *)
Inductive Speaker : Type := Doctor | Patient.

(** ['Doctor' | 'Patient' | 'Scribe'], the role of a capture. *)
Inductive Role : Type := Party (s : Speaker) | Scribe.

Inductive ConsultationMode : Type := UNILINGUAL | BILINGUAL.

Inductive AppStep : Type :=
| SPLASH | WELCOME | PATIENT_ENTRY | CAPTURE | SUMMARY | PRESCRIPTION
| FINALIZE | ARCHIVE.

Inductive ProcessingStatus : Type := IDLE | PROCESSING | COMPLETED | ERROR.

Inductive VerificationStatus : Type := Pending | Verified | Warning.

Inductive FoodRelation : Type := BeforeFood | AfterFood.

#[global] Instance Speaker_eq_dec : EqDecision Speaker.
Proof. solve_decision. Defined.
#[global] Instance Role_eq_dec : EqDecision Role.
Proof. solve_decision. Defined.
#[global] Instance ConsultationMode_eq_dec : EqDecision ConsultationMode.
Proof. solve_decision. Defined.

Record Message : Type := mkMessage {
  msgRole : Speaker;
  msgOriginal : string;
  msgTranslated : option string;
  msgTimestamp : nat
}.

Record ScribeBlock : Type := mkScribeBlock {
  original : string;
  refined : option string
}.

Record Prescription : Type := mkPrescription {
  medicineName : string;
  dosage : string;
  morning : bool;
  afternoon : bool;
  evening : bool;
  night : bool;
  relationToFood : FoodRelation;
  duration : string
}.

(** [VerifiedPrescription extends Prescription]: the prescription object
    with the two display-only fields the verification attaches. *)
Record VerifiedPrescription : Type := mkVerified {
  fields : Prescription;
  verificationStatus : option VerificationStatus;
  verificationError : option string
}.

Record ICD10Code : Type := mkICD10 { code : string; description : string }.

Record PatientDemographics : Type := mkDemographics {
  name : string;
  age : string;
  gender : string
}.

Record SOAPSummary : Type := mkSOAP {
  subjective : string;
  objective : string;
  assessment : string;
  plan : string
}.

(** A [ConsultationDraft] whose prescription array holds elements of type
    [P]: the values of the parsed service answer, or the addresses of the
    prescription objects once they live in the heap. *)
Record Draft (P : Type) : Type := mkDraft {
  id : string;
  date : string;
  normalizedTranscript : string;
  demographics : PatientDemographics;
  soap : SOAPSummary;
  prescriptions : list P;
  suggestedICD10 : list ICD10Code;
  followUpRecommendation : option string;
  doctorApprovalRequired : string
}.
Arguments mkDraft {P}.
Arguments id {P}.
Arguments date {P}.
Arguments normalizedTranscript {P}.
Arguments demographics {P}.
Arguments soap {P}.
Arguments prescriptions {P}.
Arguments suggestedICD10 {P}.
Arguments followUpRecommendation {P}.
Arguments doctorApprovalRequired {P}.

(** Address of a prescription object. *)
Definition Addr : Type := nat.

Definition ConsultationDraft : Type := Draft Addr.

(** The React state of [App] ([useState] cells); a value of this type is
    also what a handler's closure has captured at render time. *)
Record ReactState : Type := mkReact {
  step : AppStep;
  mode : ConsultationMode;
  docLang : string;
  patLang : string;
  patientDetails : PatientDemographics;
  scribeBlocks : list ScribeBlock;
  messages : list Message;
  currentInput : string;
  draft : option ConsultationDraft;
  status : ProcessingStatus;
  error : option string;
  isLive : option Role;
  isTranslating : bool;
  isFinalizing : bool
}.

Definition StreamId : Type := nat.
Definition ContextId : Type := nat.
Definition ChannelId : Type := nat.

(** A thrown JavaScript value, as far as the source inspects it. *)
Record JsError : Type := mkError {
  errorName : string;
  errorStatus : option Z;
  errorMessage : option string
}.

(** The instruction of a live session: the role and the expected language
    interpolated into the fixed instruction text. *)
Record Instruction : Type := mkInstruction {
  forRole : Role;
  expectedLanguage : string
}.

(** Calls into the browser and the SDK that the environment can observe, in
    the order in which they are made. *)
Inductive Event : Type :=
| EvAcquireStream (s : StreamId)          (* getUserMedia resolved *)
| EvStopTracks (s : StreamId)             (* getTracks().forEach(t => t.stop()) *)
| EvOpenContext (a : ContextId)           (* new AudioContext *)
| EvCloseContext (a : ContextId)          (* audioContext.close() *)
| EvConnect (ch : ChannelId) (i : Instruction)   (* connectLiveSession *)
| EvCloseSession (ch : ChannelId) (threw : bool) (* session.close() *)
| EvWire (s : StreamId) (a : ContextId) (ch : ChannelId)
                                          (* source -> processor -> channel *)
| EvConsoleError (e : JsError).           (* console.error(e) *)

(** The world a handler runs in: the React state, the [useRef] cells, the
    heap of prescription objects, and what the environment records. *)
Record World : Type := mkWorld {
  ui : ReactState;
  sessionRef : option ChannelId;
  audioContextRef : option ContextId;
  streamRef : option StreamId;
  currentRoleRef : option Role;
  capturedTextRef : string;
  heap : gmap Addr VerifiedPrescription;
  journal : list Event;
  now : nat;
  nextId : nat
}.

(** *** Field updates *)

Definition withScribeBlocks (f : list ScribeBlock -> list ScribeBlock) (r : ReactState) :=
  mkReact (step r) (mode r) (docLang r) (patLang r) (patientDetails r)
    (f (scribeBlocks r)) (messages r) (currentInput r) (draft r) (status r)
    (error r) (isLive r) (isTranslating r) (isFinalizing r).
Definition withMessages (f : list Message -> list Message) (r : ReactState) :=
  mkReact (step r) (mode r) (docLang r) (patLang r) (patientDetails r)
    (scribeBlocks r) (f (messages r)) (currentInput r) (draft r) (status r)
    (error r) (isLive r) (isTranslating r) (isFinalizing r).
Definition withCurrentInput (f : string -> string) (r : ReactState) :=
  mkReact (step r) (mode r) (docLang r) (patLang r) (patientDetails r)
    (scribeBlocks r) (messages r) (f (currentInput r)) (draft r) (status r)
    (error r) (isLive r) (isTranslating r) (isFinalizing r).
Definition withStep (v : AppStep) (r : ReactState) :=
  mkReact v (mode r) (docLang r) (patLang r) (patientDetails r)
    (scribeBlocks r) (messages r) (currentInput r) (draft r) (status r)
    (error r) (isLive r) (isTranslating r) (isFinalizing r).
Definition withDraft (v : option ConsultationDraft) (r : ReactState) :=
  mkReact (step r) (mode r) (docLang r) (patLang r) (patientDetails r)
    (scribeBlocks r) (messages r) (currentInput r) v (status r)
    (error r) (isLive r) (isTranslating r) (isFinalizing r).
Definition withStatus (v : ProcessingStatus) (r : ReactState) :=
  mkReact (step r) (mode r) (docLang r) (patLang r) (patientDetails r)
    (scribeBlocks r) (messages r) (currentInput r) (draft r) v
    (error r) (isLive r) (isTranslating r) (isFinalizing r).
Definition withError (v : option string) (r : ReactState) :=
  mkReact (step r) (mode r) (docLang r) (patLang r) (patientDetails r)
    (scribeBlocks r) (messages r) (currentInput r) (draft r) (status r)
    v (isLive r) (isTranslating r) (isFinalizing r).
Definition withIsLive (v : option Role) (r : ReactState) :=
  mkReact (step r) (mode r) (docLang r) (patLang r) (patientDetails r)
    (scribeBlocks r) (messages r) (currentInput r) (draft r) (status r)
    (error r) v (isTranslating r) (isFinalizing r).
Definition withIsTranslating (v : bool) (r : ReactState) :=
  mkReact (step r) (mode r) (docLang r) (patLang r) (patientDetails r)
    (scribeBlocks r) (messages r) (currentInput r) (draft r) (status r)
    (error r) (isLive r) v (isFinalizing r).
Definition withIsFinalizing (v : bool) (r : ReactState) :=
  mkReact (step r) (mode r) (docLang r) (patLang r) (patientDetails r)
    (scribeBlocks r) (messages r) (currentInput r) (draft r) (status r)
    (error r) (isLive r) (isTranslating r) v.

Definition withUi (f : ReactState -> ReactState) (w : World) :=
  mkWorld (f (ui w)) (sessionRef w) (audioContextRef w) (streamRef w)
    (currentRoleRef w) (capturedTextRef w) (heap w) (journal w) (now w) (nextId w).
Definition withSessionRef (v : option ChannelId) (w : World) :=
  mkWorld (ui w) v (audioContextRef w) (streamRef w)
    (currentRoleRef w) (capturedTextRef w) (heap w) (journal w) (now w) (nextId w).
Definition withAudioContextRef (v : option ContextId) (w : World) :=
  mkWorld (ui w) (sessionRef w) v (streamRef w)
    (currentRoleRef w) (capturedTextRef w) (heap w) (journal w) (now w) (nextId w).
Definition withStreamRef (v : option StreamId) (w : World) :=
  mkWorld (ui w) (sessionRef w) (audioContextRef w) v
    (currentRoleRef w) (capturedTextRef w) (heap w) (journal w) (now w) (nextId w).
Definition withCurrentRoleRef (v : option Role) (w : World) :=
  mkWorld (ui w) (sessionRef w) (audioContextRef w) (streamRef w)
    v (capturedTextRef w) (heap w) (journal w) (now w) (nextId w).
Definition withCapturedTextRef (v : string) (w : World) :=
  mkWorld (ui w) (sessionRef w) (audioContextRef w) (streamRef w)
    (currentRoleRef w) v (heap w) (journal w) (now w) (nextId w).
Definition withHeap (f : gmap Addr VerifiedPrescription -> gmap Addr VerifiedPrescription)
    (w : World) :=
  mkWorld (ui w) (sessionRef w) (audioContextRef w) (streamRef w)
    (currentRoleRef w) (capturedTextRef w) (f (heap w)) (journal w) (now w) (nextId w).
Definition withJournal (f : list Event -> list Event) (w : World) :=
  mkWorld (ui w) (sessionRef w) (audioContextRef w) (streamRef w)
    (currentRoleRef w) (capturedTextRef w) (heap w) (f (journal w)) (now w) (nextId w).
Definition withNow (f : nat -> nat) (w : World) :=
  mkWorld (ui w) (sessionRef w) (audioContextRef w) (streamRef w)
    (currentRoleRef w) (capturedTextRef w) (heap w) (journal w) (f (now w)) (nextId w).
Definition withNextId (f : nat -> nat) (w : World) :=
  mkWorld (ui w) (sessionRef w) (audioContextRef w) (streamRef w)
    (currentRoleRef w) (capturedTextRef w) (heap w) (journal w) (now w) (f (nextId w)).

(* ===================================================================== *)
(** ** Asynchronous functions as resumptions *)
(* ===================================================================== *)

(** What a handler asks of the environment.  All requests but
    [ReqNewAudioContext] are awaited: the handler is suspended until the
    answer is there. *)
Inductive Req : Type :=
| ReqSleep (ms : nat)                     (* new Promise(r => setTimeout(r, ms)) *)
| ReqGetUserMedia                         (* navigator.mediaDevices.getUserMedia *)
| ReqNewAudioContext (sampleRate : N)     (* new AudioContext({sampleRate}) *)
| ReqResume (a : ContextId)               (* audioContext.resume() *)
| ReqSession (ch : ChannelId)             (* await sessionRef.current *)
| ReqCloseContext (a : ContextId)         (* audioContext.close() *)
| ReqRefine (text language : string)      (* generateContent of refineToMedicalEnglish *)
| ReqTranslate (text from to : string)    (* first generateContent of translateAndSpeak *)
| ReqSpeech (text : string)               (* second generateContent of translateAndSpeak *)
| ReqReason (transcript : string)         (* generateContent of processConsultation *)
| ReqAudit (medicine dose : string)       (* generateContent of verifyMedication *)
| ReqPlay (pcm : list byte).              (* decodeAudioData and source.start(0) *)

Definition isAwait (r : Req) : bool :=
  match r with ReqNewAudioContext _ => false | _ => true end.

(** The requests that reach one of the four external services. *)
Definition isServiceCall (r : Req) : bool :=
  match r with
  | ReqRefine _ _ | ReqTranslate _ _ _ | ReqSpeech _ | ReqReason _
  | ReqAudit _ _ => true
  | _ => false
  end.

(** The answers of the environment. *)
Inductive Resp : Type :=
| RespUnit
| RespStream                              (* a MediaStream *)
| RespContext (suspended : bool)          (* a context, and its initial state *)
| RespSession (closeThrows : bool)        (* the session, and whether close() throws *)
| RespText (text : option string)         (* response.text *)
| RespAudio (data : option string)        (* inlineData.data of the audio part *)
| RespDraft (json : Draft Prescription) (uuid isoDate : string)
                                          (* the parsed answer, randomUUID, toISOString *)
| RespAudit (isValid : bool) (errorMsg : option string)
| RespFail (e : JsError).                 (* the promise rejects / the call throws *)

(** A function started on a world: it has returned, has thrown, is
    suspended on a request, or has left behind a call that nobody awaits
    ([Detach], itself suspended on [r]) and goes on as [rest]. *)
Inductive Step (A : Type) : Type :=
| Done (a : A) (w : World)
| Threw (e : JsError) (w : World)
| Await (r : Req) (w : World) (k : Resp -> World -> Step A)
| Detach (r : Req) (k : Resp -> World -> Step unit) (rest : Step A).
Arguments Done {A}.
Arguments Threw {A}.
Arguments Await {A}.
Arguments Detach {A}.

Definition Async (A : Type) : Type := World -> Step A.

Fixpoint bindS {A B} (s : Step A) (f : A -> Async B) : Step B :=
  match s with
  | Done a w => f a w
  | Threw e w => Threw e w
  | Await r w k => Await r w (fun x w' => bindS (k x w') f)
  | Detach r k rest => Detach r k (bindS rest f)
  end.

(** [try { s } catch (e) { h e }] *)
Fixpoint catchS {A} (s : Step A) (h : JsError -> Async A) : Step A :=
  match s with
  | Done a w => Done a w
  | Threw e w => h e w
  | Await r w k => Await r w (fun x w' => catchS (k x w') h)
  | Detach r k rest => Detach r k (catchS rest h)
  end.

(** [try { s } finally { fin }] *)
Fixpoint finallyS {A} (s : Step A) (fin : Async unit) : Step A :=
  match s with
  | Done a w => bindS (fin w) (fun _ w' => Done a w')
  | Threw e w => bindS (fin w) (fun _ w' => Threw e w')
  | Await r w k => Await r w (fun x w' => finallyS (k x w') fin)
  | Detach r k rest => Detach r k (finallyS rest fin)
  end.

(** An [async] call whose promise is dropped: the callee runs up to its
    first [await] and the caller goes on. *)
Fixpoint detachS (s : Step unit) : Step unit :=
  match s with
  | Done _ w => Done tt w
  | Threw _ w => Done tt w
  | Await r w k => Detach r k (Done tt w)
  | Detach r k rest => Detach r k (detachS rest)
  end.

Definition ret {A} (a : A) : Async A := fun w => Done a w.
Definition bind {A B} (m : Async A) (f : A -> Async B) : Async B :=
  fun w => bindS (m w) f.
Definition throw {A} (e : JsError) : Async A := fun w => Threw e w.
Definition tryCatch {A} (m : Async A) (h : JsError -> Async A) : Async A :=
  fun w => catchS (m w) h.
Definition tryFinally {A} (m : Async A) (fin : Async unit) : Async A :=
  fun w => finallyS (m w) fin.
Definition spawn (m : Async unit) : Async unit := fun w => detachS (m w).
Definition await (r : Req) : Async Resp :=
  fun w => Await r w (fun x w' => Done x w').
Definition gets {A} (f : World -> A) : Async A := fun w => Done (f w) w.
Definition modify (f : World -> World) : Async unit := fun w => Done tt (f w).

Declare Scope async_scope.
Delimit Scope async_scope with async.
Notation "x <- m ;; k" := (bind m (fun x => k))
  (at level 100, m at next level, right associativity) : async_scope.
Notation "m ;; k" := (bind m (fun _ => k))
  (at level 100, right associativity) : async_scope.
Bind Scope async_scope with Async.
Open Scope async_scope.

(** *** The environment between a suspension and the resumption *)

(** The callback [onInputTranscript] that [toggleMic] hands to
    [connectLiveSession]. *)
Definition onInputTranscript (text : string) (w : World) : World :=
  let w1 :=
    withCapturedTextRef
      (capturedTextRef w
         +:+ (if Js.truthy (capturedTextRef w) then " " else "") +:+ text) w in
  withUi (withCurrentInput
            (fun prev => (if Js.truthy prev then prev +:+ " " else "") +:+ text))
         w1.

(** The channels that have been connected and not closed yet.  A channel
    counts as closed once [session.close()] has been called on it, whether
    the call threw or not: the handler drops its reference either way. *)
Definition channelStep (live : list ChannelId) (ev : Event) : list ChannelId :=
  match ev with
  | EvConnect ch _ => live ++ [ch]
  | EvCloseSession ch _ => List.filter (fun c => negb (Nat.eqb c ch)) live
  | _ => live
  end.

Definition liveChannels (j : list Event) : list ChannelId :=
  fold_left channelStep j [].

(** The streams that have been acquired and whose tracks still run. *)
Definition streamStep (live : list StreamId) (ev : Event) : list StreamId :=
  match ev with
  | EvAcquireStream s => live ++ [s]
  | EvStopTracks s => List.filter (fun c => negb (Nat.eqb c s)) live
  | _ => live
  end.

Definition liveStreams (j : list Event) : list StreamId :=
  fold_left streamStep j [].

(** [audioContext.state === 'closed'] *)
Definition contextClosed (a : ContextId) (j : list Event) : bool :=
  existsb (fun ev => match ev with
                     | EvCloseContext b => Nat.eqb a b
                     | _ => false
                     end) j.

(** Transcript fragments are delivered only while a channel is live. *)
Definition arrive (fragments : list string) (w : World) : World :=
  match liveChannels (journal w) with
  | [] => w
  | _ :: _ => fold_left (fun w text => onInputTranscript text w) fragments w
  end.

Definition elapse (r : Req) (w : World) : World :=
  match r with
  | ReqSleep ms => withNow (fun t => t + ms) w
  | _ => w
  end.

(** While a handler is suspended on [r], time passes and fragments come in;
    a synchronous call leaves no room for either. *)
Definition meanwhile (r : Req) (fragments : list string) (w : World) : World :=
  if isAwait r then arrive fragments (elapse r w) else w.

(** *** Running a handler against a scripted environment *)

(** One answer of the environment, with the fragments that arrived while
    the handler waited for it. *)
Definition Input : Type := list string * Resp.

Record Suspended : Type := mkSuspended {
  waitingOn : Req;
  resumeWith : Resp -> World -> Step unit
}.

Inductive Outcome (A : Type) : Type :=
| Returned (a : A)
| Rejected (e : JsError)
| Blocked (r : Req).     (* the script ended while the handler waited *)
Arguments Returned {A}.
Arguments Rejected {A}.
Arguments Blocked {A}.

Record Run (A : Type) : Type := mkRun {
  outcome : Outcome A;
  final : World;                     (* the world when the handler stopped *)
  asked : list (Req * World);        (* each request, with the world it left *)
  detached : list Suspended;           (* calls left running, still suspended *)
  unused : list Input
}.
Arguments mkRun {A}.
Arguments outcome {A}.
Arguments final {A}.
Arguments asked {A}.
Arguments detached {A}.
Arguments unused {A}.

Fixpoint run {A} (s : Step A) (script : list Input) : Run A :=
  match s with
  | Done a w => mkRun (Returned a) w [] [] script
  | Threw e w => mkRun (Rejected e) w [] [] script
  | Await r w k =>
      match script with
      | [] => mkRun (Blocked r) w [(r, w)] [] []
      | (fragments, x) :: script' =>
          let r' := run (k x (meanwhile r fragments w)) script' in
          mkRun (outcome r') (final r') ((r, w) :: asked r') (detached r')
                (unused r')
      end
  | Detach r k rest =>
      let r' := run rest script in
      mkRun (outcome r') (final r') (asked r') (mkSuspended r k :: detached r')
            (unused r')
  end.

(** A detached call is resumed with an answer, on the world of that
    moment. *)
Definition resume (p : Suspended) (i : Input) (w : World) (script : list Input)
  : Run unit :=
  run (resumeWith p (snd i) (meanwhile (waitingOn p) (fst i) w)) script.

(** *** State primitives used by the handlers *)

Definition setStep v := modify (withUi (withStep v)).
Definition setScribeBlocks f := modify (withUi (withScribeBlocks f)).
Definition setMessages f := modify (withUi (withMessages f)).
Definition setCurrentInput f := modify (withUi (withCurrentInput f)).
Definition setDraft v := modify (withUi (withDraft v)).
Definition setStatus v := modify (withUi (withStatus v)).
Definition setError v := modify (withUi (withError v)).
Definition setIsLive v := modify (withUi (withIsLive v)).
Definition setIsTranslating v := modify (withUi (withIsTranslating v)).
Definition setIsFinalizing v := modify (withUi (withIsFinalizing v)).

Definition emit (ev : Event) : Async unit :=
  modify (withJournal (fun j => j ++ [ev])).
Definition consoleError (e : JsError) : Async unit := emit (EvConsoleError e).
Definition fresh : Async nat :=
  fun w => Done (nextId w) (withNextId S w).
Definition sleep (ms : nat) : Async unit := _ <- await (ReqSleep ms) ;; ret tt.

(** An answer of the wrong shape for the request. *)
Definition unexpected : JsError :=
  mkError "TypeError" None (Some "unexpected answer").

(* ===================================================================== *)
(** ** [services/geminiService] *)
(* ===================================================================== *)

(** [new QuotaError(message)] *)
Definition QuotaError (message : string) : JsError :=
  mkError "QuotaError" None (Some message).

(** The test of [withRetry]:
    [status === 429 || message.includes("quota") ||
     message.includes("limit exceeded")], with
    [message = error?.message?.toLowerCase() || ""]. *)
Definition isQuota (error : JsError) : bool :=
  let message :=
    match errorMessage error with
    | Some m => Js.toLowerCase m
    | None => ""
    end in
  match errorStatus error with Some 429%Z => true | _ => false end
  || Js.includes "quota" message
  || Js.includes "limit exceeded" message.

(** [withRetry(fn, retries = 2, delay = 200)] *)
Fixpoint withRetry {T} (fn : Async T) (retries delay : nat) : Async T :=
  tryCatch fn (fun error =>
    if isQuota error then
      match retries with
      | S retries' =>
          sleep delay ;;
          withRetry fn retries' (delay * 2)
      | O => throw (QuotaError "System Busy. Processing in queue...")
      end
    else throw error).

Definition defaultRetries : nat := 2.
Definition defaultDelay : nat := 200.

(** [refineToMedicalEnglish(text, fromLang)] *)
Definition refineToMedicalEnglish (text fromLang : string) : Async string :=
  if negb (Js.truthy (Js.trim text)) then ret ""%string
  else
    withRetry
      (x <- await (ReqRefine text fromLang) ;;
       match x with
       | RespText (Some t) => ret (Js.trim t)     (* response.text?.trim() || "" *)
       | RespText None => ret ""%string
       | RespFail e => throw e
       | _ => throw unexpected
       end)
      defaultRetries defaultDelay.

Record Translation : Type := mkTranslation {
  translatedText : string;
  audioData : string
}.

(** [translateAndSpeak(text, from, to)] *)
Definition translateAndSpeak (text from to : string) : Async Translation :=
  if negb (Js.truthy (Js.trim text)) then ret (mkTranslation "" "")
  else
    withRetry
      (x <- await (ReqTranslate text from to) ;;
       translated <-
         match x with
         | RespText (Some t) =>
             ret (if Js.truthy (Js.trim t) then Js.trim t else "..."%string)
         | RespText None => ret "..."%string
         | RespFail e => throw e
         | _ => throw unexpected
         end ;;
       y <- await (ReqSpeech translated) ;;
       match y with
       | RespAudio (Some d) => ret (mkTranslation translated d)
       | RespAudio None => ret (mkTranslation translated "")
       | RespFail e => throw e
       | _ => throw unexpected
       end)
      defaultRetries defaultDelay.

(** The objects that [JSON.parse] creates for the prescriptions. *)
Fixpoint allocPrescriptions (ps : list Prescription) : Async (list Addr) :=
  match ps with
  | [] => ret []
  | p :: rest =>
      a <- fresh ;;
      modify (withHeap (insert a (mkVerified p None None))) ;;
      others <- allocPrescriptions rest ;;
      ret (a :: others)
  end.

(** [processConsultation(transcript)] *)
Definition processConsultation (transcript : string) : Async ConsultationDraft :=
  if negb (Js.truthy (Js.trim transcript))
  then throw (mkError "Error" None (Some "Empty transcript"))
  else
    withRetry
      (x <- await (ReqReason transcript) ;;
       match x with
       | RespDraft json uuid isoDate =>
           objects <- allocPrescriptions (prescriptions json) ;;
           ret (mkDraft uuid isoDate (normalizedTranscript json)
                  (demographics json) (soap json) objects
                  (suggestedICD10 json) (followUpRecommendation json)
                  (doctorApprovalRequired json))
       | RespFail e => throw e
       | _ => throw unexpected
       end)
      defaultRetries defaultDelay.

Record Audit : Type := mkAudit { isValid : bool; errorMsg : option string }.

(** [verifyMedication(med)]; [med] is the prescription object, read when
    the request is built. *)
Definition verifyMedication (med : Addr) : Async Audit :=
  withRetry
    (o <- gets (fun w => heap w !! med) ;;
     match o with
     | None => throw unexpected
     | Some p =>
         x <- await (ReqAudit (medicineName (fields p)) (dosage (fields p))) ;;
         match x with
         | RespAudit v m => ret (mkAudit v m)
         | RespFail e => throw e
         | _ => throw unexpected
         end
     end)
    defaultRetries defaultDelay.

(** [connectLiveSession(instruction, callbacks)]: the promise of a session;
    the callbacks are [onInputTranscript] above and two log-only ones. *)
Definition connectLiveSession (instruction : Instruction) : Async ChannelId :=
  ch <- fresh ;;
  emit (EvConnect ch instruction) ;;
  ret ch.

(* ===================================================================== *)
(** ** [App.tsx]: the handlers *)
(* ===================================================================== *)

Definition cleanupSession : Async unit :=
  stream <- gets streamRef ;;
  match stream with
  | Some s => emit (EvStopTracks s) ;; modify (withStreamRef None)
  | None => ret tt
  end ;;
  promise <- gets sessionRef ;;
  match promise with
  | Some ch =>
      x <- await (ReqSession ch) ;;
      match x with
      | RespSession closeThrows =>
          (* try { session.close(); } catch(e) {} *)
          emit (EvCloseSession ch closeThrows) ;;
          modify (withSessionRef None)
      | RespFail e => throw e
      | _ => throw unexpected
      end
  | None => ret tt
  end ;;
  context <- gets audioContextRef ;;
  match context with
  | Some a =>
      (* try { if (state !== 'closed') await close(); } catch (e) {} *)
      closed <- gets (fun w => contextClosed a (journal w)) ;;
      (if closed then ret tt
       else
         emit (EvCloseContext a) ;;
         _ <- await (ReqCloseContext a) ;;
         ret tt) ;;
      modify (withAudioContextRef None)
  | None => ret tt
  end.

(** Playing the synthesized audio: [decode], then the playback context,
    [decodeAudioData] and [source.start(0)] as one request. *)
Definition playAudio (audio : string) : Async unit :=
  match Base64.decode audio with
  | None => throw (mkError "InvalidCharacterError" None None)
  | Some pcm =>
      x <- await (ReqPlay pcm) ;;
      match x with
      | RespFail e => throw e
      | _ => ret tt
      end
  end.

Definition handleTranslationPhase (c : ReactState) (role : Speaker)
    (text : string) : Async unit :=
  setIsTranslating true ;;
  tryFinally
    (tryCatch
       (let from := match role with Doctor => docLang c | Patient => patLang c end in
        let to := match role with Doctor => patLang c | Patient => docLang c end in
        result <- translateAndSpeak text from to ;;
        timestamp <- gets now ;;
        let newMsg := mkMessage role text (Some (translatedText result)) timestamp in
        setMessages (fun prev => prev ++ [newMsg]) ;;
        if Js.truthy (audioData result) then playAudio (audioData result)
        else ret tt)
       (fun e => consoleError e))
    (setIsTranslating false).

(** [stopLiveSession], first part (up to [setCurrentInput('')]): the
    role that was capturing and the finalized text. *)
Definition finalizeCapture : Async (option Role * string) :=
  role <- gets currentRoleRef ;;
  setIsFinalizing true ;;
  sleep 400 ;;
  captured <- gets capturedTextRef ;;
  let finalCaptured := Js.trim captured in
  cleanupSession ;;
  setIsLive None ;;
  modify (withCurrentRoleRef None) ;;
  modify (withCapturedTextRef "") ;;
  setIsFinalizing false ;;
  setCurrentInput (fun _ => ""%string) ;;
  ret (role, finalCaptured).

(** [b => b.original === finalCaptured ? { ...b, refined } : b] *)
Definition attachRefined (finalCaptured refinedText : string) (b : ScribeBlock)
  : ScribeBlock :=
  if String.eqb (original b) finalCaptured
  then mkScribeBlock (original b) (Some refinedText)
  else b.

(** [stopLiveSession], second part: what is done with the finalized
    text. *)
Definition routeFinalText (c : ReactState) (role : option Role)
    (finalCaptured : string) : Async unit :=
  if negb (Js.truthy finalCaptured) then ret tt
  else
    match mode c, role with
    | BILINGUAL, Some (Party speaker) =>
        spawn (handleTranslationPhase c speaker finalCaptured)
    | _, _ =>
        let newBlock := mkScribeBlock finalCaptured None in
        setScribeBlocks (fun prev => prev ++ [newBlock]) ;;
        tryCatch
          (refinedText <- refineToMedicalEnglish finalCaptured (docLang c) ;;
           setScribeBlocks (map (attachRefined finalCaptured refinedText)))
          (fun e => consoleError e)
    end.

Definition stopLiveSession (c : ReactState) : Async unit :=
  finalized <- finalizeCapture ;;
  let '(role, finalCaptured) := finalized in
  routeFinalText c role finalCaptured.

(** [toggleMic], from [setError(null)] on: the start of a capture. *)
Definition startCapture (c : ReactState) (role : Role) : Async unit :=
  setError None ;;
  setCurrentInput (fun _ => ""%string) ;;
  modify (withCapturedTextRef "") ;;
  tryCatch
    (x <- await ReqGetUserMedia ;;
     stream <-
       match x with
       | RespStream => s <- fresh ;; emit (EvAcquireStream s) ;; ret s
       | RespFail e => throw e
       | _ => throw unexpected
       end ;;
     modify (withStreamRef (Some stream)) ;;
     y <- await (ReqNewAudioContext 16000%N) ;;
     audioContext <-
       match y with
       | RespContext suspended =>
           a <- fresh ;;
           emit (EvOpenContext a) ;;
           (if suspended
            then z <- await (ReqResume a) ;;
                 match z with RespFail e => throw e | _ => ret tt end
            else ret tt) ;;
           ret a
       | RespFail e => throw e
       | _ => throw unexpected
       end ;;
     modify (withAudioContextRef (Some audioContext)) ;;
     modify (withCurrentRoleRef (Some role)) ;;
     let targetLang :=
       match role with Party Patient => patLang c | _ => docLang c end in
     let instruction := mkInstruction role targetLang in
     sessionPromise <- connectLiveSession instruction ;;
     modify (withSessionRef (Some sessionPromise)) ;;
     emit (EvWire stream audioContext sessionPromise) ;;
     setIsLive (Some role))
    (fun _ => setError (Some "Microphone access restricted."%string)).

Definition toggleMic (c : ReactState) (role : Role) : Async unit :=
  if bool_decide (isLive c = Some role) then stopLiveSession c
  else
    match isLive c with Some _ => stopLiveSession c | None => ret tt end ;;
    startCapture c role.

(** [(list[idx] as VerifiedPrescription).field = ...]: a write into the
    object at index [idx]; a [TypeError] when there is none. *)
Definition writeAt (list : list Addr) (idx : nat)
    (f : VerifiedPrescription -> VerifiedPrescription) : Async unit :=
  match list !! idx with
  | Some a => modify (withHeap (alter f a))
  | None => throw (mkError "TypeError" None None)
  end.

Definition setVerification (st : VerificationStatus) (p : VerifiedPrescription) :=
  mkVerified (fields p) (Some st) (verificationError p).
Definition setVerificationError (m : option string) (p : VerifiedPrescription) :=
  mkVerified (fields p) (verificationStatus p) m.

(** [{ ...draft, prescriptions: list }] *)
Definition withPrescriptions (list : list Addr) (d : ConsultationDraft)
  : ConsultationDraft :=
  mkDraft (id d) (date d) (normalizedTranscript d) (demographics d) (soap d)
    list (suggestedICD10 d) (followUpRecommendation d)
    (doctorApprovalRequired d).

Definition handleVerifyMedicine (c : ReactState) (idx : nat) : Async unit :=
  match draft c with
  | None => ret tt
  | Some draft =>
      (* the copies [...draft.prescriptions] hold the same objects *)
      let newList := prescriptions draft in
      writeAt newList idx (setVerification Pending) ;;
      setDraft (Some (withPrescriptions newList draft)) ;;
      tryCatch
        (med <- match prescriptions draft !! idx with
                | Some a => ret a
                | None => throw (mkError "TypeError" None None)
                end ;;
         result <- verifyMedication med ;;
         let updatedList := prescriptions draft in
         writeAt updatedList idx
           (setVerification (if isValid result then Verified else Warning)) ;;
         writeAt updatedList idx (setVerificationError (errorMsg result)) ;;
         setDraft (Some (withPrescriptions updatedList draft)))
        (fun e =>
           let errorList := prescriptions draft in
           writeAt errorList idx (setVerification Warning) ;;
           writeAt errorList idx (setVerificationError (Some "Audit timeout."%string)) ;;
           setDraft (Some (withPrescriptions errorList draft)))
  end.

(** Template literals print an absent field as [undefined]. *)
Definition shown (o : option string) : string :=
  match o with Some s => s | None => "undefined" end.

Definition speakerName (s : Speaker) : string :=
  match s with Doctor => "Doctor" | Patient => "Patient" end.

Definition newline : string := String "010"%char "".

Definition transcriptOf (c : ReactState) : string :=
  match mode c with
  | UNILINGUAL =>
      Js.join newline
        (map (fun b => original b +:+ " (Refined: " +:+ shown (refined b) +:+ ")")
             (scribeBlocks c))
  | BILINGUAL =>
      Js.join newline
        (map (fun m => speakerName (msgRole m) +:+ ": " +:+ msgOriginal m
                       +:+ " (interpreted: " +:+ shown (msgTranslated m) +:+ ")")
             (messages c))
  end.

(** [res.demographics = patientDetails] *)
Definition withDemographics (p : PatientDemographics) (d : ConsultationDraft)
  : ConsultationDraft :=
  mkDraft (id d) (date d) (normalizedTranscript d) p (soap d)
    (prescriptions d) (suggestedICD10 d) (followUpRecommendation d)
    (doctorApprovalRequired d).

Definition handleAnalyze (c : ReactState) : Async unit :=
  match isLive c with Some _ => stopLiveSession c | None => ret tt end ;;
  setStatus PROCESSING ;;
  setError None ;;
  let transcriptText := transcriptOf c in
  tryFinally
    (tryCatch
       (res <- processConsultation transcriptText ;;
        setDraft (Some (withDemographics (patientDetails c) res)) ;;
        setStep SUMMARY)
       (fun e => setError (Some "AI analysis error."%string)))
    (setStatus IDLE).

(* ===================================================================== *)
(** ** Devices for the statements *)
(* ===================================================================== *)

(** A run followed by another one on the rest of the script. *)
Definition seqRun {A B} (r1 : Run A) (r2 : Run B) : Run B :=
  mkRun (outcome r2) (final r2) (asked r1 ++ asked r2)
        (detached r1 ++ detached r2) (unused r2).

(** A run that did not return, seen at another result type. *)
Definition castRun {A B} (r : Run A) (o : Outcome B) : Run B :=
  mkRun o (final r) (asked r) (detached r) (unused r).

Definition requests {A} (r : Run A) : list Req := map fst (asked r).

(** A run that starts with one more request. *)
Definition afterRequest {A} (r : Req) (w : World) (rest : Run A) : Run A :=
  mkRun (outcome rest) (final rest) ((r, w) :: asked rest) (detached rest)
        (unused rest).

(** The message that [withRetry] surfaces when the retries are used up. *)
Definition systemBusy : JsError :=
  QuotaError "System Busy. Processing in queue...".

(** One fragment appended to an accumulation: what [onInputTranscript]
    makes of [capturedTextRef.current] and of [currentInput]. *)
Definition appendFragment (acc text : string) : string :=
  if Js.truthy acc then acc +:+ " " +:+ text else text.

Definition accumulate (acc : string) (fragments : list string) : string :=
  fold_left appendFragment fragments acc.

(** An accumulation after the fragments that come in while a handler
    waits: they are heard only if a channel is live. *)
Definition heard (live : list ChannelId) (fragments : list string)
    (acc : string) : string :=
  match live with
  | [] => acc
  | _ :: _ => accumulate acc fragments
  end.

(** Role [role] holds stream [s], context [a] and channel [ch], and no
    other stream or channel is live. *)
Definition holding (role : Role) (s : StreamId) (a : ContextId)
    (ch : ChannelId) (w : World) : Prop :=
  isLive (ui w) = Some role /\ currentRoleRef w = Some role /\
  streamRef w = Some s /\ audioContextRef w = Some a /\
  sessionRef w = Some ch /\
  liveStreams (journal w) = [s] /\ liveChannels (journal w) = [ch].

(** Role [role] is capturing: it holds its resources and its audio context
    has not been closed.  This is the state that a successful
    [toggleMic role] leaves. *)
Definition capturing (role : Role) (s : StreamId) (a : ContextId)
    (ch : ChannelId) (w : World) : Prop :=
  holding role s a ch w /\ contextClosed a (journal w) = false.

(** No capture is active and nothing is held. *)
Definition released (w : World) : Prop :=
  isLive (ui w) = None /\ currentRoleRef w = None /\
  streamRef w = None /\ audioContextRef w = None /\ sessionRef w = None /\
  liveStreams (journal w) = [] /\ liveChannels (journal w) = [].

(** Released, and both accumulations are empty. *)
Definition idle (w : World) : Prop :=
  released w /\
  capturedTextRef w = ""%string /\ currentInput (ui w) = ""%string.

(** Since journal [j0], never more than one channel has been live at a
    time. *)
Definition calmSince (j0 j : list Event) : Prop :=
  exists l, j = j0 ++ l /\
            forall n, length (liveChannels (j0 ++ take n l)) <= 1.

(** [always I D Q s]: whatever the environment answers, every request of
    [s] leaves a world in which [I] holds of it, every call that [s] leaves
    running waits on a request that satisfies [D], and [s] stops (returns,
    throws, or waits for ever) in a world in which [Q] holds of its
    outcome. *)
Fixpoint always {A} (I : Req -> World -> Prop) (D : Req -> Prop)
    (Q : Outcome A -> World -> Prop) (s : Step A) : Prop :=
  match s with
  | Done a w => Q (Returned a) w
  | Threw e w => Q (Rejected e) w
  | Await r w k =>
      I r w /\ Q (Blocked r) w /\
      forall fs x, always I D Q (k x (meanwhile r fs w))
  | Detach r k rest => D r /\ always I D Q rest
  end.

(** A property of the world that the environment does not break while a
    handler waits. *)
Definition stable (P : World -> Prop) : Prop :=
  forall r fs w, P w -> P (meanwhile r fs w).

(** [m] keeps [P] and only asks [R]: started in a world with [P], it only
    makes requests that satisfy [R], and only ever leaves and reaches worlds
    with [P]. *)
Definition preserves {A} (R : Req -> Prop) (P : World -> Prop) (m : Async A)
  : Prop :=
  forall w, P w -> always (fun q w' => R q /\ P w') R (fun _ w' => P w') (m w).

(** Any request. *)
Definition anyReq : Req -> Prop := fun _ => True.

(** The world that stop-capture leaves when role [role] was capturing with
    stream [s], context [a] and channel [ch]. *)
Definition finalized (s : StreamId) (a : ContextId) (ch : ChannelId)
    (closeThrows : bool) (w : World) : World :=
  mkWorld
    (withCurrentInput (fun _ => ""%string)
       (withIsFinalizing false (withIsLive None (ui w))))
    None None None None ""
    (heap w)
    (journal w ++ [EvStopTracks s; EvCloseSession ch closeThrows;
                   EvCloseContext a])
    (now w + 400) (nextId w).

(** [toggleMic role] is about to start a capture: no capture is active and
    nothing is held, or another role holds one. *)
Definition startable (c : ReactState) (role : Role) (w : World) : Prop :=
  (isLive c = None /\ released w)
  \/ (exists other s a ch,
        isLive c = Some other /\ other <> role /\ holding other s a ch w).

(** The fragments from the first non-empty one on. *)
Fixpoint dropEmpty (fragments : list string) : list string :=
  match fragments with
  | [] => []
  | f :: rest => if Js.truthy f then fragments else dropEmpty rest
  end.

(** The requests of the stop path. *)
Definition notMicrophone (q : Req) : Prop := q <> ReqGetUserMedia.

(** The final text goes to the scribe branch. *)
Definition scribeRoute (c : ReactState) (role : option Role) : Prop :=
  mode c = UNILINGUAL \/ role = Some Scribe \/ role = None.

(** The log holds an entry for [text]. *)
Definition logged (text : string) (w : World) : Prop :=
  exists b, In b (scribeBlocks (ui w)) /\ original b = text.


(* ===================================================================== *)
(** ** A sample consultation *)
(* ===================================================================== *)

Module Sample.

Definition patient : PatientDemographics := mkDemographics "Asha" "35" "Female".

(** The capture screen of a scribe consultation, nothing said yet. *)
Definition scribe0 : ReactState :=
  mkReact CAPTURE UNILINGUAL "English" "Hindi" patient [] [] "" None IDLE None
    None false false.

(** The capture screen of an interpreted consultation. *)
Definition interpreter0 : ReactState :=
  mkReact CAPTURE BILINGUAL "English" "Hindi" patient [] [] "" None IDLE None
    None false false.

Definition worldOf (u : ReactState) : World :=
  mkWorld u None None None None "" ∅ [] 0 0.

(** The microphone is granted and the audio context is running. *)
Definition granted : list Input := [([], RespStream); ([], RespContext false)].

(** The scribe has tapped the microphone and said two fragments. *)
Definition scribeStarted : World :=
  final (run (toggleMic scribe0 Scribe (worldOf scribe0)) granted).
Definition scribeHeard : World :=
  arrive ["patient has"; "fever"] scribeStarted.

(** The doctor has tapped the microphone and said one fragment. *)
Definition doctorStarted : World :=
  final (run (toggleMic interpreter0 (Party Doctor) (worldOf interpreter0))
             granted).
Definition doctorHeard : World := arrive ["hello"] doctorStarted.

(** The stop of a capture: the grace delay, during which [late] comes in,
    the session (whose [close()] throws or not) and the closed context. *)
Definition stopped (late : list string) (closeThrows : bool) : list Input :=
  [(late, RespUnit); ([], RespSession closeThrows); ([], RespUnit)].

(** The patient taps the microphone while the doctor is capturing. *)
Definition switchRun : Run unit :=
  run (toggleMic (ui doctorHeard) (Party Patient) doctorHeard)
      (stopped [] false ++ granted).

(** Answers of the services. *)
Definition quota : JsError :=
  mkError "ApiError" (Some 429%Z) (Some "Too Many Requests").
Definition outage : JsError :=
  mkError "ApiError" (Some 500%Z) (Some "Internal error").

Definition paracetamol : Prescription :=
  mkPrescription "Paracetamol" "500mg" true false false true AfterFood "5 days".
Definition ibuprofen : Prescription :=
  mkPrescription "Ibuprofen" "4000mg" true true true true AfterFood "5 days".

Definition answer : Draft Prescription :=
  mkDraft "" "" "Patient has fever." (mkDemographics "Unknown" "" "")
    (mkSOAP "Fever for two days." "Temperature 38.5 C." "Viral fever."
            "Paracetamol, rest, fluids.")
    [paracetamol; ibuprofen] [mkICD10 "R50.9" "Fever, unspecified"] None "Yes".

(** The review screen of the consultation, with its two prescription
    objects at addresses 0 and 1. *)
Definition reviewed : ConsultationDraft :=
  mkDraft "7f2c" "2025-01-01T10:00:00.000Z" "Patient has fever."
    patient (soap answer) [0; 1] (suggestedICD10 answer) None "Yes".
Definition review : ReactState :=
  mkReact SUMMARY UNILINGUAL "English" "Hindi" patient
    [mkScribeBlock "patient has fever" (Some "Patient reports fever.")] [] ""
    (Some reviewed) IDLE None None false false.
Definition reviewWorld : World :=
  mkWorld review None None None None ""
    (<[1 := mkVerified ibuprofen None None]>
       (<[0 := mkVerified paracetamol None None]> ∅))
    [] 0 2.

(** The capture screen after one refined utterance. *)
Definition dictated : ReactState :=
  mkReact CAPTURE UNILINGUAL "English" "Hindi" patient
    [mkScribeBlock "patient has fever" (Some "Patient reports fever.")] [] ""
    None IDLE None None false false.

(** A service call as the service functions make it. *)
Definition call : Async string :=
  x <- await (ReqRefine "patient has fever" "English") ;;
  match x with
  | RespText (Some t) => ret t
  | RespFail e => throw e
  | _ => throw unexpected
  end.


End Sample.

(* ===================================================================== *)
(** ** More of [App.tsx] and of [services/geminiService] *)
(* ===================================================================== *)

Definition withPatientDetails (v : PatientDemographics) (r : ReactState) :=
  mkReact (step r) (mode r) (docLang r) (patLang r) v
    (scribeBlocks r) (messages r) (currentInput r) (draft r) (status r)
    (error r) (isLive r) (isTranslating r) (isFinalizing r).

Definition setPatientDetails v := modify (withUi (withPatientDetails v)).

(** [resetAllState] *)
Definition resetAllState : Async unit :=
  cleanupSession ;;
  setStep WELCOME ;;
  setScribeBlocks (fun _ => []) ;;
  setMessages (fun _ => []) ;;
  setDraft None ;;
  setCurrentInput (fun _ => ""%string) ;;
  setError None ;;
  setPatientDetails (mkDemographics "" "" "Male") ;;
  modify (withCapturedTextRef "") ;;
  modify (withCurrentRoleRef None) ;;
  setIsTranslating false ;;
  setIsFinalizing false ;;
  setIsLive None ;;
  setStatus IDLE.

(** [runs s script Q]: the run of [s] against [script] satisfies [Q]. *)
Definition runs {A} (s : Step A) (script : list Input) (Q : Run A -> Prop)
  : Prop :=
  Q (run s script).

(** A run that goes on beside a call it has left running. *)
Definition besides {A} (r : Req) (k : Resp -> World -> Step unit)
    (rest : Run A) : Run A :=
  mkRun (outcome rest) (final rest) (asked rest)
        (mkSuspended r k :: detached rest) (unused rest).

(** The start of a capture whose microphone is granted and whose audio
    context is created ([suspended] tells whether it has to be resumed, and
    [resumed] is then the answer of [resume()]). *)
Definition startAnswers (suspended : bool) (fs1 fs2 fs3 : list string)
    (resumed : Resp) (script : list Input) : list Input :=
  (fs1, RespStream) :: (fs2, RespContext suspended)
    :: (if suspended then (fs3, resumed) :: script else script).

(** Further samples: a refused microphone, and the scribe consultation
    seen from the handlers that were rendered while it was capturing. *)
Module Clinic.

Definition denied : JsError :=
  mkError "NotAllowedError" None (Some "Permission denied").

Definition scribing : ReactState := ui Sample.scribeHeard.

(** The scribe goes on dictating after a first utterance has been
    refined. *)
Definition resumed : World :=
  final (run (toggleMic Sample.dictated Scribe (Sample.worldOf Sample.dictated))
             Sample.granted).
Definition resumedHeard : World := arrive ["and cough"] resumed.

(** A record of an earlier consultation. *)
Definition earlier : ConsultationDraft :=
  mkDraft "51ad" "2024-12-24T09:00:00.000Z" "Patient has a cough."
    (mkDemographics "Ravi" "52" "Male")
    (mkSOAP "Cough for a week." "Chest clear." "Bronchitis." "Fluids, rest.")
    [] [] None "No".

(** The no-break space U+00A0. *)
Definition nbsp : string := String (Ascii.ascii_of_nat 160) "".

End Clinic.

(** The delays of the timers among some requests, in order. *)
Definition sleeps (qs : list Req) : list nat :=
  flat_map (fun q => match q with ReqSleep ms => [ms] | _ => [] end) qs.

(** The updater that the [Confirm] button hands to [setArchive]:
    [prev => [draft, ...prev.filter(a => a.id !== draft.id)]]. *)
Definition archiveUpdater {P : Type} (draft : Draft P) (prev : list (Draft P))
  : list (Draft P) :=
  draft :: List.filter (fun a => negb (String.eqb (id a) (id draft))) prev.

(** [text.replace] of [cleanJsonResponse], which takes the fences out: the
    text is scanned from the left; where a fence starts, the fence is left
    out ([skip] counts the characters of it that are still to be passed
    over), the opening fence with its [json] tag and one line feed, if there
    is one, before the bare fence. *)
Fixpoint removeFences (skip : nat) (text : string) : string :=
  match text with
  | EmptyString => EmptyString
  | String ch rest =>
      match skip with
      | S k => removeFences k rest
      | O =>
          if String.prefix "```json" text then
            removeFences
              (if String.prefix ("```json" +:+ newline) text then 7 else 6)
              rest
          else if String.prefix "```" text then removeFences 2 rest
          else String ch (removeFences 0 rest)
      end
  end.

(** [cleanJsonResponse(text)] *)
Definition cleanJsonResponse (text : string) : string :=
  Js.trim (removeFences 0 text).

(** No backtick occurs in the text. *)
Fixpoint plain (text : string) : bool :=
  match text with
  | EmptyString => true
  | String ch rest => negb (Ascii.eqb ch "`") && plain rest
  end.

(* ===================================================================== *)
(** * Proofs *)
(* ===================================================================== *)

(* ===================================================================== *)
(** ** Strings *)
(* ===================================================================== *)

Lemma append_empty_r (s : string) : s +:+ "" = s.
Proof.
  induction s as [|c s IH]; [reflexivity|].
  change (String c s +:+ "") with (String c (s +:+ "")). now rewrite IH.
Qed.

Lemma append_assoc (s t u : string) : (s +:+ t) +:+ u = s +:+ (t +:+ u).
Proof.
  induction s as [|c s IH]; [reflexivity|].
  change (String c ((s +:+ t) +:+ u) = String c (s +:+ (t +:+ u))).
  now rewrite IH.
Qed.

(* ===================================================================== *)
(** ** How [run] goes through the constructs of the handlers *)
(* ===================================================================== *)

Section RunLaws.

Lemma run_bindS {A B} (s : Step A) (f : A -> Async B) (script : list Input) :
  run (bindS s f) script =
    match outcome (run s script) with
    | Returned a =>
        seqRun (run s script)
               (run (f a (final (run s script))) (unused (run s script)))
    | Rejected e => castRun (run s script) (Rejected e)
    | Blocked q => castRun (run s script) (Blocked q)
    end.
Proof.
  revert f script.
  induction s as [A a w|A e w|A r w k IH|A r k _ rest IH]; intros f script; cbn [bindS run].
  - unfold seqRun; cbn. now destruct (run (f a w) script).
  - reflexivity.
  - destruct script as [|[fs x] script']; [reflexivity|].
    cbn [outcome final asked detached unused].
    rewrite IH. now destruct (outcome (run (k x (meanwhile r fs w)) script')).
  - cbn [outcome final asked detached unused].
    rewrite IH. now destruct (outcome (run rest script)).
Qed.

Lemma run_catchS {A} (s : Step A) (h : JsError -> Async A) (script : list Input) :
  run (catchS s h) script =
    match outcome (run s script) with
    | Rejected e =>
        seqRun (run s script)
               (run (h e (final (run s script))) (unused (run s script)))
    | _ => run s script
    end.
Proof.
  revert script.
  induction s as [A a w|A e w|A r w k IH|A r k _ rest IH]; intros script; cbn [catchS run].
  - reflexivity.
  - unfold seqRun; cbn. now destruct (run (h e w) script).
  - destruct script as [|[fs x] script']; [reflexivity|].
    cbn [outcome final asked detached unused].
    rewrite IH.
    destruct (run (k x (meanwhile r fs w)) script') as [[a|e|q] ? ? ? ?];
      reflexivity.
  - cbn [outcome final asked detached unused].
    rewrite IH. destruct (run rest script) as [[a|e|q] ? ? ? ?]; reflexivity.
Qed.

Lemma run_finallyS {A} (s : Step A) (fin : Async unit) (script : list Input) :
  run (finallyS s fin) script =
    match outcome (run s script) with
    | Returned a =>
        seqRun (run s script)
          (run (bindS (fin (final (run s script))) (fun _ w' => Done a w'))
               (unused (run s script)))
    | Rejected e =>
        seqRun (run s script)
          (run (bindS (fin (final (run s script))) (fun _ w' => Threw e w'))
               (unused (run s script)))
    | Blocked q => run s script
    end.
Proof.
  revert script.
  induction s as [A a w|A e w|A r w k IH|A r k _ rest IH]; intros script;
    cbn [finallyS run].
  - unfold seqRun; cbn.
    now destruct (run (bindS (fin w) (fun _ w' => Done a w')) script).
  - unfold seqRun; cbn.
    now destruct (run (bindS (fin w) (fun _ w' => Threw e w')) script).
  - destruct script as [|[fs x] script']; [reflexivity|].
    cbn [outcome final asked detached unused].
    rewrite IH.
    destruct (run (k x (meanwhile r fs w)) script') as [[a|e|q] ? ? ? ?];
      reflexivity.
  - cbn [outcome final asked detached unused].
    rewrite IH. destruct (run rest script) as [[a|e|q] ? ? ? ?]; reflexivity.
Qed.

End RunLaws.

Section AsyncLaws.
Context {A : Type}.

Lemma run_bind {B} (m : Async A) (f : A -> Async B) w script :
  run (bind m f w) script =
    match outcome (run (m w) script) with
    | Returned a =>
        seqRun (run (m w) script)
               (run (f a (final (run (m w) script))) (unused (run (m w) script)))
    | Rejected e => castRun (run (m w) script) (Rejected e)
    | Blocked q => castRun (run (m w) script) (Blocked q)
    end.
Proof. apply run_bindS. Qed.

Lemma run_tryCatch (m : Async A) (h : JsError -> Async A) w script :
  run (tryCatch m h w) script =
    match outcome (run (m w) script) with
    | Rejected e =>
        seqRun (run (m w) script)
               (run (h e (final (run (m w) script))) (unused (run (m w) script)))
    | _ => run (m w) script
    end.
Proof. apply run_catchS. Qed.

Lemma run_sleep_then (ms : nat) (m : Async A) w fs x script :
  run (bind (sleep ms) (fun _ => m) w) ((fs, x) :: script) =
    afterRequest (ReqSleep ms) w (run (m (meanwhile (ReqSleep ms) fs w)) script).
Proof. reflexivity. Qed.

Lemma run_withRetry (fn : Async A) (retries delay : nat) w script :
  run (withRetry fn retries delay w) script =
    let r := run (fn w) script in
    match outcome r with
    | Rejected e =>
        seqRun r
          (if isQuota e then
             match retries with
             | S retries' =>
                 run (bind (sleep delay)
                           (fun _ => withRetry fn retries' (delay * 2)) (final r))
                     (unused r)
             | O => run (throw systemBusy (final r)) (unused r)
             end
           else run (throw e (final r)) (unused r))
    | _ => r
    end.
Proof.
  destruct retries; cbn [withRetry]; rewrite run_tryCatch; cbn zeta;
    destruct (outcome (run (fn w) script)) as [a|e|q]; try reflexivity;
    destruct (isQuota e); reflexivity.
Qed.
End AsyncLaws.

(* ===================================================================== *)
(** ** The environment between suspension and resumption *)
(* ===================================================================== *)

Lemma onInputTranscript_spec (text : string) (w : World) :
  onInputTranscript text w =
    mkWorld (withCurrentInput (fun prev => appendFragment prev text) (ui w))
      (sessionRef w) (audioContextRef w) (streamRef w) (currentRoleRef w)
      (appendFragment (capturedTextRef w) text) (heap w) (journal w) (now w)
      (nextId w).
Proof.
  destruct w as [u ? ? ? ? cap ? ? ? ?].
  destruct u as [? ? ? ? ? ? ? cur ? ? ? ? ? ?].
  unfold onInputTranscript, appendFragment, withUi, withCapturedTextRef,
    withCurrentInput. cbn.
  f_equal.
  - f_equal. destruct cur as [|c s]; [reflexivity|]. cbn [Js.truthy].
    apply (append_assoc (String c s) " " text).
  - destruct cap; reflexivity.
Qed.

Lemma fragments_spec (fs : list string) (w : World) :
  fold_left (fun w text => onInputTranscript text w) fs w =
    mkWorld (withCurrentInput (fun prev => accumulate prev fs) (ui w))
      (sessionRef w) (audioContextRef w) (streamRef w) (currentRoleRef w)
      (accumulate (capturedTextRef w) fs) (heap w) (journal w) (now w)
      (nextId w).
Proof.
  revert w. induction fs as [|t fs IH]; intros w; cbn [fold_left].
  - destruct w as [u ? ? ? ? ? ? ? ? ?]. now destruct u.
  - rewrite IH, onInputTranscript_spec. reflexivity.
Qed.

Lemma meanwhile_spec (r : Req) (fs : list string) (w : World) :
  isAwait r = true ->
  meanwhile r fs w =
    mkWorld
      (withCurrentInput (heard (liveChannels (journal w)) fs) (ui w))
      (sessionRef w) (audioContextRef w) (streamRef w) (currentRoleRef w)
      (heard (liveChannels (journal w)) fs (capturedTextRef w)) (heap w)
      (journal w) (match r with ReqSleep ms => now w + ms | _ => now w end)
      (nextId w).
Proof.
  intros Hr. unfold meanwhile. rewrite Hr. unfold arrive.
  assert (Hj : journal (elapse r w) = journal w) by now destruct r.
  rewrite Hj. unfold heard.
  destruct (liveChannels (journal w)) as [|ch live].
  - destruct w as [u ? ? ? ? ? ? ? ? ?]. destruct u. now destruct r.
  - rewrite fragments_spec. now destruct r.
Qed.

Lemma liveChannels_app (j l : list Event) :
  liveChannels (j ++ l) = fold_left channelStep l (liveChannels j).
Proof. apply fold_left_app. Qed.

Lemma liveStreams_app (j l : list Event) :
  liveStreams (j ++ l) = fold_left streamStep l (liveStreams j).
Proof. apply fold_left_app. Qed.

Lemma contextClosed_app (a : ContextId) (j l : list Event) :
  contextClosed a (j ++ l) = contextClosed a j || contextClosed a l.
Proof. apply existsb_app. Qed.

#[local] Arguments meanwhile : simpl never.
#[local] Arguments liveChannels : simpl never.
#[local] Arguments liveStreams : simpl never.
#[local] Arguments contextClosed : simpl never.
#[local] Arguments heard : simpl never.
#[local] Arguments accumulate : simpl never.
#[local] Arguments Js.trim : simpl never.
#[local] Arguments Js.truthy : simpl never.

Lemma liveChannels_snoc (j : list Event) (ev : Event) :
  liveChannels (j ++ [ev]) = channelStep (liveChannels j) ev.
Proof. apply liveChannels_app. Qed.

Lemma liveStreams_snoc (j : list Event) (ev : Event) :
  liveStreams (j ++ [ev]) = streamStep (liveStreams j) ev.
Proof. apply liveStreams_app. Qed.

Lemma contextClosed_snoc (a : ContextId) (j : list Event) (ev : Event) :
  contextClosed a (j ++ [ev]) =
    contextClosed a j
    || match ev with EvCloseContext b => Nat.eqb a b | _ => false end.
Proof. rewrite contextClosed_app. unfold contextClosed at 2. cbn. now rewrite orb_false_r. Qed.

Lemma heard_nil (fs : list string) (acc : string) : heard [] fs acc = acc.
Proof. reflexivity. Qed.

Lemma heard_cons ch live (fs : list string) (acc : string) :
  heard (ch :: live) fs acc = accumulate acc fs.
Proof. reflexivity. Qed.

(** Symbolic execution of a run kept in hypothesis [H]. *)
Ltac use_env H :=
  repeat match goal with
         | E : liveChannels _ = _ |- _ => rewrite E in H
         | E : liveStreams _ = _ |- _ => rewrite E in H
         | E : contextClosed _ _ = _ |- _ => rewrite E in H
         end.

Ltac crunch H :=
  cbn in H;
  repeat (progress
            (rewrite ?meanwhile_spec, ?contextClosed_snoc, ?liveChannels_snoc,
               ?liveStreams_snoc in H by reflexivity;
             use_env H; cbn in H;
             rewrite ?Nat.eqb_refl, ?heard_nil, ?heard_cons in H; cbn in H)).

(* ===================================================================== *)
(** ** Properties of all runs *)
(* ===================================================================== *)

Lemma always_run {A} I D Q (s : Step A) (script : list Input) :
  always I D Q s ->
  Q (outcome (run s script)) (final (run s script))
  /\ Forall (fun qw => I (fst qw) (snd qw)) (asked (run s script))
  /\ Forall (fun p => D (waitingOn p)) (detached (run s script)).
Proof.
  revert script.
  induction s as [A a w|A e w|A r w k IH|A r k _ rest IH]; intros script H;
    cbn [always run] in *.
  - split; [exact H | split; constructor].
  - split; [exact H | split; constructor].
  - destruct H as (HI & HB & Hk).
    destruct script as [|[fs x] script']; cbn.
    + split; [exact HB | split; repeat constructor; exact HI].
    + destruct (IH x (meanwhile r fs w) Q script' (Hk fs x)) as (HQ & HA & HD).
      split; [exact HQ | split; [constructor; [exact HI | exact HA] | exact HD]].
  - cbn. destruct H as [Hd H]. destruct (IH Q script H) as (HQ & HA & HD).
    split; [exact HQ | split; [exact HA | constructor; [exact Hd | exact HD]]].
Qed.

Lemma always_mono {A} (I I' : Req -> World -> Prop) (D D' : Req -> Prop)
    (Q Q' : Outcome A -> World -> Prop) (s : Step A) :
  (forall r w, I r w -> I' r w) -> (forall r, D r -> D' r) ->
  (forall o w, Q o w -> Q' o w) ->
  always I D Q s -> always I' D' Q' s.
Proof.
  intros HI HD. revert Q Q'.
  induction s as [A a w|A e w|A r w k IH|A r k _ rest IH]; intros Q Q' HQ H;
    cbn [always] in *.
  - now apply HQ.
  - now apply HQ.
  - destruct H as (H1 & H2 & H3). repeat split; auto.
    intros fs x. eapply IH; eauto.
  - destruct H as [H1 H2]. split; [now apply HD | eapply IH; eauto].
Qed.

Lemma always_bindS {A B} I D (Q1 : Outcome A -> World -> Prop)
    (Q : Outcome B -> World -> Prop) (s : Step A) (f : A -> Async B) :
  always I D Q1 s ->
  (forall a w, Q1 (Returned a) w -> always I D Q (f a w)) ->
  (forall e w, Q1 (Rejected e) w -> Q (Rejected e) w) ->
  (forall r w, Q1 (Blocked r) w -> Q (Blocked r) w) ->
  always I D Q (bindS s f).
Proof.
  revert Q1 Q f.
  induction s as [A a w|A e w|A r w k IH|A r k _ rest IH];
    intros Q1 Q f H Hret Hrej Hblk; cbn [always bindS] in *.
  - now apply Hret.
  - now apply Hrej.
  - destruct H as (H1 & H2 & H3). repeat split; auto.
    intros fs x. eapply IH; eauto.
  - destruct H as [H1 H2]. split; [exact H1 | eapply IH; eauto].
Qed.

Lemma always_catchS {A} I D (Q1 Q : Outcome A -> World -> Prop) (s : Step A)
    (h : JsError -> Async A) :
  always I D Q1 s ->
  (forall a w, Q1 (Returned a) w -> Q (Returned a) w) ->
  (forall e w, Q1 (Rejected e) w -> always I D Q (h e w)) ->
  (forall r w, Q1 (Blocked r) w -> Q (Blocked r) w) ->
  always I D Q (catchS s h).
Proof.
  revert Q1 Q h.
  induction s as [A a w|A e w|A r w k IH|A r k _ rest IH];
    intros Q1 Q h H Hret Hrej Hblk; cbn [always catchS] in *.
  - now apply Hret.
  - now apply Hrej.
  - destruct H as (H1 & H2 & H3). repeat split; auto.
    intros fs x. eapply IH; eauto.
  - destruct H as [H1 H2]. split; [exact H1 | eapply IH; eauto].
Qed.

Lemma always_finallyS {A} I D (Q1 Q : Outcome A -> World -> Prop) (s : Step A)
    (fin : Async unit) :
  always I D Q1 s ->
  (forall a w, Q1 (Returned a) w ->
     always I D Q (bindS (fin w) (fun _ w' => Done a w'))) ->
  (forall e w, Q1 (Rejected e) w ->
     always I D Q (bindS (fin w) (fun _ w' => Threw e w'))) ->
  (forall r w, Q1 (Blocked r) w -> Q (Blocked r) w) ->
  always I D Q (finallyS s fin).
Proof.
  revert Q1 Q fin.
  induction s as [A a w|A e w|A r w k IH|A r k _ rest IH];
    intros Q1 Q fin H Hret Hrej Hblk; cbn [always finallyS] in *.
  - now apply Hret.
  - now apply Hrej.
  - destruct H as (H1 & H2 & H3). repeat split; auto.
    intros fs x. eapply IH; eauto.
  - destruct H as [H1 H2]. split; [exact H1 | eapply IH; eauto].
Qed.

Lemma Step_unit_ind (P : Step unit -> Prop) :
  (forall a w, P (Done a w)) ->
  (forall e w, P (Threw e w)) ->
  (forall r w k, (forall x w', P (k x w')) -> P (Await r w k)) ->
  (forall r k rest, P rest -> P (Detach r k rest)) ->
  forall s, P s.
Proof.
  intros Hd Ht Ha Hs.
  fix IH 1. intros [a w|e w|r w k|r k rest].
  - apply Hd.
  - apply Ht.
  - apply Ha. intros x w'. apply IH.
  - apply Hs, IH.
Qed.

(** A call whose promise is dropped: only its first request matters. *)
Lemma always_detachS I D (Q1 Q : Outcome unit -> World -> Prop)
    (s : Step unit) :
  always (fun r _ => D r) D Q1 s ->
  (forall o w, Q1 o w -> Q (Returned tt) w) ->
  always I D Q (detachS s).
Proof.
  intros H HQ.
  induction s as [a w|e w|r w k IH|r k rest IH] using Step_unit_ind;
    cbn [always detachS] in *.
  - eapply HQ, H.
  - eapply HQ, H.
  - destruct H as (H1 & H2 & H3). split; [exact H1 | eapply HQ, H2].
  - destruct H as [H1 H2]. split; [exact H1 | now apply IH].
Qed.

Section Preservation.
Variable R : Req -> Prop.
Variable P : World -> Prop.

Lemma preserves_ret {A} (a : A) : preserves R P (ret a).
Proof. intros w H. exact H. Qed.

Lemma preserves_throw {A} (e : JsError) : preserves R P (@throw A e).
Proof. intros w H. exact H. Qed.

Lemma preserves_gets {A} (f : World -> A) : preserves R P (gets f).
Proof. intros w H. exact H. Qed.

Lemma preserves_modify (f : World -> World) :
  (forall w, P w -> P (f w)) -> preserves R P (modify f).
Proof. intros Hf w H. apply Hf, H. Qed.

Lemma preserves_bind {A B} (m : Async A) (f : A -> Async B) :
  preserves R P m -> (forall a, preserves R P (f a)) ->
  preserves R P (bind m f).
Proof.
  intros Hm Hf w H. unfold bind.
  eapply always_bindS;
    [apply Hm, H | intros a w' H'; apply Hf, H' | cbn; auto | cbn; auto].
Qed.

Lemma preserves_tryCatch {A} (m : Async A) (h : JsError -> Async A) :
  preserves R P m -> (forall e, preserves R P (h e)) ->
  preserves R P (tryCatch m h).
Proof.
  intros Hm Hh w H. unfold tryCatch.
  eapply always_catchS;
    [apply Hm, H | cbn; auto | intros e w' H'; apply Hh, H' | cbn; auto].
Qed.

Lemma preserves_tryFinally {A} (m : Async A) (fin : Async unit) :
  preserves R P m -> preserves R P fin -> preserves R P (tryFinally m fin).
Proof.
  intros Hm Hfin w H. unfold tryFinally.
  eapply always_finallyS; [apply Hm, H | | | cbn; auto].
  - intros a w' H'.
    eapply always_bindS; [apply Hfin, H' | cbn; auto | cbn; auto | cbn; auto].
  - intros e w' H'.
    eapply always_bindS; [apply Hfin, H' | cbn; auto | cbn; auto | cbn; auto].
Qed.

Lemma preserves_spawn (m : Async unit) :
  preserves R P m -> preserves R P (spawn m).
Proof.
  intros Hm w H. unfold spawn.
  apply always_detachS with (Q1 := fun _ w' => P w'); [|cbn; auto].
  apply always_mono with (I := fun q w' => R q /\ P w') (D := R)
                         (Q := fun _ w' => P w');
    [intros r w' [Hr _]; exact Hr | auto | auto | apply Hm, H].
Qed.

Hypothesis P_stable : stable P.

Lemma preserves_await (r : Req) : R r -> preserves R P (await r).
Proof.
  intros Hr w H. cbn.
  split; [split; [exact Hr | exact H]
         | split; [exact H | intros fs x; apply P_stable, H]].
Qed.

Hypothesis R_sleep : forall ms, R (ReqSleep ms).

Lemma preserves_sleep (ms : nat) : preserves R P (sleep ms).
Proof.
  apply preserves_bind; [apply preserves_await, R_sleep
                        | intros; apply preserves_ret].
Qed.

Lemma preserves_withRetry {A} (fn : Async A) (retries delay : nat) :
  preserves R P fn -> preserves R P (withRetry fn retries delay).
Proof.
  intros Hfn. revert delay.
  induction retries as [|n IH]; intros delay; cbn [withRetry];
    apply preserves_tryCatch; auto; intros e; destruct (isQuota e);
    try apply preserves_throw.
  apply preserves_bind; [apply preserves_sleep | intros _; apply IH].
Qed.

Hypothesis R_service : forall q, isServiceCall q = true -> R q.

Lemma preserves_refine (text lang : string) :
  preserves R P (refineToMedicalEnglish text lang).
Proof.
  unfold refineToMedicalEnglish.
  destruct (negb _); [apply preserves_ret|].
  apply preserves_withRetry, preserves_bind;
    [apply preserves_await, R_service; reflexivity|].
  intros [| | | |[t|]| | | |e]; first [apply preserves_ret | apply preserves_throw].
Qed.

Lemma preserves_translate (text from to : string) :
  preserves R P (translateAndSpeak text from to).
Proof.
  unfold translateAndSpeak.
  destruct (negb _); [apply preserves_ret|].
  apply preserves_withRetry, preserves_bind;
    [apply preserves_await, R_service; reflexivity|].
  intros x. apply preserves_bind.
  - destruct x as [| | | |[t|]| | | |e];
      first [apply preserves_ret | apply preserves_throw].
  - intros translated. apply preserves_bind;
      [apply preserves_await, R_service; reflexivity|].
    intros [| | | | |[d|]| | |e];
      first [apply preserves_ret | apply preserves_throw].
Qed.
End Preservation.

(** A property that does not look at the two accumulations nor at the
    clock is stable. *)
Lemma stable_by (P : World -> Prop) :
  (forall w f cap t, P w ->
     P (mkWorld (withCurrentInput f (ui w)) (sessionRef w) (audioContextRef w)
          (streamRef w) (currentRoleRef w) cap (heap w) (journal w) t
          (nextId w))) ->
  stable P.
Proof.
  intros H r fs w Hw.
  destruct (isAwait r) eqn:Hr.
  - rewrite meanwhile_spec by exact Hr. now apply H.
  - unfold meanwhile. now rewrite Hr.
Qed.

(* ===================================================================== *)
(** ** [trim] *)
(* ===================================================================== *)

Lemma trimStart_head (s : string) :
  match Js.trimStart s with
  | EmptyString => True
  | String c _ => Js.isWhite c = false
  end.
Proof.
  induction s as [|c r IH]; cbn [Js.trimStart]; [exact I|].
  destruct (Js.isWhite c) eqn:E; [exact IH | exact E].
Qed.

Lemma trimStart_fixed (c : ascii) (r : string) :
  Js.isWhite c = false -> Js.trimStart (String c r) = String c r.
Proof. intros E. cbn [Js.trimStart]. now rewrite E. Qed.

Lemma trimEnd_cons (c : ascii) (r : string) :
  Js.trimEnd (String c r) =
    match Js.trimEnd r with
    | EmptyString => if Js.isWhite c then EmptyString else String c EmptyString
    | String _ _ as r' => String c r'
    end.
Proof. reflexivity. Qed.

Lemma trimEnd_idem (s : string) : Js.trimEnd (Js.trimEnd s) = Js.trimEnd s.
Proof.
  induction s as [|c r IH]; [reflexivity|].
  rewrite trimEnd_cons.
  destruct (Js.trimEnd r) as [|c' r'] eqn:E.
  - destruct (Js.isWhite c) eqn:W; [reflexivity|].
    rewrite trimEnd_cons. cbn [Js.trimEnd]. now rewrite W.
  - rewrite trimEnd_cons, IH. reflexivity.
Qed.

Lemma trim_idem (s : string) : Js.trim (Js.trim s) = Js.trim s.
Proof.
  unfold Js.trim.
  pose proof (trimStart_head s) as H.
  destruct (Js.trimStart s) as [|c r]; [reflexivity|].
  assert (E : Js.trimStart (Js.trimEnd (String c r)) = Js.trimEnd (String c r)).
  { rewrite trimEnd_cons. destruct (Js.trimEnd r); rewrite ?H; now apply trimStart_fixed. }
  rewrite E. apply trimEnd_idem.
Qed.

(** Sequencing is associative, as far as runs and [always] can tell. *)
Lemma run_bindS_assoc {A B C} (s : Step A) (f : A -> Async B)
    (g : B -> Async C) (script : list Input) :
  run (bindS (bindS s f) g) script
  = run (bindS s (fun a w => bindS (f a w) g)) script.
Proof.
  revert f g script.
  induction s as [A a w|A e w|A r w k IH|A r k _ rest IH];
    intros f g script; cbn [bindS run].
  - reflexivity.
  - reflexivity.
  - destruct script as [|[fs x] script']; [reflexivity|].
    now rewrite IH.
  - now rewrite IH.
Qed.

Lemma always_bindS_assoc {A B C} I D (Q : Outcome C -> World -> Prop)
    (s : Step A) (f : A -> Async B) (g : B -> Async C) :
  always I D Q (bindS s (fun a w => bindS (f a w) g)) ->
  always I D Q (bindS (bindS s f) g).
Proof.
  revert f g Q.
  induction s as [A a w|A e w|A r w k IH|A r k _ rest IH];
    intros f g Q H; cbn [always bindS] in *.
  - exact H.
  - exact H.
  - destruct H as (Hi & Hq & Hk). split; [exact Hi|]. split; [exact Hq|].
    intros fs x. apply IH, Hk.
  - destruct H as (Hd & Hr). split; [exact Hd|]. apply IH, Hr.
Qed.

(* ===================================================================== *)
(** ** One channel at a time *)
(* ===================================================================== *)

Lemma calm_refl (j : list Event) :
  length (liveChannels j) <= 1 -> calmSince j j.
Proof.
  intros H. exists []. split; [now rewrite app_nil_r|].
  intros n. rewrite take_nil, app_nil_r. exact H.
Qed.

Lemma calm_snoc (j0 j : list Event) (ev : Event) :
  calmSince j0 j -> length (liveChannels (j ++ [ev])) <= 1 ->
  calmSince j0 (j ++ [ev]).
Proof.
  intros (l & -> & Hl) H. exists (l ++ [ev]). split; [now rewrite app_assoc|].
  intros n. destruct (Nat.le_gt_cases n (length l)) as [Hn|Hn].
  - rewrite take_app_le by exact Hn. apply Hl.
  - rewrite take_ge by (rewrite length_app; cbn; lia).
    rewrite app_assoc. exact H.
Qed.

Lemma calm_trans (j0 j1 j2 : list Event) :
  calmSince j0 j1 -> calmSince j1 j2 -> calmSince j0 j2.
Proof.
  intros (l1 & -> & H1) (l2 & -> & H2). exists (l1 ++ l2).
  split; [now rewrite app_assoc|].
  intros n. destruct (Nat.le_gt_cases n (length l1)) as [Hn|Hn].
  - rewrite take_app_le by exact Hn. apply H1.
  - replace n with (length l1 + (n - length l1)) by lia.
    rewrite take_app_add'. 2: reflexivity.
    rewrite app_assoc. apply H2.
Qed.

Lemma calm_quiet (j0 j : list Event) (ev : Event) :
  calmSince j0 j ->
  channelStep (liveChannels j) ev = liveChannels j ->
  calmSince j0 (j ++ [ev]).
Proof.
  intros H E. apply calm_snoc; [exact H|].
  rewrite liveChannels_snoc, E.
  destruct H as (l & -> & Hl). specialize (Hl (length l)).
  now rewrite take_ge in Hl by lia.
Qed.

Lemma calm_now (j0 j : list Event) :
  calmSince j0 j -> length (liveChannels j) <= 1.
Proof.
  intros (l & -> & Hl). specialize (Hl (length l)).
  now rewrite take_ge in Hl by lia.
Qed.

(* ===================================================================== *)
(** ** Stop, route and start on every script *)
(* ===================================================================== *)

Ltac env_goal :=
  rewrite ?liveStreams_snoc, ?liveChannels_snoc, ?contextClosed_snoc;
  repeat match goal with
         | E : liveChannels _ = _ |- _ => rewrite E
         | E : liveStreams _ = _ |- _ => rewrite E
         | E : contextClosed _ _ = _ |- _ => rewrite E
         end;
  cbn; rewrite ?Nat.eqb_refl; cbn.

Lemma finalize_always (role : Role) (s : StreamId) (a : ContextId)
    (ch : ChannelId) (w : World) :
  holding role s a ch w ->
  always (fun q _ => notMicrophone q /\ isServiceCall q = false)
         (fun _ => False)
         (fun o w' =>
            calmSince (journal w) (journal w')
            /\ scribeBlocks (ui w') = scribeBlocks (ui w)
            /\ messages (ui w') = messages (ui w)
            /\ match o with
               | Returned res =>
                   fst res = Some role /\ Js.trim (snd res) = snd res
                   /\ idle w'
               | _ => True
               end)
         (finalizeCapture w).
Proof.
  intros (Hlive & Hrole & Hs & Ha & Hch & HLs & HLc).
  destruct w as [u ses ctx str rl cap hp j t n].
  destruct u as [ustep umode udoc upat udet ublocks umsgs ucur udraft ustatus
                   uerr ulive utr ufin].
  cbn in Hlive, Hrole, Hs, Ha, Hch, HLs, HLc. subst ses ctx str rl.
  assert (C0 : calmSince j j) by (apply calm_refl; rewrite HLc; cbn; lia).
  assert (C1 : calmSince j (j ++ [EvStopTracks s])) by (now apply calm_quiet).
  unfold finalizeCapture. cbn.
  split; [split; [discriminate | reflexivity]|].
  split; [now repeat split|].
  intros fs1 x1. rewrite meanwhile_spec by reflexivity. cbn.
  split; [split; [discriminate | reflexivity]|].
  split; [now repeat split|].
  intros fs2 x2. rewrite meanwhile_spec by reflexivity. cbn.
  destruct x2 as [| | |closeThrows| | | | |e]; cbn; try (now repeat split).
  assert (C2 : calmSince j ((j ++ [EvStopTracks s]) ++ [EvCloseSession ch closeThrows])).
  { apply calm_snoc; [exact C1|]. env_goal. lia. }
  assert (L2 : liveChannels ((j ++ [EvStopTracks s]) ++ [EvCloseSession ch closeThrows]) = []).
  { env_goal. reflexivity. }
  rewrite !contextClosed_snoc. cbn. rewrite !orb_false_r.
  destruct (contextClosed a j) eqn:Hcl; cbn.
  - split; [exact C2|]. split; [reflexivity|]. split; [reflexivity|].
    split; [reflexivity|]. split; [apply trim_idem|].
    unfold idle, released. cbn. env_goal. repeat split; reflexivity.
  - split; [split; [discriminate | reflexivity]|].
    assert (C3 : calmSince j (((j ++ [EvStopTracks s])
                                 ++ [EvCloseSession ch closeThrows])
                                ++ [EvCloseContext a])).
    { apply calm_quiet; [exact C2 | reflexivity]. }
    split; [now repeat split|].
    intros fs3 x3. rewrite meanwhile_spec by reflexivity. cbn.
    split; [exact C3|]. split; [reflexivity|]. split; [reflexivity|].
    split; [reflexivity|]. split; [apply trim_idem|].
    unfold idle, released. cbn. env_goal. repeat split; reflexivity.
Qed.

Lemma idle_stable : stable idle.
Proof.
  intros r fs w H. destruct (isAwait r) eqn:Hr.
  - rewrite meanwhile_spec by exact Hr.
    destruct H as ((H1 & H2 & H3 & H4 & H5 & H6 & H7) & H8 & H9).
    destruct w as [u ? ? ? ? ? ? ? ? ?]. destruct u.
    unfold idle, released in *. cbn in *. rewrite H7. cbn.
    repeat split; assumption.
  - unfold meanwhile. now rewrite Hr.
Qed.

Lemma calm_stable (j0 : list Event) :
  stable (fun w => calmSince j0 (journal w)).
Proof. apply stable_by. intros w f cap t H. exact H. Qed.

Lemma stable_and (P Q : World -> Prop) :
  stable P -> stable Q -> stable (fun w => P w /\ Q w).
Proof. intros HP HQ r fs w [H1 H2]. split; [now apply HP | now apply HQ]. Qed.

Lemma logged_stable (text : string) : stable (logged text).
Proof.
  apply stable_by. intros w f cap t H. destruct w as [u ? ? ? ? ? ? ? ? ?].
  destruct u. exact H.
Qed.

Lemma messages_stable (M : list Message) :
  stable (fun w => messages (ui w) = M).
Proof.
  apply stable_by. intros w f cap t H. destruct w as [u ? ? ? ? ? ? ? ? ?].
  destruct u. exact H.
Qed.

Lemma route_always (c : ReactState) (role : option Role) (text : string)
    (j0 : list Event) (w : World) :
  idle w -> calmSince j0 (journal w) -> Js.trim text = text ->
  always (fun q _ => notMicrophone q) notMicrophone
         (fun _ w' =>
            idle w' /\ calmSince j0 (journal w')
            /\ messages (ui w') = messages (ui w)
            /\ (scribeRoute c role -> Js.truthy text = true -> logged text w'))
         (routeFinalText c role text w).
Proof.
  intros Hidle Hcalm Htrim. unfold routeFinalText.
  destruct (Js.truthy text) eqn:Ht; cbn [negb].
  2:{ cbn. repeat split; try assumption; try apply Hidle. discriminate. }
  set (P := fun w' : World =>
              (idle w' /\ calmSince j0 (journal w'))
              /\ messages (ui w') = messages (ui w) /\ logged text w').
  assert (HP : stable P).
  { apply stable_and;
      [apply stable_and; [apply idle_stable | apply calm_stable]
      | apply stable_and; [apply messages_stable | apply logged_stable]]. }
  assert (Hscribe :
    always (fun q _ => notMicrophone q) notMicrophone
      (fun _ w' =>
         idle w' /\ calmSince j0 (journal w')
         /\ messages (ui w') = messages (ui w)
         /\ (scribeRoute c role -> true = true -> logged text w'))
      ((setScribeBlocks (fun prev => prev ++ [mkScribeBlock text None]) ;;
        tryCatch
          (refinedText <- refineToMedicalEnglish text (docLang c) ;;
           setScribeBlocks (map (attachRefined text refinedText)))
          (fun e => consoleError e)) w)).
  { eapply always_mono with
      (I := fun q w' => notMicrophone q /\ P w') (D := notMicrophone)
      (Q := fun _ w' => P w').
    - intros q w' [H _]. exact H.
    - auto.
    - intros o w' ((H1 & H2) & H3 & H4). auto.
    - assert (Hk : preserves notMicrophone P
                (tryCatch
                   (refinedText <- refineToMedicalEnglish text (docLang c) ;;
                    setScribeBlocks (map (attachRefined text refinedText)))
                   (fun e => consoleError e))).
      { apply preserves_tryCatch.
        - apply preserves_bind.
          + apply preserves_refine; [exact HP | discriminate|].
            intros q Hq Hq'. subst q. discriminate.
          + intros refinedText. apply preserves_modify.
            intros w' ((H1 & H2) & H3 & (b & Hb & Ho)).
            destruct w' as [u ? ? ? ? ? ? ? ? ?]. destruct u.
            unfold P, idle, released, logged in *. cbn in *.
            repeat split; try tauto.
            exists (attachRefined text refinedText b). split.
            * apply in_map_iff. now exists b.
            * unfold attachRefined. now destruct (String.eqb _ _).
        - intros e. apply preserves_modify.
          intros w' ((H1 & H2) & H3 & H4).
          destruct w' as [u ? ? ? ? ? ? ? ? ?]. destruct u.
          unfold P, idle, released, logged in *. cbn in *.
          destruct H1 as ((? & ? & ? & ? & ? & HLs & HLc) & ? & ?).
          rewrite liveStreams_snoc, liveChannels_snoc, HLs, HLc. cbn.
          repeat split; try assumption.
          apply calm_quiet; [exact H2 | reflexivity]. }
      apply Hk.
      destruct w as [u ? ? ? ? ? ? ? ? ?]. destruct u.
      unfold P, idle, released, logged in *. cbn in *.
      repeat split; try tauto.
      exists (mkScribeBlock text None). split; [|reflexivity].
      apply in_or_app. right. now left. }
  destruct (mode c) eqn:Hm; [exact Hscribe|].
  destruct role as [[sp|]|]; try exact Hscribe.
  unfold spawn, handleTranslationPhase, translateAndSpeak.
  assert (Ht' : Js.truthy (Js.trim text) = true) by now rewrite Htrim.
  cbn. rewrite Ht'. cbn.
  destruct w as [u ? ? ? ? ? ? ? ? ?]. destruct u.
  unfold idle, released in *. cbn in *.
  repeat split; try tauto; try discriminate.
  intros [H|[H|H]]; congruence.
Qed.

(** *** Stepping through a handler *)

Lemma always_done {A} I D (Q : Outcome A -> World -> Prop) (a : A)
    (w : World) :
  Q (Returned a) w -> always I D Q (Done a w).
Proof. exact (fun H => H). Qed.

Lemma always_threw {A} I D (Q : Outcome A -> World -> Prop) (e : JsError)
    (w : World) :
  Q (Rejected e) w -> always I D Q (Threw e w).
Proof. exact (fun H => H). Qed.

Lemma always_await {A} (I : Req -> World -> Prop) D
    (Q : Outcome A -> World -> Prop) (r : Req) (w : World)
    (k : Resp -> World -> Step A) :
  I r w -> Q (Blocked r) w ->
  (forall fs x, always I D Q (k x (meanwhile r fs w))) ->
  always I D Q (Await r w k).
Proof. intros H1 H2 H3. exact (conj H1 (conj H2 H3)). Qed.

Lemma always_detach {A} (I : Req -> World -> Prop) (D : Req -> Prop)
    (Q : Outcome A -> World -> Prop) (r : Req)
    (k : Resp -> World -> Step unit) (rest : Step A) :
  D r -> always I D Q rest -> always I D Q (Detach r k rest).
Proof. intros H1 H2. exact (conj H1 H2). Qed.

Lemma meanwhile_quiet (r : Req) (fs : list string) (w : World) :
  liveChannels (journal w) = [] -> meanwhile r fs w = elapse r w.
Proof.
  intros H. unfold meanwhile. destruct (isAwait r) eqn:Hr.
  - unfold arrive.
    assert (Hj : journal (elapse r w) = journal w) by now destruct r.
    now rewrite Hj, H.
  - destruct r; try discriminate. reflexivity.
Qed.

Lemma meanwhile_live (r : Req) (fs : list string) (w : World) ch live :
  isAwait r = true -> liveChannels (journal w) = ch :: live ->
  meanwhile r fs w =
    withUi (withCurrentInput (fun prev => accumulate prev fs))
      (withCapturedTextRef (accumulate (capturedTextRef w) fs) (elapse r w)).
Proof.
  intros Hr H. rewrite meanwhile_spec by exact Hr. rewrite H.
  destruct w as [u ? ? ? ? ? ? ? ? ?]. destruct u. now destruct r.
Qed.

(** The handler is run up to its next request or to its end, and no
    further. *)
Ltac step :=
  match goal with
  | |- always ?I ?D ?Q ?s =>
      let s' := eval hnf in s in
      change (always I D Q s');
      lazymatch s' with
      | Done _ _ => apply always_done
      | Threw _ _ => apply always_threw
      | Await _ _ _ => apply always_await; [ | | intros ? ?]
      | Detach _ _ _ => apply always_detach
      end
  end.

#[local] Opaque contextClosed liveChannels liveStreams.

Ltac leaf :=
  lazymatch goal with
  | |- always _ _ _ _ => fail
  | _ =>
      cbn; unfold idle, released; cbn;
      repeat split;
      solve [ assumption | discriminate | reflexivity
            | match goal with H : _ |- _ => apply H end ]
  end.

Ltac quiet :=
  rewrite meanwhile_quiet
    by (cbn; rewrite ?liveChannels_snoc;
        repeat match goal with E : liveChannels _ = _ |- _ => rewrite E end;
        reflexivity);
  cbn [elapse].

Lemma start_always (c : ReactState) (role : Role) (j0 : list Event)
    (w : World) :
  released w -> calmSince j0 (journal w) ->
  always (fun q w' =>
            q = ReqGetUserMedia ->
            idle w' /\ scribeBlocks (ui w') = scribeBlocks (ui w)
            /\ messages (ui w') = messages (ui w))
         (fun _ => False)
         (fun o w' =>
            calmSince j0 (journal w')
            /\ scribeBlocks (ui w') = scribeBlocks (ui w)
            /\ messages (ui w') = messages (ui w)
            /\ (o = Returned tt -> isLive (ui w') = Some role ->
                capturedTextRef w' = ""%string
                /\ currentInput (ui w') = ""%string
                /\ exists s a ch, holding role s a ch w'))
         (startCapture c role w).
Proof.
  intros (Hlive & Hrole & Hs & Ha & Hch & HLs & HLc) Hcalm.
  destruct w as [u ses ctx str rl cap hp j t n].
  destruct u as [ustep umode udoc upat udet ublocks umsgs ucur udraft ustatus
                   uerr ulive utr ufin].
  cbn in Hlive, Hrole, Hs, Ha, Hch, HLs, HLc, Hcalm. subst.
  assert (C1 : forall s, calmSince j0 (j ++ [EvAcquireStream s]))
    by (intros; now apply calm_quiet).
  assert (C2 : forall s a, calmSince j0 ((j ++ [EvAcquireStream s]) ++ [EvOpenContext a]))
    by (intros; now apply calm_quiet).
  set (instruction := mkInstruction role
         match role with Party Patient => patLang c | _ => docLang c end).
  assert (C4 :
    calmSince j0
      ((((j ++ [EvAcquireStream n]) ++ [EvOpenContext (S n)])
          ++ [EvConnect (S (S n)) instruction])
         ++ [EvWire n (S n) (S (S n))])).
  { apply calm_quiet; [|reflexivity]. apply calm_snoc; [apply C2|].
    rewrite !liveChannels_snoc, HLc. cbn. lia. }
  assert (HL4 : liveChannels
      ((((j ++ [EvAcquireStream n]) ++ [EvOpenContext (S n)])
          ++ [EvConnect (S (S n)) instruction])
         ++ [EvWire n (S n) (S (S n))]) = [S (S n)]).
  { rewrite !liveChannels_snoc, HLc. reflexivity. }
  assert (HS4 : liveStreams
      ((((j ++ [EvAcquireStream n]) ++ [EvOpenContext (S n)])
          ++ [EvConnect (S (S n)) instruction])
         ++ [EvWire n (S n) (S (S n))]) = [n]).
  { rewrite !liveStreams_snoc, HLs. reflexivity. }
  step; [leaf | leaf |].
  quiet.
  destruct x; step; try leaf.
  clear fs. unfold meanwhile. cbn [isAwait].
  destruct x as [| |suspended| | | | | |e]; [| |destruct suspended| | | | | |];
    step; try leaf.
  - quiet. destruct x; step; try leaf.
    all: cbn.
    all: split; [exact C4|].
    all: split; [reflexivity|].
    all: split; [reflexivity|].
    all: intros _ _.
    all: split; [reflexivity|].
    all: split; [reflexivity|].
    all: exists n, (S n), (S (S n)).
    all: unfold holding.
    all: cbn.
    all: repeat split; first [exact HS4 | exact HL4 | reflexivity].
  - cbn.
    split; [exact C4|]. split; [reflexivity|]. split; [reflexivity|].
    intros _ _. split; [reflexivity|]. split; [reflexivity|].
    exists n, (S n), (S (S n)). unfold holding. cbn.
    repeat split; first [exact HS4 | exact HL4 | reflexivity].
Qed.

(** Projections of explicit worlds, and nothing else, are computed. *)
Ltac worlds :=
  cbn [ui sessionRef audioContextRef streamRef currentRoleRef capturedTextRef
       heap journal now nextId
       step mode docLang patLang patientDetails scribeBlocks messages
       currentInput draft status error isLive isTranslating isFinalizing
       withUi withSessionRef withAudioContextRef withStreamRef
       withCurrentRoleRef withCapturedTextRef withHeap withJournal withNow
       withNextId withScribeBlocks withMessages withCurrentInput withStep
       withDraft withStatus withError withIsLive withIsTranslating
       withIsFinalizing elapse fst snd].

(** *** Symbolic execution by small steps *)

(** What is left to show of [s] once its continuation [f] is taken into
    the postcondition. *)
Lemma always_bindS_wp {A B} I D (Q : Outcome B -> World -> Prop) (s : Step A)
    (f : A -> Async B) :
  always I D
    (fun o w => match o with
                | Returned a => always I D Q (f a w)
                | Rejected e => Q (Rejected e) w
                | Blocked r => Q (Blocked r) w
                end) s ->
  always I D Q (bindS s f).
Proof. intros H. eapply always_bindS; [exact H | | |]; cbn; auto. Qed.

Lemma always_catchS_wp {A} I D (Q : Outcome A -> World -> Prop) (s : Step A)
    (h : JsError -> Async A) :
  always I D
    (fun o w => match o with
                | Returned a => Q (Returned a) w
                | Rejected e => always I D Q (h e w)
                | Blocked r => Q (Blocked r) w
                end) s ->
  always I D Q (catchS s h).
Proof. intros H. eapply always_catchS; [exact H | | |]; cbn; auto. Qed.

Lemma always_finallyS_wp {A} I D (Q : Outcome A -> World -> Prop) (s : Step A)
    (fin : Async unit) :
  always I D
    (fun o w => match o with
                | Returned a =>
                    always I D Q (bindS (fin w) (fun _ w' => Done a w'))
                | Rejected e =>
                    always I D Q (bindS (fin w) (fun _ w' => Threw e w'))
                | Blocked r => Q (Blocked r) w
                end) s ->
  always I D Q (finallyS s fin).
Proof. intros H. eapply always_finallyS; [exact H | | |]; cbn; auto. Qed.

Ltac head_of t :=
  lazymatch t with
  | ?f _ => head_of f
  | _ => t
  end.

(** One step of the handler under [always]; it stops at an [await] whose
    answer has not been looked at, and at a test on something unknown. *)
Ltac exec1 :=
  lazymatch goal with
  | |- context [meanwhile _ _ _] => fail
  | |- always ?I ?D ?Q ?s =>
      lazymatch s with
      | Done _ _ => apply always_done; cbn beta iota
      | Threw _ _ => apply always_threw; cbn beta iota
      | Await _ _ _ => apply always_await; [cbn beta iota | cbn beta iota | intros ? ?]
      | Detach _ _ _ => apply always_detach
      | bindS _ _ => apply always_bindS_wp
      | catchS _ _ => apply always_catchS_wp
      | finallyS _ _ => apply always_finallyS_wp
      | _ =>
          first [ progress cbn beta iota
                | progress worlds
                | let h := head_of s in progress unfold h ]
      end
  end.

Ltac exec := repeat exec1.

(* ===================================================================== *)
(** ** Stop-capture *)
(* ===================================================================== *)

(** What the first part of [stopLiveSession] does when a role is
    capturing and the session promise resolves. *)
Lemma finalize_capturing (role : Role) (s : StreamId) (a : ContextId)
    (ch : ChannelId) (w : World)
    (fs1 fs2 fs3 : list string) (x1 x3 : Resp) (closeThrows : bool)
    (script : list Input) :
  capturing role s a ch w ->
  let r := run (finalizeCapture w)
               ((fs1, x1) :: (fs2, RespSession closeThrows) :: (fs3, x3)
                  :: script) in
  outcome r =
    Returned (Some role, Js.trim (accumulate (capturedTextRef w) fs1))
  /\ final r = finalized s a ch closeThrows w
  /\ requests r = [ReqSleep 400; ReqSession ch; ReqCloseContext a]
  /\ head (asked r) = Some (ReqSleep 400, withUi (withIsFinalizing true) w)
  /\ detached r = []
  /\ unused r = script.
Proof.
  intros ((Hlive & Hrole & Hs & Ha & Hch & HLs & HLc) & Hcl) r. subst r.
  destruct w as [u ses ctx str rl cap hp j t n].
  destruct u as [? ? ? ? ? ? ? ? ? ? ? ? ? ?].
  cbn in Hlive, Hrole, Hs, Ha, Hch, HLs, HLc, Hcl.
  subst ses ctx str rl.
  remember (run _ _) as r eqn:Hr.
  unfold finalizeCapture in Hr. crunch Hr.
  subst r. unfold finalized, requests. cbn. rewrite <- !app_assoc. cbn.
  repeat split; reflexivity.
Qed.




(** The first part of [stopLiveSession] when no channel is live: the
    final text is the trimmed buffer as it is, and the log is not
    touched. *)
Lemma finalize_quiet (w : World) :
  liveChannels (journal w) = [] ->
  always (fun q _ => isServiceCall q = false) (fun _ => False)
         (fun o w' =>
            scribeBlocks (ui w') = scribeBlocks (ui w)
            /\ messages (ui w') = messages (ui w)
            /\ match o with
               | Returned res => snd res = Js.trim (capturedTextRef w)
               | _ => True
               end)
         (finalizeCapture w).
Proof.
  intros HLc.
  destruct w as [u ses ctx str rl cap hp j t n].
  destruct u as [ustep umode udoc upat udet ublocks umsgs ucur udraft
                   ustatus uerr ulive utr ufin].
  cbn in HLc.
  exec; [leaf | leaf |].
  quiet. exec. clear fs x.
  assert (L1 : forall s, liveChannels (j ++ [EvStopTracks s]) = [])
    by (intros; now rewrite liveChannels_snoc, HLc).
  destruct str as [s|]; exec; (destruct ses as [ch|]; exec; try leaf).
  1,3: quiet; destruct x; exec; try leaf.
  all: destruct ctx as [a|]; exec; try leaf.
  all: match goal with
       | |- context [contextClosed ?a ?J] =>
           destruct (contextClosed a J) eqn:Hcl
       end; exec; try leaf.
  all: quiet; exec; leaf.
Qed.

(** C7. Stop-capture called while no capture is active (no channel is
    live and the trimmed capture buffer is empty) leaves the transcript log
    as it is: no [ScribeBlock] and no [Message] is appended, no request goes
    to a post-processing service and no call is left running. *)
Theorem C7_stop_when_idle (c : ReactState) (w : World) (script : list Input) :
  liveChannels (journal w) = [] ->
  Js.trim (capturedTextRef w) = ""%string ->
  let r := run (stopLiveSession c w) script in
  scribeBlocks (ui (final r)) = scribeBlocks (ui w)
  /\ messages (ui (final r)) = messages (ui w)
  /\ Forall (fun q => isServiceCall q = false) (requests r)
  /\ detached r = [].
Proof.
  intros HLc Hcap r.
  assert (H : always (fun q _ => isServiceCall q = false) (fun _ => False)
                (fun _ w' => scribeBlocks (ui w') = scribeBlocks (ui w)
                             /\ messages (ui w') = messages (ui w))
                (stopLiveSession c w)).
  { unfold stopLiveSession, bind.
    eapply always_bindS; [apply (finalize_quiet w HLc) | | |].
    - intros [role text] w' (HB & HM & Htext). cbn [snd] in Htext.
      unfold routeFinalText. rewrite Htext, Hcap. apply always_done.
      now split.
    - intros e w' (HB & HM & _). now split.
    - intros q w' (HB & HM & _). now split. }
  destruct (always_run _ _ _ _ script H) as ((HB & HM) & HA & HD).
  fold r in HB, HM, HA, HD.
  split; [exact HB|]. split; [exact HM|]. split.
  - unfold requests. apply List.Forall_map. exact HA.
  - destruct (detached r) as [|p ps]; [reflexivity|].
    inversion HD as [|? ? Hp _]. destruct Hp.
Qed.

(* ===================================================================== *)
(** ** The scribe route *)
(* ===================================================================== *)

Lemma log_stable (B : list ScribeBlock) (M : list Message) (E : option string) :
  stable (fun w => scribeBlocks (ui w) = B /\ messages (ui w) = M
                   /\ error (ui w) = E).
Proof.
  apply stable_by. intros w f cap t H. destruct w as [u ? ? ? ? ? ? ? ? ?].
  destruct u. exact H.
Qed.

Lemma refine_starts (text lang : string) (w : World) (script : list Input) :
  Js.truthy (Js.trim text) = true ->
  head (asked (run (refineToMedicalEnglish text lang w) script))
  = Some (ReqRefine text lang, w).
Proof.
  intros H. unfold refineToMedicalEnglish. rewrite H. cbn [negb].
  destruct script as [|[fs x] script]; reflexivity.
Qed.

(** The scribe branch of [routeFinalText] in terms of the refinement
    call. *)
Lemma scribe_route (c : ReactState) (role : option Role) (finalText : string)
    (w : World) (script : list Input) :
  Js.truthy finalText = true ->
  (mode c = UNILINGUAL \/ role = Some Scribe \/ role = None) ->
  let appended :=
    withUi (withScribeBlocks (fun prev => prev ++ [mkScribeBlock finalText None])) w in
  let refinement := run (refineToMedicalEnglish finalText (docLang c) appended) script in
  run (routeFinalText c role finalText w) script =
    match outcome refinement with
    | Returned refinedText =>
        mkRun (Returned tt)
          (withUi (withScribeBlocks (map (attachRefined finalText refinedText)))
                  (final refinement))
          (asked refinement) (detached refinement) (unused refinement)
    | Rejected e =>
        mkRun (Returned tt)
          (withJournal (fun j => j ++ [EvConsoleError e]) (final refinement))
          (asked refinement) (detached refinement) (unused refinement)
    | Blocked q => castRun refinement (Blocked q)
    end.
Proof.
  intros Ht Hroute appended refinement.
  unfold routeFinalText. rewrite Ht. cbn [negb].
  assert (Hgo :
    run ((setScribeBlocks (fun prev => prev ++ [mkScribeBlock finalText None]) ;;
          tryCatch
            (refinedText <- refineToMedicalEnglish finalText (docLang c) ;;
             setScribeBlocks (map (attachRefined finalText refinedText)))
            (fun e => consoleError e)) w) script
    = match outcome refinement with
      | Returned refinedText =>
          mkRun (Returned tt)
            (withUi (withScribeBlocks (map (attachRefined finalText refinedText)))
                    (final refinement))
            (asked refinement) (detached refinement) (unused refinement)
      | Rejected e =>
          mkRun (Returned tt)
            (withJournal (fun j => j ++ [EvConsoleError e]) (final refinement))
            (asked refinement) (detached refinement) (unused refinement)
      | Blocked q => castRun refinement (Blocked q)
      end).
  { match goal with |- _ = ?rhs =>
      change (run (tryCatch
                   (refinedText <- refineToMedicalEnglish finalText (docLang c) ;;
                    setScribeBlocks (map (attachRefined finalText refinedText)))
                   (fun e => consoleError e) appended) script = rhs) end.
    rewrite run_tryCatch, run_bind. fold refinement.
    destruct refinement as [[v|e|q] wf qs ds us]; unfold seqRun, castRun; cbn;
      rewrite ?app_nil_r; reflexivity. }
  destruct (mode c) eqn:Hm; [exact Hgo|].
  destruct role as [[sp|]|]; try exact Hgo.
  destruct Hroute as [H|[H|H]]; discriminate.
Qed.

(** C3. In unilingual mode, a non-empty finalized utterance is appended to
    the log as [ScribeBlock{original: finalText}] before the refinement is
    requested: the request leaves a log that already ends with the entry.
    When the refinement call returns a text, every entry of the log whose
    [original] equals [finalText] (the new one and any older one with the
    same text) gets that text as [refined], and no other entry changes.
    When the call fails, the log keeps the unrefined entry, the failure goes
    to the console and the error shown to the user is not touched. *)
Theorem C3_scribe_entry (c : ReactState) (role : Role) (s : StreamId)
    (a : ContextId) (ch : ChannelId) (w : World)
    (fs1 fs2 fs3 : list string) (x1 x3 : Resp) (closeThrows : bool)
    (script : list Input) :
  mode c = UNILINGUAL ->
  capturing role s a ch w ->
  let finalText := Js.trim (accumulate (capturedTextRef w) fs1) in
  Js.truthy finalText = true ->
  let newBlock := mkScribeBlock finalText None in
  let appended :=
    withUi (withScribeBlocks (fun prev => prev ++ [newBlock]))
           (finalized s a ch closeThrows w) in
  let refinement :=
    run (refineToMedicalEnglish finalText (docLang c) appended) script in
  let r := run (stopLiveSession c w)
               ((fs1, x1) :: (fs2, RespSession closeThrows) :: (fs3, x3)
                  :: script) in
  nth_error (asked r) 3 = Some (ReqRefine finalText (docLang c), appended)
  /\ scribeBlocks (ui appended) = scribeBlocks (ui w) ++ [newBlock]
  /\ (forall refinedText,
        outcome refinement = Returned refinedText ->
        outcome r = Returned tt
        /\ scribeBlocks (ui (final r)) =
             map (attachRefined finalText refinedText)
                 (scribeBlocks (ui w) ++ [newBlock])
        /\ (forall b, In b (scribeBlocks (ui (final r))) ->
              original b = finalText -> refined b = Some refinedText)
        /\ error (ui (final r)) = error (ui w))
  /\ (forall e,
        outcome refinement = Rejected e ->
        outcome r = Returned tt
        /\ scribeBlocks (ui (final r)) = scribeBlocks (ui w) ++ [newBlock]
        /\ error (ui (final r)) = error (ui w)
        /\ journal (final r) = journal (final refinement) ++ [EvConsoleError e]).
Proof.
  intros Hmode Hcap finalText Ht newBlock appended refinement r.
  destruct (finalize_capturing role s a ch w fs1 fs2 fs3 x1 x3 closeThrows
              script Hcap) as (Ho & Hf & Hq & _ & Hd & Hu).
  assert (Hr : r = seqRun (run (finalizeCapture w)
                             ((fs1, x1) :: (fs2, RespSession closeThrows)
                                :: (fs3, x3) :: script))
                          (run (routeFinalText c (Some role) finalText
                                  (finalized s a ch closeThrows w)) script)).
  { subst r. unfold stopLiveSession. rewrite run_bind, Ho, Hf, Hu. reflexivity. }
  rewrite (scribe_route c (Some role) finalText _ script Ht (or_introl Hmode)) in Hr.
  fold newBlock appended refinement in Hr.
  assert (Hlog : scribeBlocks (ui appended) = scribeBlocks (ui w) ++ [newBlock]
                 /\ messages (ui appended) = messages (ui w)
                 /\ error (ui appended) = error (ui w)).
  { destruct w as [u ? ? ? ? ? ? ? ? ?]. now destruct u. }
  pose proof (always_run _ _ _ _ script
                (preserves_refine anyReq _ (log_stable _ _ _)
                   (fun _ => I) (fun _ _ => I) finalText (docLang c)
                   appended Hlog)) as [Hkeep _].
  fold refinement in Hkeep. cbn beta in Hkeep.
  destruct Hkeep as (HB & HM & HE).
  assert (H3 : length (asked (run (finalizeCapture w)
                                  ((fs1, x1) :: (fs2, RespSession closeThrows)
                                     :: (fs3, x3) :: script))) = 3).
  { unfold requests in Hq. rewrite <- (length_map fst), Hq. reflexivity. }
  assert (Hhead : head (asked refinement)
                  = Some (ReqRefine finalText (docLang c), appended)).
  { apply refine_starts. unfold finalText. now rewrite trim_idem. }
  split; [|split; [exact (proj1 Hlog)|split]].
  - rewrite Hr.
    assert (Hasked : forall (x : Run unit), asked x = asked refinement ->
              nth_error (asked (seqRun (run (finalizeCapture w)
                                  ((fs1, x1) :: (fs2, RespSession closeThrows)
                                     :: (fs3, x3) :: script)) x)) 3
              = Some (ReqRefine finalText (docLang c), appended)).
    { intros x Hx. unfold seqRun. cbn [asked].
      rewrite nth_error_app2 by lia. rewrite H3, Nat.sub_diag, Hx.
      destruct (asked refinement); [discriminate|]. cbn in Hhead |- *.
      congruence. }
    apply Hasked. destruct (outcome refinement); reflexivity.
  - intros refinedText Hret. rewrite Hr, Hret. cbn.
    destruct (final refinement) as [u ? ? ? ? ? ? ? ? ?] eqn:Ef.
    destruct u. cbn in HB, HE |- *. subst.
    repeat split; try reflexivity.
    intros b Hin Horig. apply in_map_iff in Hin as (b0 & <- & _).
    unfold attachRefined in *.
    destruct (String.eqb_spec (original b0) finalText) as [E|E];
      [reflexivity | contradiction].
  - intros e Hrej. rewrite Hr, Hrej. cbn.
    destruct (final refinement) as [u ? ? ? ? ? ? ? ? ?] eqn:Ef.
    destruct u. cbn in HB, HE |- *. subst.
    repeat split; reflexivity.
Qed.

(* ===================================================================== *)
(** ** The dialogue route *)
(* ===================================================================== *)

(** [try { a = await m; k a } catch (e) { h e } finally { fin }] in terms of
    the run of [m]. *)
Lemma run_try_bind {A} (s : Step A) (k : A -> Async unit)
    (h : JsError -> Async unit) (fin : Async unit) (script : list Input) :
  run (finallyS (catchS (bindS s k) h) fin) script =
    match outcome (run s script) with
    | Returned a =>
        seqRun (run s script)
          (run (tryFinally (tryCatch (k a) h) fin (final (run s script)))
               (unused (run s script)))
    | Rejected e =>
        seqRun (run s script)
          (run (tryFinally (h e) fin (final (run s script)))
               (unused (run s script)))
    | Blocked q => castRun (run s script) (Blocked q)
    end.
Proof.
  revert k script.
  induction s as [A a w|A e w|A r w q IH|A r q _ rest IH]; intros k script;
    cbn [bindS catchS finallyS run].
  - unfold seqRun, tryFinally, tryCatch. cbn.
    now destruct (run (finallyS (catchS (k a w) h) fin) script).
  - unfold seqRun, tryFinally. cbn.
    now destruct (run (finallyS (h e w) fin) script).
  - destruct script as [|[fs x] script']; [reflexivity|].
    cbn [outcome final asked detached unused]. rewrite IH.
    now destruct (outcome (run (q x (meanwhile r fs w)) script')).
  - cbn [outcome final asked detached unused]. rewrite IH.
    now destruct (outcome (run rest script)).
Qed.

Lemma preserves_playAudio (R : Req -> Prop) P (audio : string) :
  stable P -> (forall pcm, R (ReqPlay pcm)) ->
  preserves R P (playAudio audio).
Proof.
  intros HP HR. unfold playAudio. destruct (Base64.decode audio) as [pcm|];
    [|apply preserves_throw].
  apply preserves_bind; [now apply preserves_await|].
  intros x. destruct x; first [apply preserves_ret | apply preserves_throw].
Qed.

Lemma log_keeps_isTranslating R B M E (v : bool) :
  preserves R (fun w => scribeBlocks (ui w) = B /\ messages (ui w) = M
                      /\ error (ui w) = E)
            (setIsTranslating v).
Proof.
  apply preserves_modify. intros w H. destruct w as [u ? ? ? ? ? ? ? ? ?].
  now destruct u.
Qed.

Lemma log_keeps_console R B M E (e : JsError) :
  preserves R (fun w => scribeBlocks (ui w) = B /\ messages (ui w) = M
                      /\ error (ui w) = E)
            (consoleError e).
Proof.
  apply preserves_modify. intros w H. destruct w as [u ? ? ? ? ? ? ? ? ?].
  now destruct u.
Qed.

(** C4. In bilingual mode the non-empty final text of [Doctor] or
    [Patient] goes to [handleTranslationPhase].  When the translation call
    returns, exactly one [Message] is appended to the log, with that role,
    [original = finalText], the returned translation and the time of the
    append; whatever happens to the playback afterwards, the log keeps
    exactly this entry.  When the translation call fails, no entry is
    appended; the failure goes to the console and the error shown to the
    user is not touched. *)
Theorem C4_dialogue_entry (c : ReactState) (speaker : Speaker)
    (text : string) (w : World) (script : list Input) :
  let from := match speaker with Doctor => docLang c | Patient => patLang c end in
  let to := match speaker with Doctor => patLang c | Patient => docLang c end in
  let translation :=
    run (translateAndSpeak text from to (withUi (withIsTranslating true) w))
        script in
  let r := run (handleTranslationPhase c speaker text w) script in
  (mode c = BILINGUAL -> Js.truthy text = true ->
   routeFinalText c (Some (Party speaker)) text w
   = spawn (handleTranslationPhase c speaker text) w)
  /\ (forall result,
        outcome translation = Returned result ->
        messages (ui (final r)) =
          messages (ui w)
            ++ [mkMessage speaker text (Some (translatedText result))
                          (now (final translation))]
        /\ error (ui (final r)) = error (ui w))
  /\ (forall e,
        outcome translation = Rejected e ->
        outcome r = Returned tt
        /\ messages (ui (final r)) = messages (ui w)
        /\ error (ui (final r)) = error (ui w)
        /\ journal (final r) = journal (final translation) ++ [EvConsoleError e]
        /\ isTranslating (ui (final r)) = false).
Proof.
  intros from to translation r.
  split.
  { intros Hm Ht. unfold routeFinalText. now rewrite Ht, Hm. }
  assert (Hr : r =
    match outcome translation with
    | Returned result =>
        seqRun translation
          (run (tryFinally
                  (tryCatch
                     (timestamp <- gets now ;;
                      setMessages (fun prev => prev ++
                        [mkMessage speaker text (Some (translatedText result))
                                   timestamp]) ;;
                      if Js.truthy (audioData result)
                      then playAudio (audioData result) else ret tt)
                     (fun e => consoleError e))
                  (setIsTranslating false) (final translation))
               (unused translation))
    | Rejected e =>
        seqRun translation
          (run (tryFinally (consoleError e) (setIsTranslating false)
                           (final translation))
               (unused translation))
    | Blocked q => castRun translation (Blocked q)
    end).
  { subst r.
    exact (run_try_bind
             (translateAndSpeak text from to (withUi (withIsTranslating true) w))
             (fun result =>
                timestamp <- gets now ;;
                setMessages (fun prev => prev ++
                  [mkMessage speaker text (Some (translatedText result))
                             timestamp]) ;;
                if Js.truthy (audioData result)
                then playAudio (audioData result) else ret tt)
             (fun e => consoleError e) (setIsTranslating false) script). }
  assert (Hlog : scribeBlocks (ui (withUi (withIsTranslating true) w))
                 = scribeBlocks (ui w)
                 /\ messages (ui (withUi (withIsTranslating true) w))
                    = messages (ui w)
                 /\ error (ui (withUi (withIsTranslating true) w))
                    = error (ui w)).
  { destruct w as [u ? ? ? ? ? ? ? ? ?]. now destruct u. }
  pose proof (always_run _ _ _ _ script
                (preserves_translate anyReq _ (log_stable _ _ _)
                   (fun _ => I) (fun _ _ => I) text from to _ Hlog)) as [Hkeep _].
  fold translation in Hkeep. cbn beta in Hkeep.
  destruct Hkeep as (HB & HM & HE).
  split.
  - intros result Hret. rewrite Hr, Hret. unfold seqRun. cbn [final].
    set (msg := mkMessage speaker text (Some (translatedText result))
                          (now (final translation))).
    set (P := fun w' : World => scribeBlocks (ui w') = scribeBlocks (ui w)
                /\ messages (ui w') = messages (ui w) ++ [msg]
                /\ error (ui w') = error (ui w)).
    assert (HP : stable P) by apply log_stable.
    set (wA := withUi (withMessages (fun prev => prev ++ [msg]))
                      (final translation)).
    assert (HwA : P wA).
    { unfold P, wA. destruct (final translation) as [u ? ? ? ? ? ? ? ? ?].
      destruct u. cbn in *. subst. auto. }
    assert (Htail : preserves anyReq P
              (tryFinally
                 (tryCatch
                    (if Js.truthy (audioData result)
                     then playAudio (audioData result) else ret tt)
                    (fun e => consoleError e))
                 (setIsTranslating false))).
    { apply preserves_tryFinally; [apply preserves_tryCatch|].
      - destruct (Js.truthy _);
          [apply preserves_playAudio; [exact HP | intros; exact I]
          | apply preserves_ret].
      - intros e. apply log_keeps_console.
      - apply log_keeps_isTranslating. }
    pose proof (always_run _ _ _ _ (unused translation) (Htail wA HwA)) as [HQ _].
    cbn beta in HQ. destruct HQ as (_ & HQm & HQe). split; assumption.
  - intros e Hrej. rewrite Hr, Hrej. unfold seqRun. cbn.
    destruct (final translation) as [u ? ? ? ? ? ? ? ? ?]. destruct u.
    cbn in *. subst. repeat split; reflexivity.
Qed.


Section Base64Facts.
Import Base64.

Lemma list_ind3 {A} (P : list A -> Prop) :
  P [] -> (forall a, P [a]) -> (forall a b, P [a; b]) ->
  (forall a b c r, P r -> P (a :: b :: c :: r)) ->
  forall l, P l.
Proof.
  intros H0 H1 H2 H3.
  fix IH 1. intros [|a [|b [|c r]]]; [exact H0 | exact (H1 a) | exact (H2 a b) | exact (H3 a b c r (IH r))].
Qed.

Lemma sextet_roundtrip (n : N) :
  (n < 64)%N -> charSextet (sextetChar n) = Some n.
Proof.
  intros H.
  assert (Hall : forallb (fun k => match charSextet (sextetChar (N.of_nat k)) with
                                   | Some m => N.eqb m (N.of_nat k) | None => false end)
                   (seq 0 64) = true) by (vm_compute; reflexivity).
  rewrite forallb_forall in Hall.
  specialize (Hall (N.to_nat n)).
  rewrite N2Nat.id in Hall.
  assert (Hin : In (N.to_nat n) (seq 0 64)) by (apply in_seq; lia).
  specialize (Hall Hin).
  destruct (charSextet (sextetChar n)); [|discriminate].
  apply N.eqb_eq in Hall. congruence.
Qed.

Lemma split3_bounds (b0 b1 b2 : N) :
  (b0 < 256 -> b1 < 256 -> b2 < 256 ->
   let '(s0, s1, s2, s3) := split3 b0 b1 b2 in
   s0 < 64 /\ s1 < 64 /\ s2 < 64 /\ s3 < 64)%N.
Proof.
  intros H0 H1 H2. unfold split3.
  repeat split.
  - apply N.Div0.div_lt_upper_bound; lia.
  - pose proof (N.mod_upper_bound b0 4 ltac:(lia)).
    assert (b1 / 16 < 16)%N by (apply N.Div0.div_lt_upper_bound; lia). lia.
  - pose proof (N.mod_upper_bound b1 16 ltac:(lia)).
    assert (b2 / 64 < 4)%N by (apply N.Div0.div_lt_upper_bound; lia). lia.
  - apply N.mod_upper_bound; lia.
Qed.

Lemma octets_split3 (b0 b1 b2 : N) :
  (b0 < 256 -> b1 < 256 -> b2 < 256 ->
   let '(s0, s1, s2, s3) := split3 b0 b1 b2 in
   octet0 s0 s1 = b0 /\ octet1 s1 s2 = b1 /\ octet2 s2 s3 = b2)%N.
Proof.
  intros H0 H1 H2. unfold split3, octet0, octet1, octet2.
  repeat split; zify; Z.to_euclidean_division_equations; lia.
Qed.

Lemma sextetChar_not_pad (n : N) :
  (n < 64)%N -> Ascii.eqb (sextetChar n) padChar = false.
Proof.
  intros H.
  assert (Hall : forallb (fun k => negb (Ascii.eqb (sextetChar (N.of_nat k)) padChar))
                   (seq 0 64) = true) by (vm_compute; reflexivity).
  rewrite forallb_forall in Hall.
  specialize (Hall (N.to_nat n)). rewrite N2Nat.id in Hall.
  apply negb_true_iff, Hall, in_seq. lia.
Qed.

Lemma sextetChar_not_space (n : N) :
  (n < 64)%N -> isAsciiWhitespace (sextetChar n) = false.
Proof.
  intros H.
  assert (Hall : forallb (fun k => negb (isAsciiWhitespace (sextetChar (N.of_nat k))))
                   (seq 0 64) = true) by (vm_compute; reflexivity).
  rewrite forallb_forall in Hall.
  specialize (Hall (N.to_nat n)). rewrite N2Nat.id in Hall.
  apply negb_true_iff, Hall, in_seq. lia.
Qed.

Lemma dropPadding_cons (c : ascii) (l : list ascii) :
  Ascii.eqb c padChar = false -> dropPadding (c :: l) = c :: dropPadding l.
Proof.
  intros Hc.
  assert (Hl : l = rev (rev l)) by (symmetry; apply rev_involutive).
  unfold dropPadding. change (rev (c :: l)) with (rev l ++ [c]).
  destruct (rev l) as [|x [|y r]]; cbn [rev app] in Hl |- *; subst l.
  - rewrite Hc. reflexivity.
  - destruct (Ascii.eqb x padChar); [rewrite Hc|]; reflexivity.
  - destruct (Ascii.eqb x padChar); [destruct (Ascii.eqb y padChar)|];
      cbn [rev app]; rewrite ?rev_app_distr; reflexivity.
Qed.

(** What the decoder sees of an encoded list of octets. *)
Lemma decoder_on_btoaUnits (l : list N) :
  Forall (fun b => (b < 256)%N) l ->
  List.filter (fun c => negb (isAsciiWhitespace c)) (btoaUnits l) = btoaUnits l
  /\ (length (btoaUnits l) mod 4 = 0)%nat
  /\ (length (dropPadding (btoaUnits l)) mod 4 <> 1)%nat
  /\ exists ss, sextetsOf (dropPadding (btoaUnits l)) = Some ss /\ octetsOf ss = l.
Proof.
  induction l as [|b0|b0 b1|b0 b1 b2 r IH] using list_ind3; intros Hb.
  - repeat split; try (cbn; lia). exists []. split; reflexivity.
  - inversion Hb as [|? ? H0 _]; subst.
    pose proof (split3_bounds b0 0 0 H0 ltac:(lia) ltac:(lia)) as Hs.
    pose proof (octets_split3 b0 0 0 H0 ltac:(lia) ltac:(lia)) as Ho.
    cbn [btoaUnits]. destruct (split3 b0 0 0) as [[[s0 s1] s2] s3].
    destruct Hs as (Hs0 & Hs1 & _), Ho as (Ho0 & _).
    repeat split.
    + cbn [List.filter]. rewrite !sextetChar_not_space by assumption. reflexivity.
    + rewrite !dropPadding_cons by (apply sextetChar_not_pad; assumption).
      cbn. lia.
    + rewrite !dropPadding_cons by (apply sextetChar_not_pad; assumption).
      exists [s0; s1]. change (dropPadding [padChar; padChar]) with (@nil ascii).
      cbn [sextetsOf]. rewrite !sextet_roundtrip by assumption.
      split; [reflexivity|]. cbn [octetsOf]. congruence.
  - inversion Hb as [|? ? H0 Hb']; subst. inversion Hb' as [|? ? H1 _]; subst.
    pose proof (split3_bounds b0 b1 0 H0 H1 ltac:(lia)) as Hs.
    pose proof (octets_split3 b0 b1 0 H0 H1 ltac:(lia)) as Ho.
    cbn [btoaUnits]. destruct (split3 b0 b1 0) as [[[s0 s1] s2] s3].
    destruct Hs as (Hs0 & Hs1 & Hs2 & _), Ho as (Ho0 & Ho1 & _).
    repeat split.
    + cbn [List.filter]. rewrite !sextetChar_not_space by assumption. reflexivity.
    + rewrite !dropPadding_cons by (apply sextetChar_not_pad; assumption).
      cbn. lia.
    + rewrite !dropPadding_cons by (apply sextetChar_not_pad; assumption).
      exists [s0; s1; s2]. change (dropPadding [padChar]) with (@nil ascii).
      cbn [sextetsOf]. rewrite !sextet_roundtrip by assumption.
      split; [reflexivity|]. cbn [octetsOf]. congruence.
  - inversion Hb as [|? ? H0 Hb']; subst. inversion Hb' as [|? ? H1 Hb'']; subst.
    inversion Hb'' as [|? ? H2 Hr]; subst.
    destruct (IH Hr) as (Hf & Hlen & Hlen' & ss & Hss & Hoct).
    pose proof (split3_bounds b0 b1 b2 H0 H1 H2) as Hs.
    pose proof (octets_split3 b0 b1 b2 H0 H1 H2) as Ho.
    cbn [btoaUnits]. destruct (split3 b0 b1 b2) as [[[s0 s1] s2] s3].
    destruct Hs as (Hs0 & Hs1 & Hs2 & Hs3), Ho as (Ho0 & Ho1 & Ho2).
    rewrite !dropPadding_cons by (apply sextetChar_not_pad; assumption).
    repeat split.
    + cbn [List.filter]. rewrite !sextetChar_not_space by assumption.
      cbn [negb]. rewrite Hf. reflexivity.
    + cbn [length].
      replace (S (S (S (S (length (btoaUnits r))))))
        with (length (btoaUnits r) + 1 * 4)%nat by lia.
      rewrite Nat.Div0.mod_add. exact Hlen.
    + cbn [length].
      replace (S (S (S (S (length (dropPadding (btoaUnits r)))))))
        with (length (dropPadding (btoaUnits r)) + 1 * 4)%nat by lia.
      rewrite Nat.Div0.mod_add. exact Hlen'.
    + exists (s0 :: s1 :: s2 :: s3 :: ss).
      cbn [sextetsOf]. rewrite !sextet_roundtrip by assumption. rewrite Hss.
      split; [reflexivity|]. cbn [octetsOf]. congruence.
Qed.

Lemma binary_of_bytes (bytes : list byte) (acc : string) :
  fold_left (fun binary b => binary +:+ String (ascii_of_byte b) "") bytes acc
  = acc +:+ string_of_list_ascii (map ascii_of_byte bytes).
Proof.
  revert acc.
  induction bytes as [|b r IH]; intros acc; cbn [fold_left map string_of_list_ascii].
  - now rewrite append_empty_r.
  - rewrite IH, append_assoc. reflexivity.
Qed.

Lemma atob_btoa (binary : string) : atob (btoa binary) = Some binary.
Proof.
  unfold atob, btoa. rewrite list_ascii_of_string_of_list_ascii.
  set (l := map N_of_ascii (list_ascii_of_string binary)).
  assert (Hb : Forall (fun b => (b < 256)%N) l).
  { apply List.Forall_forall. intros x Hx. apply in_map_iff in Hx as (a & <- & _).
    apply N_ascii_bounded. }
  destruct (decoder_on_btoaUnits l Hb) as (Hf & Hlen & Hlen' & ss & Hss & Hoct).
  rewrite Hf, Hlen. cbn [Nat.eqb].
  destruct (Nat.eqb_spec (length (dropPadding (btoaUnits l)) mod 4) 1) as [E|_];
    [contradiction|].
  rewrite Hss, Hoct. f_equal. unfold l. rewrite map_map.
  rewrite (map_ext _ (fun a => a)) by apply ascii_N_embedding.
  rewrite map_id. apply string_of_list_ascii_of_string.
Qed.
End Base64Facts.

(** C10. For every byte array [b], [decode (encode b)] returns [b]: the
    base64 [encode] helper and the [decode] helper are inverse to each
    other on audio payloads. *)
Theorem C10_decode_encode (b : list byte) :
  Base64.decode (Base64.encode b) = Some b.
Proof.
  unfold Base64.decode, Base64.encode.
  rewrite atob_btoa, binary_of_bytes.
  change ("" +:+ ?s) with s.
  rewrite list_ascii_of_string_of_list_ascii, map_map.
  rewrite (map_ext _ (fun x => x)) by apply byte_of_ascii_of_byte.
  now rewrite map_id.
Qed.

(* ===================================================================== *)
(** ** Switching roles *)
(* ===================================================================== *)

Lemma toggleMic_other (c : ReactState) (X Y : Role) (w : World) :
  isLive c = Some Y -> Y <> X ->
  toggleMic c X w =
    bindS (bindS (finalizeCapture w)
                 (fun finalized =>
                    let '(role, finalCaptured) := finalized in
                    routeFinalText c role finalCaptured))
          (fun _ => startCapture c X).
Proof.
  intros HY Hne. unfold toggleMic. rewrite HY.
  rewrite bool_decide_eq_false_2 by congruence. reflexivity.
Qed.

(** What follows the finalization when the roles are switched: the route
    of the final text, then the start of the new capture. *)
Lemma switch_tail (c : ReactState) (X : Role) (role : option Role)
    (text : string) (j0 : list Event) (w1 : World) :
  idle w1 -> calmSince j0 (journal w1) -> Js.trim text = text ->
  always (fun q w' =>
            q = ReqGetUserMedia ->
            idle w' /\ messages (ui w') = messages (ui w1)
            /\ (scribeRoute c role -> Js.truthy text = true -> logged text w'))
         (fun _ => True)
         (fun o w' =>
            calmSince j0 (journal w')
            /\ (o = Returned tt -> isLive (ui w') = Some X ->
                capturedTextRef w' = ""%string
                /\ currentInput (ui w') = ""%string
                /\ exists s a ch, holding X s a ch w'))
         (bindS (routeFinalText c role text w1) (fun _ => startCapture c X)).
Proof.
  intros Hidle Hcalm Htrim.
  eapply always_bindS.
  - eapply always_mono; [| | |apply (route_always c role text j0 w1 Hidle Hcalm Htrim)].
    + intros q w' Hq E. subst q. now destruct Hq.
    + auto.
    + intros o w' H. exact H.
  - intros [] w2 (Hidle2 & Hcalm2 & Hmsg2 & Hlog2).
    eapply always_mono; [| | |apply (start_always c X j0 w2 (proj1 Hidle2) Hcalm2)].
    + intros q w' Hq E. destruct (Hq E) as (Hi & HB & HM).
      split; [exact Hi|]. split; [congruence|].
      intros Hr Ht. destruct (Hlog2 Hr Ht) as (b & Hb & Ho).
      exists b. split; [now rewrite HB | exact Ho].
    + intros q [].
    + intros o w' (Hc & _ & _ & Hh). split; [exact Hc | exact Hh].
  - intros e w' (_ & Hc & _). split; [exact Hc | discriminate].
  - intros q w' (_ & Hc & _). split; [exact Hc | discriminate].
Qed.

(** The switch of roles on every script. *)
Lemma switch_always (c : ReactState) (X Y : Role) (s : StreamId)
    (a : ContextId) (ch : ChannelId) (w : World) :
  isLive c = Some Y -> Y <> X -> holding Y s a ch w ->
  always (fun q w' => q = ReqGetUserMedia -> idle w') (fun _ => True)
         (fun o w' =>
            calmSince (journal w) (journal w')
            /\ (o = Returned tt -> isLive (ui w') = Some X ->
                capturedTextRef w' = ""%string
                /\ currentInput (ui w') = ""%string
                /\ exists s' a' ch', holding X s' a' ch' w'))
         (toggleMic c X w).
Proof.
  intros HY Hne Hhold.
  rewrite (toggleMic_other c X Y w HY Hne).
  apply always_bindS_assoc.
  eapply always_bindS.
  - eapply always_mono; [| | |exact (finalize_always Y s a ch w Hhold)].
    + intros q w' [Hq _] E. subst q. now destruct Hq.
    + intros q [].
    + intros o w' H. exact H.
  - intros [role text] w1 (Hc & HB & HM & Hrole & Htrim & Hidle).
    cbn [fst snd] in Hrole, Htrim.
    eapply always_mono;
      [| | |apply (switch_tail c X role text (journal w) w1 Hidle Hc Htrim)].
    + intros q w' Hq E. apply (Hq E).
    + auto.
    + intros o w' H. exact H.
  - intros e w' (Hc & _). split; [exact Hc | discriminate].
  - intros q w' (Hc & _). split; [exact Hc | discriminate].
Qed.

(** The start of a capture when none is active. *)
Lemma fresh_always (c : ReactState) (X : Role) (w : World) :
  isLive c = None -> released w ->
  always (fun q w' => q = ReqGetUserMedia -> idle w') (fun _ => True)
         (fun o w' =>
            calmSince (journal w) (journal w')
            /\ (o = Returned tt -> isLive (ui w') = Some X ->
                capturedTextRef w' = ""%string
                /\ currentInput (ui w') = ""%string
                /\ exists s' a' ch', holding X s' a' ch' w'))
         (toggleMic c X w).
Proof.
  intros Hl Hrel.
  assert (E : toggleMic c X w = startCapture c X w).
  { unfold toggleMic. rewrite Hl. reflexivity. }
  rewrite E.
  assert (Hcalm : calmSince (journal w) (journal w)).
  { apply calm_refl. destruct Hrel as (_ & _ & _ & _ & _ & _ & HL).
    rewrite HL. cbn. lia. }
  eapply always_mono; [| | |apply (start_always c X (journal w) w Hrel Hcalm)].
  - intros q w' Hq Eq. apply (Hq Eq).
  - intros q [].
  - intros o w' (Hc & _ & _ & Hh). split; [exact Hc | exact Hh].
Qed.

(** When [toggleMic role] starts a capture: none is active, or another
    role holds one. *)
Lemma toggle_always (c : ReactState) (X : Role) (w : World) :
  startable c X w ->
  always (fun q w' => q = ReqGetUserMedia -> idle w') (fun _ => True)
         (fun o w' =>
            calmSince (journal w) (journal w')
            /\ (o = Returned tt -> isLive (ui w') = Some X ->
                capturedTextRef w' = ""%string
                /\ currentInput (ui w') = ""%string
                /\ exists s' a' ch', holding X s' a' ch' w'))
         (toggleMic c X w).
Proof.
  intros [[Hl Hrel]|(Y & s & a & ch & HY & Hne & Hhold)].
  - now apply fresh_always.
  - now apply (switch_always c X Y s a ch).
Qed.

Lemma nothing_detached (l : list Suspended) :
  Forall (fun _ => False) l -> l = [].
Proof. destruct l as [|p l]; [reflexivity|]. intros H. inversion H as [|? ? F _]. destruct F. Qed.

(** The translation that the dialogue route starts waits on its first
    request to the service. *)
Lemma translation_spawned (c : ReactState) (speaker : Speaker) (text : string)
    (w : World) :
  Js.truthy (Js.trim text) = true ->
  exists k,
    spawn (handleTranslationPhase c speaker text) w
    = Detach (ReqTranslate text
                (match speaker with Doctor => docLang c | Patient => patLang c end)
                (match speaker with Doctor => patLang c | Patient => docLang c end))
             k (Done tt (withUi (withIsTranslating true) w)).
Proof.
  intros Ht. unfold spawn, handleTranslationPhase, bind, setIsTranslating, modify.
  cbn [bindS]. unfold tryFinally, tryCatch, bind, translateAndSpeak.
  rewrite Ht. cbn [negb]. unfold defaultRetries. cbn [withRetry].
  unfold tryCatch, bind, await. cbn [bindS catchS finallyS detachS].
  eexists. reflexivity.
Qed.

(** The translation that the dialogue route starts and leaves running:
    once the translation and the speech have been answered, at whatever
    moment, the message is appended to the log of that moment, and the
    playback does not change the log. *)
Lemma translation_click (c : ReactState) (speaker : Speaker) (text : string)
    (w : World) :
  Js.truthy (Js.trim text) = true ->
  let from := match speaker with Doctor => docLang c | Patient => patLang c end in
  let to := match speaker with Doctor => patLang c | Patient => docLang c end in
  exists k,
    spawn (handleTranslationPhase c speaker text) w
    = Detach (ReqTranslate text from to) k
        (Done tt (withUi (withIsTranslating true) w))
    /\ forall t d w1 fs2 rest,
         messages
           (ui (final (run (k (RespText (Some t)) w1)
                           ((fs2, RespAudio d) :: rest))))
         = messages (ui w1)
             ++ [mkMessage speaker text
                   (Some (if Js.truthy (Js.trim t) then Js.trim t
                          else "..."%string))
                   (now w1)].
Proof.
  intros Ht from to. subst from to.
  unfold spawn, handleTranslationPhase, bind, setIsTranslating, modify.
  cbn [bindS]. unfold tryFinally, tryCatch, bind, translateAndSpeak.
  rewrite Ht. cbn [negb]. unfold defaultRetries. cbn [withRetry].
  unfold tryCatch, bind, await. cbn [bindS catchS finallyS detachS].
  eexists. split; [reflexivity|].
  intros t d w1 fs2 rest. cbn beta.
  set (tr := if Js.truthy (Js.trim t) then Js.trim t else "..."%string).
  cbn [run final].
  set (W := meanwhile (ReqSpeech tr) fs2 w1).
  assert (HW : scribeBlocks (ui W) = scribeBlocks (ui w1)
               /\ messages (ui W) = messages (ui w1)
               /\ error (ui W) = error (ui w1)).
  { apply (log_stable _ _ _ (ReqSpeech tr) fs2 w1). auto. }
  assert (HnW : now W = now w1).
  { unfold W. rewrite meanwhile_spec by reflexivity. reflexivity. }
  set (msg := mkMessage speaker text (Some tr) (now W)).
  set (P := fun w' : World => scribeBlocks (ui w') = scribeBlocks (ui w1)
              /\ messages (ui w') = messages (ui w1) ++ [msg]
              /\ error (ui w') = error (ui w1)).
  assert (HP : stable P) by apply log_stable.
  assert (Htail : forall audio,
            preserves anyReq P
              (tryFinally
                 (tryCatch
                    (if Js.truthy audio then playAudio audio else ret tt)
                    (fun e => consoleError e))
                 (setIsTranslating false))).
  { intros audio. apply preserves_tryFinally; [apply preserves_tryCatch|].
    - destruct (Js.truthy audio);
        [apply preserves_playAudio; [exact HP | intros; exact I]
        | apply preserves_ret].
    - intros e. apply log_keeps_console.
    - apply log_keeps_isTranslating. }
  assert (HwA : P (withUi (withMessages (fun prev => prev ++ [msg])) W)).
  { unfold P. destruct W as [u ? ? ? ? ? ? ? ? ?]. destruct u.
    cbn in HW |- *. destruct HW as (-> & -> & ->). auto. }
  destruct d as [data|].
  - destruct (always_run _ _ _ _ rest (Htail data _ HwA)) as [(_ & HQ & _) _].
    rewrite <- HnW. exact HQ.
  - destruct (always_run _ _ _ _ rest (Htail ""%string _ HwA))
      as [(_ & HQ & _) _].
    rewrite <- HnW. exact HQ.
Qed.

(** The run of a switch of roles, once the capture of [Y] is finalized. *)
Lemma switch_run (c : ReactState) (X Y : Role) (s : StreamId) (a : ContextId)
    (ch : ChannelId) (w : World) (script : list Input) (role : option Role)
    (finalText : string) :
  isLive c = Some Y -> Y <> X -> holding Y s a ch w ->
  let stop := run (finalizeCapture w) script in
  outcome stop = Returned (role, finalText) ->
  role = Some Y /\ Js.trim finalText = finalText /\ idle (final stop)
  /\ calmSince (journal w) (journal (final stop))
  /\ messages (ui (final stop)) = messages (ui w)
  /\ detached stop = []
  /\ Forall (fun qw => notMicrophone (fst qw)) (asked stop)
  /\ run (toggleMic c X w) script
     = seqRun stop
         (run (bindS (routeFinalText c (Some Y) finalText (final stop))
                     (fun _ => startCapture c X))
              (unused stop)).
Proof.
  intros HY Hne Hhold stop Hret.
  destruct (always_run _ _ _ _ script (finalize_always Y s a ch w Hhold))
    as ((Hc & HB & HM & Hpost) & Hq & Hd).
  fold stop in Hc, HB, HM, Hpost, Hq, Hd.
  rewrite Hret in Hpost. destruct Hpost as (Hrole & Htrim & Hidle).
  cbn [fst snd] in Hrole, Htrim. subst role.
  split; [reflexivity|]. split; [exact Htrim|]. split; [exact Hidle|].
  split; [exact Hc|]. split; [exact HM|].
  split; [now apply nothing_detached|]. split.
  - eapply List.Forall_impl; [|exact Hq]. intros [q w'] [Hn _]. exact Hn.
  - rewrite (toggleMic_other c X Y w HY Hne), run_bindS_assoc.
    rewrite run_bindS. fold stop. rewrite Hret. reflexivity.
Qed.

(** C1 (as the code has it). When start-capture is called for role [X]
    while another role [Y] is capturing, the capture of [Y] is stopped
    first: whenever the microphone is requested for [X], the stream and the
    channel of [Y] are released and nothing is held; no more than one
    channel is ever live; and when the call returns with [X] live, [X] holds
    its own stream, context and channel.  As for the log: on the scribe
    route (unilingual mode, or role Scribe) a non-empty final text of [Y] is
    in the log when the microphone is requested for [X]; on the dialogue
    route (bilingual mode, Doctor or Patient) the list of messages is still
    what it was, and the translation of the final text has been started and
    left running: it waits for the answer of the translation service.  The
    message of [Y] is appended when that call has been answered, to the log
    of that moment, whether the capture of [X] has begun by then or not. *)
Theorem C1_switch_roles (c : ReactState) (X Y : Role) (s : StreamId)
    (a : ContextId) (ch : ChannelId) (w : World) (script : list Input) :
  isLive c = Some Y -> Y <> X -> holding Y s a ch w ->
  let r := run (toggleMic c X w) script in
  calmSince (journal w) (journal (final r))
  /\ Forall (fun qw => fst qw = ReqGetUserMedia -> idle (snd qw)) (asked r)
  /\ (outcome r = Returned tt -> isLive (ui (final r)) = Some X ->
      exists s' a' ch', holding X s' a' ch' (final r))
  /\ (forall role finalText,
        outcome (run (finalizeCapture w) script) = Returned (role, finalText) ->
        Forall (fun qw =>
                  fst qw = ReqGetUserMedia ->
                  messages (ui (snd qw)) = messages (ui w)
                  /\ (scribeRoute c (Some Y) -> Js.truthy finalText = true ->
                      logged finalText (snd qw)))
               (asked r))
  /\ (forall speaker role finalText,
        mode c = BILINGUAL -> Y = Party speaker ->
        outcome (run (finalizeCapture w) script) = Returned (role, finalText) ->
        Js.truthy finalText = true ->
        map waitingOn (detached r)
        = [ReqTranslate finalText
             (match speaker with Doctor => docLang c | Patient => patLang c end)
             (match speaker with Doctor => patLang c | Patient => docLang c end)])
  /\ (forall speaker role finalText,
        mode c = BILINGUAL -> Y = Party speaker ->
        outcome (run (finalizeCapture w) script) = Returned (role, finalText) ->
        Js.truthy finalText = true ->
        exists call,
          detached r = [call]
          /\ forall fs t fs2 d w' rest,
               let later :=
                 resume call (fs, RespText (Some t)) w'
                        ((fs2, RespAudio d) :: rest) in
               messages (ui (final later))
               = messages (ui w')
                   ++ [mkMessage speaker finalText
                         (Some (if Js.truthy (Js.trim t) then Js.trim t
                                else "..."%string))
                         (now w')]).
Proof.
  intros HY Hne Hhold r.
  pose proof (switch_always c X Y s a ch w HY Hne Hhold) as Hall.
  destruct (always_run _ _ _ _ script Hall) as ((Hcalm & Hheld) & Hasked & _).
  fold r in Hcalm, Hheld, Hasked.
  split; [exact Hcalm|]. split; [exact Hasked|].
  split; [intros Ho Hl; apply (Hheld Ho Hl)|]. split; [|split].
  - intros role finalText Hret.
    destruct (switch_run c X Y s a ch w script role finalText HY Hne Hhold Hret)
      as (_ & Htrim & Hidle & Hc & HM & _ & Hq & Hr).
    subst r. rewrite Hr. unfold seqRun. cbn [asked]. apply Forall_app. split.
    + eapply List.Forall_impl; [|exact Hq].
      intros [q w'] Hn E. cbn in *. subst q. now destruct Hn.
    + destruct (always_run _ _ _ _ (unused (run (finalizeCapture w) script))
                  (switch_tail c X (Some Y) finalText (journal w) _ Hidle Hc Htrim))
        as (_ & Hasked2 & _).
      eapply List.Forall_impl; [|exact Hasked2].
      intros [q w'] H E. cbn in *. destruct (H E) as (_ & Hm & Hl).
      split; [congruence | exact Hl].
  - intros speaker role finalText Hmode HYs Hret Htruthy.
    destruct (switch_run c X Y s a ch w script role finalText HY Hne Hhold Hret)
      as (_ & Htrim & Hidle & Hc & _ & Hd & _ & Hr).
    subst r. rewrite Hr. unfold seqRun. cbn [detached]. rewrite Hd. cbn [app].
    assert (Hroute : routeFinalText c (Some Y) finalText
                       (final (run (finalizeCapture w) script))
                     = spawn (handleTranslationPhase c speaker finalText)
                         (final (run (finalizeCapture w) script))).
    { unfold routeFinalText. rewrite Htruthy, Hmode, HYs. reflexivity. }
    rewrite Hroute.
    destruct (translation_spawned c speaker finalText
                (final (run (finalizeCapture w) script))) as (k & Hk).
    { now rewrite Htrim. }
    rewrite Hk. cbn [bindS run detached map waitingOn]. f_equal.
    destruct Hidle as (Hrel & _).
    assert (Hrel' : released (withUi (withIsTranslating true)
                                (final (run (finalizeCapture w) script)))).
    { destruct (final (run (finalizeCapture w) script)) as [u ? ? ? ? ? ? ? ? ?].
      destruct u. exact Hrel. }
    assert (Hc' : calmSince (journal w)
                    (journal (withUi (withIsTranslating true)
                                (final (run (finalizeCapture w) script))))).
    { destruct (final (run (finalizeCapture w) script)) as [u ? ? ? ? ? ? ? ? ?].
      exact Hc. }
    destruct (always_run _ _ _ _ (unused (run (finalizeCapture w) script))
                (start_always c X (journal w) _ Hrel' Hc')) as (_ & _ & Hd2).
    now rewrite (nothing_detached _ Hd2).
  - intros speaker role finalText Hmode HYs Hret Htruthy.
    destruct (switch_run c X Y s a ch w script role finalText HY Hne Hhold Hret)
      as (_ & Htrim & Hidle & Hc & _ & Hd & _ & Hr).
    subst r. rewrite Hr. unfold seqRun. cbn [detached]. rewrite Hd. cbn [app].
    assert (Hroute : routeFinalText c (Some Y) finalText
                       (final (run (finalizeCapture w) script))
                     = spawn (handleTranslationPhase c speaker finalText)
                         (final (run (finalizeCapture w) script))).
    { unfold routeFinalText. rewrite Htruthy, Hmode, HYs. reflexivity. }
    rewrite Hroute.
    destruct (translation_click c speaker finalText
                (final (run (finalizeCapture w) script))) as (k & Hk & Hlater).
    { now rewrite Htrim. }
    rewrite Hk. cbn [bindS run detached].
    destruct Hidle as (Hrel & _).
    assert (Hrel' : released (withUi (withIsTranslating true)
                                (final (run (finalizeCapture w) script)))).
    { destruct (final (run (finalizeCapture w) script)) as [u ? ? ? ? ? ? ? ? ?].
      destruct u. exact Hrel. }
    assert (Hc' : calmSince (journal w)
                    (journal (withUi (withIsTranslating true)
                                (final (run (finalizeCapture w) script))))).
    { destruct (final (run (finalizeCapture w) script)) as [u ? ? ? ? ? ? ? ? ?].
      exact Hc. }
    destruct (always_run _ _ _ _ (unused (run (finalizeCapture w) script))
                (start_always c X (journal w) _ Hrel' Hc')) as (_ & _ & Hd2).
    rewrite (nothing_detached _ Hd2).
    eexists. split; [reflexivity|].
    intros fs t fs2 d w' rest. cbv zeta.
    unfold resume. cbn [resumeWith waitingOn fst snd].
    rewrite Hlater. f_equal.
    + exact (messages_stable (messages (ui w')) _ fs w' eq_refl).
    + rewrite meanwhile_spec by reflexivity. reflexivity.
Qed.

(* ===================================================================== *)
(** ** Analyze *)
(* ===================================================================== *)




(** The stop of [handleAnalyze] and of the switch of roles:
    [if (isLive) await stopLiveSession()]. *)
Lemma stop_always (c : ReactState) (role : Role) (s : StreamId)
    (a : ContextId) (ch : ChannelId) (w : World) :
  holding role s a ch w ->
  always (fun q _ => notMicrophone q) (fun _ => True)
         (fun o w' => calmSince (journal w) (journal w')
                      /\ (o = Returned tt -> idle w'))
         (stopLiveSession c w).
Proof.
  intros Hhold. unfold stopLiveSession.
  eapply always_bindS.
  - eapply always_mono; [| | |apply (finalize_always role s a ch w Hhold)].
    + intros q w' [Hq _]. exact Hq.
    + intros q [].
    + intros o w' H. exact H.
  - intros [role' text] w1 (Hc & _ & _ & _ & Htrim & Hidle).
    cbn [fst snd] in Htrim.
    eapply always_mono;
      [| | |apply (route_always c role' text (journal w) w1 Hidle Hc Htrim)].
    + auto.
    + auto.
    + intros o w' (Hi & Hc' & _). split; [exact Hc' | intros _; exact Hi].
  - intros e w' (Hc & _). split; [exact Hc | discriminate].
  - intros q w' (Hc & _). split; [exact Hc | discriminate].
Qed.


(* ===================================================================== *)
(** ** Verification of a prescription *)
(* ===================================================================== *)

(** [try { a = await m; k a } catch (e) { h e }] in terms of the run of
    [m]. *)
Lemma run_catch_bind {A} (s : Step A) (k : A -> Async unit)
    (h : JsError -> Async unit) (script : list Input) :
  run (catchS (bindS s k) h) script =
    match outcome (run s script) with
    | Returned a =>
        seqRun (run s script)
          (run (tryCatch (k a) h (final (run s script))) (unused (run s script)))
    | Rejected e =>
        seqRun (run s script)
          (run (h e (final (run s script))) (unused (run s script)))
    | Blocked q => castRun (run s script) (Blocked q)
    end.
Proof.
  revert k script.
  induction s as [A a w|A e w|A r w q IH|A r q _ rest IH]; intros k script;
    cbn [bindS catchS run].
  - unfold seqRun, tryCatch. cbn.
    now destruct (run (catchS (k a w) h) script).
  - unfold seqRun. cbn. now destruct (run (h e w) script).
  - destruct script as [|[fs x] script']; [reflexivity|].
    cbn [outcome final asked detached unused]. rewrite IH.
    now destruct (outcome (run (q x (meanwhile r fs w)) script')).
  - cbn [outcome final asked detached unused]. rewrite IH.
    now destruct (outcome (run rest script)).
Qed.

Lemma preserves_verify (R : Req -> Prop) (P : World -> Prop) (med : Addr) :
  stable P -> (forall ms, R (ReqSleep ms)) ->
  (forall q, isServiceCall q = true -> R q) ->
  preserves R P (verifyMedication med).
Proof.
  intros HP Hs HR. unfold verifyMedication.
  apply preserves_withRetry; [exact HP | exact Hs |].
  apply preserves_bind; [apply preserves_gets|].
  intros [p|]; [|exact (preserves_throw R P _)].
  apply preserves_bind; [apply preserves_await; [exact HP | now apply HR]|].
  intros x. destruct x;
    first [exact (preserves_throw R P _) | exact (preserves_ret R P _)].
Qed.

Lemma heap_stable (H : gmap Addr VerifiedPrescription) :
  stable (fun w => heap w = H).
Proof.
  apply stable_by. intros w f cap t E. exact E.
Qed.

Lemma verify_starts (a : Addr) (p : VerifiedPrescription) (w : World)
    (script : list Input) :
  heap w !! a = Some p ->
  head (asked (run (verifyMedication a w) script))
  = Some (ReqAudit (medicineName (fields p)) (dosage (fields p)), w).
Proof.
  intros Hp. unfold verifyMedication, defaultRetries.
  cbn [withRetry]. unfold tryCatch, bind, gets. cbn [bindS].
  rewrite Hp. cbn [bindS catchS await run].
  destruct script as [|[fs x] script']; reflexivity.
Qed.

(** C8. [handleVerifyMedicine idx] on a draft whose prescription [idx] is
    the object at [a]: the object is first marked Pending, and the audit is
    then requested with its name and dosage, from a world in which it is
    Pending.  When the audit call returns [{isValid, errorMsg}], the object
    is marked Verified if [isValid] and Warning otherwise, with [errorMsg]
    as its message.  When the call fails, the object is marked Warning with
    the message [Audit timeout.].  In both cases the fields of the
    prescription itself are kept, and at no point is any other object of the
    heap changed. *)
Theorem C8_verify (c : ReactState) (idx : nat) (d : ConsultationDraft)
    (a : Addr) (p : VerifiedPrescription) (w : World) (script : list Input) :
  draft c = Some d -> prescriptions d !! idx = Some a ->
  heap w !! a = Some p ->
  let pending :=
    withUi (withDraft (Some (withPrescriptions (prescriptions d) d)))
           (withHeap (alter (setVerification Pending) a) w) in
  let audit := run (verifyMedication a pending) script in
  let r := run (handleVerifyMedicine c idx w) script in
  heap pending !! a = Some (mkVerified (fields p) (Some Pending) (verificationError p))
  /\ head (asked r)
     = Some (ReqAudit (medicineName (fields p)) (dosage (fields p)), pending)
  /\ (forall v m,
        outcome audit = Returned (mkAudit v m) ->
        outcome r = Returned tt
        /\ heap (final r) !! a
           = Some (mkVerified (fields p)
                     (Some (if v then Verified else Warning)) m))
  /\ (forall e,
        outcome audit = Rejected e ->
        outcome r = Returned tt
        /\ heap (final r) !! a
           = Some (mkVerified (fields p) (Some Warning)
                     (Some "Audit timeout."%string)))
  /\ (forall b, b <> a ->
        heap (final r) !! b = heap w !! b
        /\ Forall (fun qw => heap (snd qw) !! b = heap w !! b) (asked r)).
Proof.
  intros Hd Hidx Hp pending audit r.
  set (k := fun result : Audit =>
    (writeAt (prescriptions d) idx
       (setVerification (if isValid result then Verified else Warning)) ;;
     writeAt (prescriptions d) idx (setVerificationError (errorMsg result)) ;;
     setDraft (Some (withPrescriptions (prescriptions d) d)))%async).
  set (h := fun _ : JsError =>
    (writeAt (prescriptions d) idx (setVerification Warning) ;;
     writeAt (prescriptions d) idx
       (setVerificationError (Some "Audit timeout."%string)) ;;
     setDraft (Some (withPrescriptions (prescriptions d) d)))%async).
  assert (Hstep : handleVerifyMedicine c idx w
                  = catchS (bindS (verifyMedication a pending) k) h).
  { unfold handleVerifyMedicine. rewrite Hd. unfold writeAt at 1.
    rewrite Hidx. reflexivity. }
  assert (Hpend : heap pending !! a
                  = Some (mkVerified (fields p) (Some Pending) (verificationError p))).
  { unfold pending. cbn. rewrite lookup_alter_eq, Hp. reflexivity. }
  assert (Hk : forall result w',
            k result w' =
            Done tt (withUi (withDraft (Some (withPrescriptions (prescriptions d) d)))
                       (withHeap (alter (setVerificationError (errorMsg result)) a)
                          (withHeap (alter (setVerification
                                              (if isValid result then Verified
                                               else Warning)) a) w')))).
  { intros result w'. unfold k, writeAt. rewrite Hidx. reflexivity. }
  assert (Hh : forall e w',
            h e w' =
            Done tt (withUi (withDraft (Some (withPrescriptions (prescriptions d) d)))
                       (withHeap (alter (setVerificationError
                                           (Some "Audit timeout."%string)) a)
                          (withHeap (alter (setVerification Warning) a) w')))).
  { intros e w'. unfold h, writeAt. rewrite Hidx. reflexivity. }
  assert (Hr : r =
    match outcome audit with
    | Returned result =>
        seqRun audit (run (tryCatch (k result) h (final audit)) (unused audit))
    | Rejected e => seqRun audit (run (h e (final audit)) (unused audit))
    | Blocked q => castRun audit (Blocked q)
    end).
  { subst r. rewrite Hstep. apply run_catch_bind. }
  pose proof (always_run _ _ _ _ script
                (preserves_verify anyReq _ a (heap_stable (heap pending))
                   (fun _ => I) (fun _ _ => I) pending eq_refl))
    as (Hheap & Hasked & _).
  fold audit in Hheap, Hasked. cbn beta in Hheap.
  split; [exact Hpend|]. split; [|split; [|split]].
  - subst r. rewrite Hstep.
    pose proof (verify_starts a _ pending script Hpend) as Hhead.
    fold audit in Hhead. cbn [fields] in Hhead.
    rewrite run_catch_bind. fold audit.
    destruct (outcome audit); unfold seqRun, castRun; cbn [asked];
      destruct (asked audit); try discriminate; exact Hhead.
  - intros v m Hret. rewrite Hr, Hret. unfold tryCatch. rewrite Hk.
    unfold seqRun. cbn [final outcome run catchS heap withUi withHeap isValid errorMsg].
    split; [reflexivity|].
    rewrite !lookup_alter_eq, Hheap, Hpend. reflexivity.
  - intros e Hrej. rewrite Hr, Hrej, Hh.
    unfold seqRun. cbn [final outcome run heap withUi withHeap].
    split; [reflexivity|].
    rewrite !lookup_alter_eq, Hheap, Hpend. reflexivity.
  - intros b Hb.
    assert (Hpb : heap pending !! b = heap w !! b).
    { unfold pending. cbn. now rewrite lookup_alter_ne. }
    split.
    + rewrite Hr. destruct (outcome audit) as [result|e|q].
      * unfold tryCatch. rewrite Hk. unfold seqRun.
        cbn [final outcome run catchS heap withUi withHeap].
        rewrite !lookup_alter_ne by congruence. now rewrite Hheap.
      * rewrite Hh. unfold seqRun.
        cbn [final outcome run heap withUi withHeap].
        rewrite !lookup_alter_ne by congruence. now rewrite Hheap.
      * cbn [castRun final]. now rewrite Hheap.
    + assert (HA : Forall (fun qw => heap (snd qw) !! b = heap w !! b)
                          (asked audit)).
      { eapply List.Forall_impl; [|exact Hasked].
        intros [q w'] [_ E]. cbn in *. now rewrite E. }
      rewrite Hr. destruct (outcome audit) as [result|e|q].
      * unfold tryCatch. rewrite Hk. unfold seqRun. cbn [asked run catchS].
        now rewrite app_nil_r.
      * rewrite Hh. unfold seqRun. cbn [asked run]. now rewrite app_nil_r.
      * exact HA.
Qed.

(* ===================================================================== *)
(** ** The two accumulations of a capture *)
(* ===================================================================== *)

Lemma join_cons (sep x y : string) (rest : list string) :
  Js.join sep (x :: y :: rest) = x +:+ sep +:+ Js.join sep (y :: rest).
Proof. reflexivity. Qed.

Lemma truthy_append (s t : string) :
  Js.truthy s = true -> Js.truthy (s +:+ t) = true.
Proof. destruct s; [discriminate | reflexivity]. Qed.

(** Once the accumulation is not empty, every fragment is appended after a
    space. *)
Lemma accumulate_join (acc : string) (fs : list string) :
  Js.truthy acc = true -> accumulate acc fs = Js.join " " (acc :: fs).
Proof.
  revert acc. induction fs as [|f rest IH]; intros acc Hacc.
  - reflexivity.
  - unfold accumulate. cbn [fold_left]. fold (accumulate (appendFragment acc f) rest).
    unfold appendFragment. rewrite Hacc.
    rewrite IH by now apply truthy_append.
    destruct rest as [|g rest]; [reflexivity|].
    rewrite !join_cons. now rewrite !append_assoc.
Qed.

(** From the empty accumulation, empty fragments leave it empty until the
    first non-empty one. *)
Lemma accumulate_empty (fs : list string) :
  accumulate "" fs = Js.join " " (dropEmpty fs).
Proof.
  induction fs as [|f rest IH]; [reflexivity|].
  unfold accumulate. cbn [fold_left]. fold (accumulate (appendFragment "" f) rest).
  change (appendFragment "" f) with f. cbn [dropEmpty].
  destruct (Js.truthy f) eqn:Hf.
  - now apply accumulate_join.
  - destruct f; [exact IH | discriminate].
Qed.

(** C9 (as the code has it). When [toggleMic role] has started a capture,
    both the capture buffer [capturedTextRef] and the live display text
    [currentInput] are empty.  The fragments that then come in are appended
    to both in arrival order: an accumulation that is still empty takes the
    fragment as it is, one that is not takes a space and the fragment.
    After the fragments [f1..fn] both accumulations are therefore the
    space-joined fragments from the first non-empty one on, which is
    [f1 ++ " " ++ ... ++ " " ++ fn] when [f1] is not empty; and this is what
    the environment makes of them while a handler waits. *)
Theorem C9_capture_buffers (c : ReactState) (role : Role) (w : World)
    (script : list Input) (fs : list string) :
  startable c role w ->
  let r := run (toggleMic c role w) script in
  outcome r = Returned tt -> isLive (ui (final r)) = Some role ->
  let w' := fold_left (fun w text => onInputTranscript text w) fs (final r) in
  (capturedTextRef (final r) = ""%string
   /\ currentInput (ui (final r)) = ""%string)
  /\ (capturedTextRef w' = Js.join " " (dropEmpty fs)
      /\ currentInput (ui w') = Js.join " " (dropEmpty fs))
  /\ (match fs with f1 :: _ => Js.truthy f1 = true | [] => True end ->
      capturedTextRef w' = Js.join " " fs
      /\ currentInput (ui w') = Js.join " " fs)
  /\ (forall q, isAwait q = true ->
        capturedTextRef (meanwhile q fs (final r)) = capturedTextRef w'
        /\ currentInput (ui (meanwhile q fs (final r))) = currentInput (ui w')).
Proof.
  intros Hstart r Hret Hlive w'.
  destruct (always_run _ _ _ _ script (toggle_always c role w Hstart))
    as ((_ & Hheld) & _ & _).
  fold r in Hheld. destruct (Hheld Hret Hlive) as (Hcap & Hcur & s & a & ch & Hhold).
  assert (Hw' : capturedTextRef w' = Js.join " " (dropEmpty fs)
                /\ currentInput (ui w') = Js.join " " (dropEmpty fs)).
  { unfold w'. rewrite fragments_spec. cbn [capturedTextRef ui].
    rewrite Hcap, accumulate_empty. split; [reflexivity|].
    destruct (ui (final r)) as [ustep umode udoc upat udet ublocks umsgs ucur
                                udraft ustatus uerr ulive utr ufin].
    cbn in Hcur |- *. now rewrite Hcur, accumulate_empty. }
  split; [split; assumption|]. split; [exact Hw'|]. split.
  - intros Hf. destruct fs as [|f1 rest]; [exact Hw'|].
    cbn [dropEmpty] in Hw'. now rewrite Hf in Hw'.
  - intros q Hq.
    destruct Hhold as (_ & _ & _ & _ & _ & _ & HL).
    rewrite (meanwhile_live q fs (final r) ch [] Hq HL).
    unfold w'. rewrite fragments_spec.
    destruct (final r) as [u ? ? ? ? ? ? ? ? ?].
    destruct u. destruct q; split; reflexivity.
Qed.

(* ===================================================================== *)
(** ** The statements on the sample consultation *)
(* ===================================================================== *)

#[local] Transparent contextClosed liveChannels liveStreams.

(** C1, read literally, fails in the interpreted consultation: the
    doctor is capturing and has said [hello]; the patient taps the
    microphone.  When the call returns the patient is capturing, with a
    stream, a context and a channel of their own, and the log holds no
    entry for the doctor's utterance: the translation that would append it
    has been started and is still waiting for the service.  The entry is
    appended when that call is resumed with the translation. *)
Lemma C1_counterexample :
  capturing (Party Doctor) 0 1 2 Sample.doctorHeard
  /\ capturedTextRef Sample.doctorHeard = "hello"%string
  /\ outcome Sample.switchRun = Returned tt
  /\ holding (Party Patient) 3 4 5 (final Sample.switchRun)
  /\ scribeBlocks (ui (final Sample.switchRun)) = []
  /\ messages (ui (final Sample.switchRun)) = []
  /\ map waitingOn (detached Sample.switchRun)
     = [ReqTranslate "hello" "English" "Hindi"]
  /\ match detached Sample.switchRun with
     | [translation] =>
         messages
           (ui (final (resume translation ([], RespText (Some "namaste"%string))
                         (final Sample.switchRun) [([], RespAudio None)])))
         = [mkMessage Doctor "hello" (Some "namaste"%string) 400]
     | _ => False
     end.
Proof. vm_compute. repeat split. Qed.

(** C1 on the interpreted consultation: the patient taps the microphone
    while the doctor is capturing.  The translation of the doctor's
    utterance is left running, and appends the message to the log of the
    moment at which it is answered. *)
Lemma C1_witness :
  isLive (ui Sample.doctorHeard) = Some (Party Doctor)
  /\ holding (Party Doctor) 0 1 2 Sample.doctorHeard
  /\ calmSince (journal Sample.doctorHeard) (journal (final Sample.switchRun))
  /\ Forall (fun qw => fst qw = ReqGetUserMedia -> idle (snd qw))
            (asked Sample.switchRun)
  /\ (exists s a ch, holding (Party Patient) s a ch (final Sample.switchRun))
  /\ exists call,
       detached Sample.switchRun = [call]
       /\ forall w',
            messages
              (ui (final (resume call ([], RespText (Some "namaste"%string))
                            w' [([], RespAudio None)])))
            = messages (ui w')
                ++ [mkMessage Doctor "hello" (Some "namaste"%string) (now w')].
Proof.
  assert (Hl : isLive (ui Sample.doctorHeard) = Some (Party Doctor))
    by (vm_compute; reflexivity).
  assert (Hh : holding (Party Doctor) 0 1 2 Sample.doctorHeard)
    by (vm_compute; repeat split).
  assert (Hne : Party Doctor <> Party Patient) by discriminate.
  pose proof (C1_switch_roles (ui Sample.doctorHeard) (Party Patient)
                (Party Doctor) 0 1 2 Sample.doctorHeard
                (Sample.stopped [] false ++ Sample.granted) Hl Hne Hh) as H.
  cbv zeta in H. destruct H as (H1 & H2 & H3 & _ & _ & H6).
  split; [exact Hl|]. split; [exact Hh|]. split; [exact H1|].
  split; [exact H2|]. split; [apply H3; vm_compute; reflexivity|].
  destruct (H6 Doctor (Some (Party Doctor)) "hello"%string)
    as (call & Hd & Hres);
    [vm_compute; reflexivity | reflexivity | vm_compute; reflexivity
    | vm_compute; reflexivity |].
  exists call. split; [exact Hd|].
  intros w'. exact (Hres [] "namaste"%string [] None w' []).
Defined.


(** C3 on the scribe consultation: the capture is stopped while a last
    fragment comes in, and the refinement returns. *)
Lemma C3_witness :
  mode (ui Sample.scribeHeard) = UNILINGUAL
  /\ capturing Scribe 0 1 2 Sample.scribeHeard
  /\ scribeBlocks
       (ui (final (run (stopLiveSession (ui Sample.scribeHeard) Sample.scribeHeard)
                       (Sample.stopped ["and cough "%string] true
                          ++ [([], RespText (Some " Patient reports fever and cough. "%string))]))))
     = [mkScribeBlock "patient has fever and cough"
                      (Some "Patient reports fever and cough."%string)].
Proof.
  assert (Hm : mode (ui Sample.scribeHeard) = UNILINGUAL)
    by (vm_compute; reflexivity).
  assert (Hc : capturing Scribe 0 1 2 Sample.scribeHeard)
    by (vm_compute; repeat split).
  assert (Ht : Js.truthy (Js.trim (accumulate (capturedTextRef Sample.scribeHeard)
                                     ["and cough "%string])) = true)
    by (vm_compute; reflexivity).
  pose proof (C3_scribe_entry (ui Sample.scribeHeard) Scribe 0 1 2
                Sample.scribeHeard ["and cough "%string] [] [] RespUnit RespUnit
                true
                [([], RespText (Some " Patient reports fever and cough. "%string))]
                Hm Hc Ht) as H.
  cbv zeta in H. destruct H as (_ & _ & Hok & _).
  edestruct Hok as (_ & H2 & _); [vm_compute; reflexivity|].
  split; [exact Hm|]. split; [exact Hc|].
  etransitivity; [exact H2 | vm_compute; reflexivity].
Defined.

(** C4 on the interpreted consultation: the translation returns, and it
    fails. *)
Lemma C4_witness :
  mode Sample.interpreter0 = BILINGUAL
  /\ messages
       (ui (final (run (handleTranslationPhase Sample.interpreter0 Doctor "hello"
                          (Sample.worldOf Sample.interpreter0))
                       [([], RespText (Some "namaste"%string));
                        ([], RespAudio None)])))
     = [mkMessage Doctor "hello" (Some "namaste"%string) 0]
  /\ messages
       (ui (final (run (handleTranslationPhase Sample.interpreter0 Doctor "hello"
                          (Sample.worldOf Sample.interpreter0))
                       [([], RespFail Sample.outage)])))
     = [].
Proof.
  pose proof (C4_dialogue_entry Sample.interpreter0 Doctor "hello"
                (Sample.worldOf Sample.interpreter0)
                [([], RespText (Some "namaste"%string)); ([], RespAudio None)])
    as H.
  cbv zeta in H. destruct H as (_ & Hok & _).
  edestruct Hok as (H1 & _); [vm_compute; reflexivity|].
  pose proof (C4_dialogue_entry Sample.interpreter0 Doctor "hello"
                (Sample.worldOf Sample.interpreter0)
                [([], RespFail Sample.outage)]) as H.
  cbv zeta in H. destruct H as (_ & _ & Hfail).
  edestruct Hfail as (_ & F2 & _); [vm_compute; reflexivity|].
  split; [reflexivity|].
  split; [etransitivity; [exact H1 | vm_compute; reflexivity] | exact F2].
Defined.



(** C7 on the dictated consultation, where no capture is active. *)
Lemma C7_witness :
  liveChannels (journal (Sample.worldOf Sample.dictated)) = []
  /\ Js.trim (capturedTextRef (Sample.worldOf Sample.dictated)) = ""%string
  /\ scribeBlocks
       (ui (final (run (stopLiveSession Sample.dictated
                          (Sample.worldOf Sample.dictated))
                       [([], RespUnit)])))
     = scribeBlocks Sample.dictated
  /\ detached (run (stopLiveSession Sample.dictated
                      (Sample.worldOf Sample.dictated))
                   [([], RespUnit)])
     = [].
Proof.
  assert (Hl : liveChannels (journal (Sample.worldOf Sample.dictated)) = [])
    by (vm_compute; reflexivity).
  assert (Ht : Js.trim (capturedTextRef (Sample.worldOf Sample.dictated))
               = ""%string) by (vm_compute; reflexivity).
  pose proof (C7_stop_when_idle Sample.dictated (Sample.worldOf Sample.dictated)
                [([], RespUnit)] Hl Ht) as H.
  cbv zeta in H. destruct H as (H1 & _ & _ & H4).
  split; [exact Hl|]. split; [exact Ht|]. split; [exact H1 | exact H4].
Defined.

(** C8 on the review screen: the audit of the second prescription reports
    an invalid dose. *)
Lemma C8_witness :
  draft Sample.review = Some Sample.reviewed
  /\ prescriptions Sample.reviewed !! 1 = Some 1
  /\ heap Sample.reviewWorld !! 1 = Some (mkVerified Sample.ibuprofen None None)
  /\ heap (final (run (handleVerifyMedicine Sample.review 1 Sample.reviewWorld)
                      [([], RespAudit false
                              (Some "Dose exceeds the daily maximum."%string))]))
       !! 1
     = Some (mkVerified Sample.ibuprofen (Some Warning)
               (Some "Dose exceeds the daily maximum."%string))
  /\ heap (final (run (handleVerifyMedicine Sample.review 1 Sample.reviewWorld)
                      [([], RespAudit false
                              (Some "Dose exceeds the daily maximum."%string))]))
       !! 0
     = heap Sample.reviewWorld !! 0.
Proof.
  assert (Hd : draft Sample.review = Some Sample.reviewed) by reflexivity.
  assert (Hi : prescriptions Sample.reviewed !! 1 = Some 1) by reflexivity.
  assert (Hp : heap Sample.reviewWorld !! 1
               = Some (mkVerified Sample.ibuprofen None None))
    by (vm_compute; reflexivity).
  pose proof (C8_verify Sample.review 1 Sample.reviewed 1
                (mkVerified Sample.ibuprofen None None) Sample.reviewWorld
                [([], RespAudit false
                        (Some "Dose exceeds the daily maximum."%string))]
                Hd Hi Hp) as H.
  cbv zeta in H. destruct H as (_ & _ & Hok & _ & Hframe).
  edestruct Hok as (_ & H2); [vm_compute; reflexivity|].
  destruct (Hframe 0) as (F1 & _); [discriminate|].
  split; [exact Hd|]. split; [exact Hi|]. split; [exact Hp|].
  split; [exact H2 | exact F1].
Defined.

(** C9, read literally, fails when the first fragment is empty: the
    accumulations after the fragments [""] and ["a"] are ["a"], and the
    space-joined fragments are [" a"]. *)
Lemma C9_counterexample :
  outcome (run (toggleMic Sample.scribe0 Scribe (Sample.worldOf Sample.scribe0))
               Sample.granted) = Returned tt
  /\ isLive (ui Sample.scribeStarted) = Some Scribe
  /\ capturedTextRef
       (fold_left (fun w text => onInputTranscript text w)
                  [""%string; "a"%string] Sample.scribeStarted) = "a"%string
  /\ currentInput
       (ui (fold_left (fun w text => onInputTranscript text w)
                      [""%string; "a"%string] Sample.scribeStarted))
     = "a"%string
  /\ Js.join " " [""%string; "a"%string] = " a"%string
  /\ capturedTextRef
       (fold_left (fun w text => onInputTranscript text w)
                  [""%string; "a"%string] Sample.scribeStarted)
     <> Js.join " " [""%string; "a"%string].
Proof. vm_compute. repeat split. discriminate. Qed.

(** C9 on the scribe consultation: two fragments after the start. *)
Lemma C9_witness :
  startable Sample.scribe0 Scribe (Sample.worldOf Sample.scribe0)
  /\ capturedTextRef Sample.scribeStarted = ""%string
  /\ currentInput (ui Sample.scribeStarted) = ""%string
  /\ capturedTextRef
       (fold_left (fun w text => onInputTranscript text w)
                  ["patient has"%string; "fever"%string] Sample.scribeStarted)
     = "patient has fever"%string
  /\ currentInput
       (ui (fold_left (fun w text => onInputTranscript text w)
                      ["patient has"%string; "fever"%string]
                      Sample.scribeStarted))
     = "patient has fever"%string.
Proof.
  assert (Hs : startable Sample.scribe0 Scribe (Sample.worldOf Sample.scribe0))
    by (left; vm_compute; repeat split).
  pose proof (C9_capture_buffers Sample.scribe0 Scribe
                (Sample.worldOf Sample.scribe0) Sample.granted
                ["patient has"%string; "fever"%string] Hs) as H.
  cbv zeta in H.
  destruct H as ((H1 & H2) & _ & H3 & _);
    [vm_compute; reflexivity | vm_compute; reflexivity |].
  destruct H3 as (H4 & H5); [vm_compute; reflexivity|].
  split; [exact Hs|]. split; [exact H1|]. split; [exact H2|].
  split; [exact H4 | exact H5].
Defined.

(* ===================================================================== *)
(** * Further properties of the handlers and of the service helpers *)
(* ===================================================================== *)

(* ===================================================================== *)
(** ** Following one script by small steps *)
(* ===================================================================== *)

Lemma runs_done {A} (a : A) (w : World) script (Q : Run A -> Prop) :
  Q (mkRun (Returned a) w [] [] script) -> runs (Done a w) script Q.
Proof. exact (fun H => H). Qed.

Lemma runs_threw {A} (e : JsError) (w : World) script (Q : Run A -> Prop) :
  Q (mkRun (Rejected e) w [] [] script) -> runs (Threw e w) script Q.
Proof. exact (fun H => H). Qed.

Lemma runs_await {A} (r : Req) (w : World) (k : Resp -> World -> Step A)
    (fs : list string) (x : Resp) script (Q : Run A -> Prop) :
  runs (k x (meanwhile r fs w)) script (fun r' => Q (afterRequest r w r')) ->
  runs (Await r w k) ((fs, x) :: script) Q.
Proof. exact (fun H => H). Qed.

Lemma runs_blocked {A} (r : Req) (w : World) (k : Resp -> World -> Step A)
    (Q : Run A -> Prop) :
  Q (mkRun (Blocked r) w [(r, w)] [] []) -> runs (Await r w k) [] Q.
Proof. exact (fun H => H). Qed.

Lemma runs_detach {A} (r : Req) (k : Resp -> World -> Step unit)
    (rest : Step A) script (Q : Run A -> Prop) :
  runs rest script (fun r' => Q (besides r k r')) ->
  runs (Detach r k rest) script Q.
Proof. exact (fun H => H). Qed.

Lemma runs_bindS {A B} (s : Step A) (f : A -> Async B) script
    (Q : Run B -> Prop) :
  runs s script
    (fun r1 => match outcome r1 with
               | Returned a =>
                   runs (f a (final r1)) (unused r1)
                        (fun r2 => Q (seqRun r1 r2))
               | Rejected e => Q (castRun r1 (Rejected e))
               | Blocked q => Q (castRun r1 (Blocked q))
               end) ->
  runs (bindS s f) script Q.
Proof.
  unfold runs. rewrite run_bindS.
  destruct (outcome (run s script)); exact (fun H => H).
Qed.

Lemma runs_catchS {A} (s : Step A) (h : JsError -> Async A) script
    (Q : Run A -> Prop) :
  runs s script
    (fun r1 => match outcome r1 with
               | Returned a => Q (castRun r1 (Returned a))
               | Rejected e =>
                   runs (h e (final r1)) (unused r1)
                        (fun r2 => Q (seqRun r1 r2))
               | Blocked q => Q (castRun r1 (Blocked q))
               end) ->
  runs (catchS s h) script Q.
Proof.
  unfold runs. rewrite run_catchS.
  destruct (run s script) as [[a|e|q] wf qs ds us]; exact (fun H => H).
Qed.

Lemma runs_finallyS {A} (s : Step A) (fin : Async unit) script
    (Q : Run A -> Prop) :
  runs s script
    (fun r1 => match outcome r1 with
               | Returned a =>
                   runs (bindS (fin (final r1)) (fun _ w' => Done a w'))
                        (unused r1) (fun r2 => Q (seqRun r1 r2))
               | Rejected e =>
                   runs (bindS (fin (final r1)) (fun _ w' => Threw e w'))
                        (unused r1) (fun r2 => Q (seqRun r1 r2))
               | Blocked q => Q (castRun r1 (Blocked q))
               end) ->
  runs (finallyS s fin) script Q.
Proof.
  unfold runs. rewrite run_finallyS.
  destruct (run s script) as [[a|e|q] wf qs ds us]; exact (fun H => H).
Qed.

(** A handler that waits on a request has asked it, whatever the script
    holds. *)
Lemma runs_asks {A} (r : Req) (w : World) (k : Resp -> World -> Step A)
    script (Q : Run A -> Prop) :
  (forall r', (exists rest, asked r' = (r, w) :: rest) -> Q r') ->
  runs (Await r w k) script Q.
Proof.
  intros H. apply H. unfold runs.
  destruct script as [|[fs x] script']; cbn [run asked]; eauto.
Qed.

(** The parts of a run that has been followed. *)
Ltac parts :=
  cbn [outcome final asked detached unused seqRun castRun afterRequest besides
       app].

(** A world, written out as a record. *)
Ltac flat W :=
  let W' :=
    eval cbv beta iota delta
      [ui sessionRef audioContextRef streamRef currentRoleRef capturedTextRef
       heap journal now nextId
       step mode docLang patLang patientDetails scribeBlocks messages
       currentInput draft status error isLive isTranslating isFinalizing
       withUi withSessionRef withAudioContextRef withStreamRef
       withCurrentRoleRef withCapturedTextRef withHeap withJournal withNow
       withNextId withScribeBlocks withMessages withCurrentInput withStep
       withDraft withStatus withError withIsLive withIsTranslating
       withIsFinalizing withPatientDetails] in W in
  try change W with W'.

(** One step along the script: the handler is run up to its next request
    or to its end; where that is not possible at once, one construct is
    taken apart.  It stops where the environment has to be looked at
    ([meanwhile]), at a test on something that is not known, and at a
    request when the script is not known. *)
Ltac follow_head :=
  lazymatch goal with
  | |- runs ?s ?script ?Q =>
      let s' := eval hnf in s in
      lazymatch s' with
      | Done ?a ?W =>
          change (runs s' script Q); flat W; apply runs_done;
          cbn beta iota; parts; cbn beta iota
      | Threw ?e ?W =>
          change (runs s' script Q); flat W; apply runs_threw;
          cbn beta iota; parts; cbn beta iota
      | Await ?r ?W ?k =>
          change (runs s' script Q); flat W;
          lazymatch script with
          | _ :: _ => apply runs_await
          | [] => apply runs_blocked; cbn beta iota; parts; cbn beta iota
          end
      | Detach _ _ _ => change (runs s' script Q); apply runs_detach
      end
  end.

Ltac follow_apart :=
  lazymatch goal with
  | |- runs ?s ?script ?Q =>
      lazymatch s with
      | bindS _ _ => apply runs_bindS
      | catchS _ _ => apply runs_catchS
      | finallyS _ _ => apply runs_finallyS
      | _ =>
          first [ progress cbn beta iota
                | progress cbn [negb]
                | progress worlds
                | progress cbn [detachS]
                | let h := head_of s in progress unfold h ]
      end
  end.

(** A test in the handler that a hypothesis decides. *)
Ltac known :=
  match goal with
  | H : ?t = _ |- runs ?s _ _ =>
      lazymatch s with context [t] => rewrite H end
  end.

(** The steps of a handler that ask nothing and test nothing. *)
Ltac tidy :=
  cbn beta iota;
  cbn [negb audioData translatedText isValid errorMsg fst snd
       bindS catchS finallyS bind tryCatch tryFinally gets modify ret throw
       setStep setScribeBlocks setMessages setCurrentInput setDraft setStatus
       setError setIsLive setIsTranslating setIsFinalizing emit consoleError];
  worlds.

Ltac follow1 :=
  lazymatch goal with
  | |- context [meanwhile _ _ _] => fail
  | |- runs ?s ?script _ =>
      let s' := eval hnf in s in
      lazymatch s' with
      | Await _ _ _ =>
          lazymatch script with
          | _ :: _ => follow_head
          | [] => follow_head
          end
      | _ => first [follow_head | progress tidy | known | follow_apart]
      end
  end.

(** The request on which the handler waits, when the script is not
    known. *)
Ltac asks :=
  lazymatch goal with
  | |- runs ?s ?script ?Q =>
      let s' := eval hnf in s in
      lazymatch s' with
      | Await ?r ?W ?k =>
          change (runs s' script Q); flat W; apply runs_asks;
          cbn beta iota; parts; cbn beta iota
      end
  end.

Ltac follow := repeat follow1.

(** The environment while nothing is live, and across a synchronous
    call. *)
Lemma meanwhile_sync (sampleRate : N) (fs : list string) (w : World) :
  meanwhile (ReqNewAudioContext sampleRate) fs w = w.
Proof. reflexivity. Qed.

Ltac calm :=
  first
    [ rewrite meanwhile_sync
    | rewrite meanwhile_quiet
        by (cbn; rewrite ?liveChannels_snoc;
            repeat match goal with E : liveChannels _ = _ |- _ => rewrite E end;
            cbn; rewrite ?Nat.eqb_refl; reflexivity);
      cbn [elapse] ].

(** The environment while a channel is live. *)
Ltac loud :=
  erewrite meanwhile_live;
  [ | reflexivity
    | cbn; rewrite ?liveChannels_snoc;
      repeat match goal with E : liveChannels _ = _ |- _ => rewrite E end;
      reflexivity ];
  cbn [elapse].

(** The environment during a wait, when nothing is known of the
    channels. *)
Ltac ambient := rewrite meanwhile_spec by reflexivity.

(** A test on the state of the context, when the journal decides it. *)
Ltac context_state H :=
  match goal with
  | |- context [contextClosed ?a ?J] =>
      let E := fresh "E" in
      assert (E : contextClosed a J = false)
        by (cbn; rewrite ?contextClosed_snoc, H; reflexivity);
      destruct (contextClosed a J); [discriminate E|]; clear E
  end.

Ltac go := repeat (progress (follow; try calm)).

(** The run that has been followed, as its parts. *)
Ltac arrived :=
  unfold requests; parts; cbn [map fst snd]; worlds.

Lemma runs_run {A} (s : Step A) script (Q : Run A -> Prop) :
  runs s script Q -> Q (run s script).
Proof. exact (fun H => H). Qed.

(* ===================================================================== *)
(** ** Starting a capture *)
(* ===================================================================== *)

(** [toggleMic role] when no capture is active is the start of one. *)
Lemma toggleMic_start (c : ReactState) (role : Role) (w : World) :
  isLive c = None -> toggleMic c role w = startCapture c role w.
Proof. intros H. unfold toggleMic. rewrite H. reflexivity. Qed.

(** X1. When the microphone is refused ([getUserMedia] rejects), the start
    of a capture returns normally with the error [Microphone access
    restricted.]: nothing has been acquired, no context and no channel has
    been opened, the session is idle and the log is as it was; the
    microphone was the only thing asked for. *)
Theorem X1_microphone_refused (c : ReactState) (role : Role) (w : World)
    (fs : list string) (e : JsError) (script : list Input) :
  isLive c = None -> released w ->
  let r := run (toggleMic c role w) ((fs, RespFail e) :: script) in
  outcome r = Returned tt
  /\ error (ui (final r)) = Some "Microphone access restricted."%string
  /\ idle (final r)
  /\ journal (final r) = journal w
  /\ scribeBlocks (ui (final r)) = scribeBlocks (ui w)
  /\ messages (ui (final r)) = messages (ui w)
  /\ requests r = [ReqGetUserMedia]
  /\ detached r = []
  /\ unused r = script.
Proof.
  intros Hl (Hlive & Hrole & Hs & Ha & Hch & HLs & HLc) r. subst r.
  rewrite (toggleMic_start c role w Hl).
  destruct w as [u ses ctx str rl cap hp j t n].
  destruct u as [ustep umode udoc upat udet ublocks umsgs ucur udraft ustatus
                   uerr ulive utr ufin].
  cbn in Hlive, Hrole, Hs, Ha, Hch, HLs, HLc. subst ses ctx str rl ulive.
  remember (run _ _) as r eqn:Hr.
  unfold startCapture in Hr. crunch Hr.
  subst r. unfold idle, released, requests. cbn.
  rewrite HLs, HLc. repeat split; reflexivity.
Qed.

(** X1 on the scribe consultation, before anything was said. *)
Lemma X1_witness :
  isLive Sample.scribe0 = None
  /\ released (Sample.worldOf Sample.scribe0)
  /\ error (ui (final (run (toggleMic Sample.scribe0 Scribe
                                      (Sample.worldOf Sample.scribe0))
                           [([], RespFail Clinic.denied)])))
     = Some "Microphone access restricted."%string
  /\ requests (run (toggleMic Sample.scribe0 Scribe
                              (Sample.worldOf Sample.scribe0))
                   [([], RespFail Clinic.denied)])
     = [ReqGetUserMedia].
Proof.
  assert (Hr : released (Sample.worldOf Sample.scribe0))
    by (vm_compute; repeat split).
  pose proof (X1_microphone_refused Sample.scribe0 Scribe
                (Sample.worldOf Sample.scribe0) [] Clinic.denied []
                eq_refl Hr) as H.
  cbv zeta in H.
  destruct H as (_ & H1 & _ & _ & _ & _ & H2 & _).
  split; [reflexivity|]. split; [exact Hr|]. split; [exact H1 | exact H2].
Defined.


(** X2. The exact run of a successful start of a capture from an idle
    session: the microphone is asked for, then an audio context at 16 kHz
    (resumed if it comes up suspended); the stream, the context and the
    channel get fresh identifiers and are the only ones held; the channel is
    connected with the role and with the patient's language for [Patient]
    and the doctor's language for [Doctor] and [Scribe], both read from the
    closure; the error is cleared, both accumulations are empty and the log
    is untouched. *)
Theorem X2_start_capture (c : ReactState) (role : Role) (w : World)
    (suspended : bool) (fs1 fs2 fs3 : list string) (script : list Input) :
  isLive c = None -> released w ->
  let n := nextId w in
  let lang := match role with Party Patient => patLang c | _ => docLang c end in
  let r := run (toggleMic c role w)
               (startAnswers suspended fs1 fs2 fs3 RespUnit script) in
  outcome r = Returned tt
  /\ requests r =
       [ReqGetUserMedia; ReqNewAudioContext 16000%N]
         ++ (if suspended then [ReqResume (n + 1)] else [])
  /\ journal (final r) =
       journal w ++ [EvAcquireStream n; EvOpenContext (n + 1);
                     EvConnect (n + 2) (mkInstruction role lang);
                     EvWire n (n + 1) (n + 2)]
  /\ holding role n (n + 1) (n + 2) (final r)
  /\ nextId (final r) = n + 3
  /\ error (ui (final r)) = None
  /\ capturedTextRef (final r) = ""%string
  /\ currentInput (ui (final r)) = ""%string
  /\ scribeBlocks (ui (final r)) = scribeBlocks (ui w)
  /\ messages (ui (final r)) = messages (ui w)
  /\ detached r = []
  /\ unused r = script.
Proof.
  intros Hl (Hlive & Hrole & Hs & Ha & Hch & HLs & HLc) n lang r.
  subst r n lang. rewrite (toggleMic_start c role w Hl).
  destruct w as [u ses ctx str rl cap hp j t n].
  destruct u as [ustep umode udoc upat udet ublocks umsgs ucur udraft ustatus
                   uerr ulive utr ufin].
  cbn in Hlive, Hrole, Hs, Ha, Hch, HLs, HLc. subst ses ctx str rl ulive.
  cbn [nextId].
  apply runs_run. unfold startAnswers.
  go. destruct suspended; go.
  all: arrived; unfold holding; worlds.
  all: rewrite ?liveStreams_snoc, ?liveChannels_snoc, ?HLs, ?HLc.
  all: cbn [streamStep channelStep app]; rewrite <- ?app_assoc; cbn [app].
  all: replace (n + 1) with (S n) by lia.
  all: replace (n + 2) with (S (S n)) by lia.
  all: replace (n + 3) with (S (S (S n))) by lia.
  all: repeat split; reflexivity.
Qed.

(** X2 on the scribe consultation, with an audio context that comes up
    suspended. *)
Lemma X2_witness :
  isLive Sample.scribe0 = None
  /\ released (Sample.worldOf Sample.scribe0)
  /\ requests (run (toggleMic Sample.scribe0 Scribe
                              (Sample.worldOf Sample.scribe0))
                   (startAnswers true [] [] [] RespUnit []))
     = [ReqGetUserMedia; ReqNewAudioContext 16000%N; ReqResume 1]
  /\ journal (final (run (toggleMic Sample.scribe0 Scribe
                                    (Sample.worldOf Sample.scribe0))
                         (startAnswers true [] [] [] RespUnit [])))
     = [EvAcquireStream 0; EvOpenContext 1;
        EvConnect 2 (mkInstruction Scribe "English"); EvWire 0 1 2].
Proof.
  assert (Hr : released (Sample.worldOf Sample.scribe0))
    by (vm_compute; repeat split).
  pose proof (X2_start_capture Sample.scribe0 Scribe
                (Sample.worldOf Sample.scribe0) true [] [] [] []
                eq_refl Hr) as H.
  cbv zeta in H.
  destruct H as (_ & H1 & H2 & _).
  split; [reflexivity|]. split; [exact Hr|]. split; [exact H1 | exact H2].
Defined.


(** X3. When the microphone has been granted and the audio context then
    cannot be created, or cannot be resumed, the start of a capture returns
    with the error [Microphone access restricted.] and no active role, but
    the stream that was acquired is not given back: its tracks still run
    and [streamRef] holds it; no channel has been connected.  The next
    start of a capture does not stop that stream either: it acquires a
    second one and overwrites [streamRef]. *)
Theorem X3_failed_start_keeps_stream (c : ReactState) (role : Role)
    (w : World) (fs1 fs2 fs3 : list string) (e : JsError)
    (script : list Input) :
  isLive c = None -> released w ->
  let n := nextId w in
  let kept (r : Run unit) :=
    outcome r = Returned tt
    /\ error (ui (final r)) = Some "Microphone access restricted."%string
    /\ isLive (ui (final r)) = None
    /\ streamRef (final r) = Some n
    /\ liveStreams (journal (final r)) = [n]
    /\ sessionRef (final r) = None
    /\ liveChannels (journal (final r)) = []
    /\ unused r = script in
  kept (run (toggleMic c role w)
            ((fs1, RespStream) :: (fs2, RespFail e) :: script))
  /\ kept (run (toggleMic c role w)
               ((fs1, RespStream) :: (fs2, RespContext true)
                  :: (fs3, RespFail e) :: script))
  /\ (forall c' w' suspended gs1 gs2 gs3 script',
        isLive c' = None -> liveChannels (journal w') = [] ->
        let r' := run (toggleMic c' role w')
                      (startAnswers suspended gs1 gs2 gs3 RespUnit script') in
        outcome r' = Returned tt
        /\ liveStreams (journal (final r'))
           = liveStreams (journal w') ++ [nextId w']
        /\ streamRef (final r') = Some (nextId w')).
Proof.
  intros Hl (Hlive & Hrole & Hs & Ha & Hch & HLs & HLc) n kept.
  subst n kept. cbn beta.
  rewrite (toggleMic_start c role w Hl).
  split; [|split].
  - destruct w as [u ses ctx str rl cap hp j t n].
    destruct u as [ustep umode udoc upat udet ublocks umsgs ucur udraft ustatus
                     uerr ulive utr ufin].
    cbn in Hlive, Hrole, Hs, Ha, Hch, HLs, HLc. subst ses ctx str rl ulive.
    apply runs_run. go. arrived.
    rewrite ?liveStreams_snoc, ?liveChannels_snoc, HLs, HLc.
    repeat split; reflexivity.
  - destruct w as [u ses ctx str rl cap hp j t n].
    destruct u as [ustep umode udoc upat udet ublocks umsgs ucur udraft ustatus
                     uerr ulive utr ufin].
    cbn in Hlive, Hrole, Hs, Ha, Hch, HLs, HLc. subst ses ctx str rl ulive.
    apply runs_run. go. arrived.
    rewrite ?liveStreams_snoc, ?liveChannels_snoc, HLs, HLc.
    repeat split; reflexivity.
  - intros c' w' suspended gs1 gs2 gs3 script' Hl' HLc' r'. subst r'.
    rewrite (toggleMic_start c' role w' Hl').
    destruct w' as [u ses ctx str rl cap hp j t n].
    destruct u as [ustep umode udoc upat udet ublocks umsgs ucur udraft ustatus
                     uerr ulive utr ufin].
    cbn in HLc'.
    apply runs_run. unfold startAnswers. go. destruct suspended; go.
    all: arrived; rewrite ?liveStreams_snoc; cbn [streamStep].
    all: repeat split; reflexivity.
Qed.

(** X3 on the scribe consultation: the audio context cannot be created. *)
Lemma X3_witness :
  isLive Sample.scribe0 = None
  /\ released (Sample.worldOf Sample.scribe0)
  /\ streamRef (final (run (toggleMic Sample.scribe0 Scribe
                                      (Sample.worldOf Sample.scribe0))
                           [([], RespStream); ([], RespFail Sample.outage)]))
     = Some 0
  /\ liveStreams
       (journal (final (run (toggleMic Sample.scribe0 Scribe
                                       (Sample.worldOf Sample.scribe0))
                            [([], RespStream); ([], RespFail Sample.outage)])))
     = [0].
Proof.
  assert (Hr : released (Sample.worldOf Sample.scribe0))
    by (vm_compute; repeat split).
  pose proof (X3_failed_start_keeps_stream Sample.scribe0 Scribe
                (Sample.worldOf Sample.scribe0) [] [] [] Sample.outage []
                eq_refl Hr) as H.
  cbv zeta beta in H.
  destruct H as ((_ & _ & _ & H1 & H2 & _) & _).
  split; [reflexivity|]. split; [exact Hr|]. split; [exact H1 | exact H2].
Defined.


(** X4. [toggleMic role] while [role] itself is capturing only stops the
    capture: on every script the microphone is never asked for, no more
    than one channel is ever live, and when the call returns the session is
    idle. *)
Theorem X4_toggle_active_role (c : ReactState) (role : Role) (s : StreamId)
    (a : ContextId) (ch : ChannelId) (w : World) (script : list Input) :
  isLive c = Some role -> holding role s a ch w ->
  let r := run (toggleMic c role w) script in
  Forall (fun q => q <> ReqGetUserMedia) (requests r)
  /\ calmSince (journal w) (journal (final r))
  /\ (outcome r = Returned tt -> idle (final r)).
Proof.
  intros Hl Hhold r. subst r.
  assert (E : toggleMic c role w = stopLiveSession c w).
  { unfold toggleMic. rewrite Hl. now rewrite bool_decide_eq_true_2. }
  rewrite E.
  destruct (always_run _ _ _ _ script (stop_always c role s a ch w Hhold))
    as ((Hc & Hi) & HA & _).
  split; [|split; [exact Hc | exact Hi]].
  unfold requests. apply List.Forall_map. exact HA.
Qed.

(** X4 on the scribe consultation: the scribe taps the microphone again. *)
Lemma X4_witness :
  isLive Clinic.scribing = Some Scribe
  /\ holding Scribe 0 1 2 Sample.scribeHeard
  /\ Forall (fun q => q <> ReqGetUserMedia)
       (requests (run (toggleMic Clinic.scribing Scribe Sample.scribeHeard)
                      (Sample.stopped [] false)))
  /\ calmSince (journal Sample.scribeHeard)
       (journal (final (run (toggleMic Clinic.scribing Scribe
                                       Sample.scribeHeard)
                            (Sample.stopped [] false)))).
Proof.
  assert (Hh : holding Scribe 0 1 2 Sample.scribeHeard)
    by (vm_compute; repeat split).
  pose proof (X4_toggle_active_role Clinic.scribing Scribe 0 1 2
                Sample.scribeHeard (Sample.stopped [] false) eq_refl Hh) as H.
  cbv zeta in H.
  destruct H as (H1 & H2 & _).
  split; [reflexivity|]. split; [exact Hh|]. split; [exact H1 | exact H2].
Defined.

(* ===================================================================== *)
(** ** A session promise that rejects *)
(* ===================================================================== *)

(** X5. When the promise of the live session rejects while a capture is
    being stopped, [stopLiveSession] rejects with that error in the middle
    of the clean-up: the tracks of the stream have been stopped, but the
    channel has not been closed and is still held; the finalizing flag
    stays set and the role stays active; the capture buffer is not cleared
    and still takes fragments; nothing is appended to the log and no service
    is asked.  A [toggleMic] for another role rejects in the same way and
    does not start the new capture. *)
Theorem X5_stop_session_rejected (c : ReactState) (role : Role)
    (s : StreamId) (a : ContextId) (ch : ChannelId) (w : World)
    (fs1 fs2 : list string) (x1 : Resp) (e : JsError) (script : list Input) :
  holding role s a ch w ->
  let answers := (fs1, x1) :: (fs2, RespFail e) :: script in
  let r := run (stopLiveSession c w) answers in
  outcome r = Rejected e
  /\ isFinalizing (ui (final r)) = true
  /\ isLive (ui (final r)) = Some role
  /\ currentRoleRef (final r) = Some role
  /\ journal (final r) = journal w ++ [EvStopTracks s]
  /\ streamRef (final r) = None
  /\ sessionRef (final r) = Some ch
  /\ liveChannels (journal (final r)) = [ch]
  /\ audioContextRef (final r) = Some a
  /\ capturedTextRef (final r)
     = accumulate (accumulate (capturedTextRef w) fs1) fs2
  /\ scribeBlocks (ui (final r)) = scribeBlocks (ui w)
  /\ messages (ui (final r)) = messages (ui w)
  /\ requests r = [ReqSleep 400; ReqSession ch]
  /\ detached r = []
  /\ unused r = script
  /\ (forall other, isLive c = Some role -> other <> role ->
        outcome (run (toggleMic c other w) answers) = Rejected e
        /\ final (run (toggleMic c other w) answers) = final r).
Proof.
  intros (Hlive & Hrole & Hs & Ha & Hch & HLs & HLc) answers r.
  assert (Hstop : runs (stopLiveSession c w) answers
            (fun r =>
               outcome r = Rejected e
               /\ final r =
                    withUi (withCurrentInput
                              (fun prev => accumulate (accumulate prev fs1) fs2))
                      (withStreamRef None
                         (withJournal (fun j => j ++ [EvStopTracks s])
                            (withCapturedTextRef
                               (accumulate (accumulate (capturedTextRef w) fs1) fs2)
                               (withNow (fun t => t + 400)
                                  (withUi (withIsFinalizing true) w)))))
               /\ requests r = [ReqSleep 400; ReqSession ch]
               /\ detached r = []
               /\ unused r = script)).
  { subst answers.
    destruct w as [u ses ctx str rl cap hp j t n].
    destruct u as [ustep umode udoc upat udet ublocks umsgs ucur udraft ustatus
                     uerr ulive utr ufin].
    cbn in Hlive, Hrole, Hs, Ha, Hch, HLs, HLc. subst ses ctx str rl ulive.
    follow. loud. follow. loud. follow. arrived.
    repeat split; reflexivity. }
  apply runs_run in Hstop. fold r in Hstop.
  destruct Hstop as (Ho & Hf & Hq & Hd & Hu).
  assert (Hother : forall other, isLive c = Some role -> other <> role ->
            outcome (run (toggleMic c other w) answers) = Rejected e
            /\ final (run (toggleMic c other w) answers) = final r).
  { intros other Hc Hne.
    rewrite (toggleMic_other c other role w Hc) by congruence.
    change (bindS (finalizeCapture w) _) with (stopLiveSession c w).
    rewrite run_bindS. fold r. rewrite Ho. split; reflexivity. }
  split; [exact Ho|].
  assert (HL : liveChannels (journal w ++ [EvStopTracks s]) = [ch])
    by (now rewrite liveChannels_snoc, HLc).
  revert Hother. rewrite Hf.
  destruct w as [u ses ctx str rl cap hp j t n].
  destruct u as [ustep umode udoc upat udet ublocks umsgs ucur udraft ustatus
                   uerr ulive utr ufin].
  cbn in Hlive, Hrole, Hs, Ha, Hch, HLs, HLc, HL |- *.
  subst ses ctx str rl ulive. intros Hother.
  repeat (split; [first [reflexivity | assumption]|]).
  exact Hother.
Qed.

(** X5 on the scribe consultation: the session never came up. *)
Lemma X5_witness :
  holding Scribe 0 1 2 Sample.scribeHeard
  /\ outcome (run (stopLiveSession Clinic.scribing Sample.scribeHeard)
                  [([], RespUnit); ([], RespFail Sample.outage)])
     = Rejected Sample.outage
  /\ isFinalizing
       (ui (final (run (stopLiveSession Clinic.scribing Sample.scribeHeard)
                       [([], RespUnit); ([], RespFail Sample.outage)])))
     = true
  /\ sessionRef
       (final (run (stopLiveSession Clinic.scribing Sample.scribeHeard)
                   [([], RespUnit); ([], RespFail Sample.outage)]))
     = Some 2.
Proof.
  assert (Hh : holding Scribe 0 1 2 Sample.scribeHeard)
    by (vm_compute; repeat split).
  pose proof (X5_stop_session_rejected Clinic.scribing Scribe 0 1 2
                Sample.scribeHeard [] [] RespUnit Sample.outage [] Hh) as H.
  cbv zeta in H.
  destruct H as (H1 & H2 & _ & _ & _ & _ & H3 & _).
  split; [exact Hh|]. split; [exact H1|]. split; [exact H2 | exact H3].
Defined.

(* ===================================================================== *)
(** ** Reset *)
(* ===================================================================== *)

(** X6. [resetAllState] while a role is capturing releases the stream,
    the channel and the context without the grace delay of a stop, and
    discards what was being said: the log, the draft, the error and both
    accumulations are emptied, the demographics go back to the empty record
    with gender [Male], the step is WELCOME and the status IDLE, and no
    service is asked; the mode and the two languages are kept.  When
    nothing is held the reset asks nothing at all.  When the promise of the
    session rejects, the reset rejects before anything is cleared: the log,
    the draft and the step are what they were. *)
Theorem X6_reset (role : Role) (s : StreamId) (a : ContextId)
    (ch : ChannelId) (w : World) (fs1 fs2 : list string) (x2 : Resp)
    (closeThrows : bool) (e : JsError) (script : list Input) :
  capturing role s a ch w ->
  (let r := run (resetAllState w)
                ((fs1, RespSession closeThrows) :: (fs2, x2) :: script) in
   outcome r = Returned tt
   /\ requests r = [ReqSession ch; ReqCloseContext a]
   /\ journal (final r) =
        journal w ++ [EvStopTracks s; EvCloseSession ch closeThrows;
                      EvCloseContext a]
   /\ idle (final r)
   /\ scribeBlocks (ui (final r)) = [] /\ messages (ui (final r)) = []
   /\ draft (ui (final r)) = None /\ error (ui (final r)) = None
   /\ patientDetails (ui (final r)) = mkDemographics "" "" "Male"
   /\ step (ui (final r)) = WELCOME /\ status (ui (final r)) = IDLE
   /\ isTranslating (ui (final r)) = false
   /\ isFinalizing (ui (final r)) = false
   /\ mode (ui (final r)) = mode (ui w)
   /\ docLang (ui (final r)) = docLang (ui w)
   /\ patLang (ui (final r)) = patLang (ui w)
   /\ heap (final r) = heap w
   /\ detached r = [] /\ unused r = script)
  /\ (let r := run (resetAllState w) ((fs1, RespFail e) :: script) in
      outcome r = Rejected e
      /\ scribeBlocks (ui (final r)) = scribeBlocks (ui w)
      /\ messages (ui (final r)) = messages (ui w)
      /\ draft (ui (final r)) = draft (ui w)
      /\ step (ui (final r)) = step (ui w)
      /\ patientDetails (ui (final r)) = patientDetails (ui w)
      /\ isLive (ui (final r)) = Some role
      /\ liveChannels (journal (final r)) = [ch]
      /\ journal (final r) = journal w ++ [EvStopTracks s])
  /\ (forall w0 script0,
        streamRef w0 = None -> sessionRef w0 = None ->
        audioContextRef w0 = None ->
        let r := run (resetAllState w0) script0 in
        outcome r = Returned tt /\ requests r = [] /\ unused r = script0
        /\ journal (final r) = journal w0
        /\ scribeBlocks (ui (final r)) = [] /\ messages (ui (final r)) = []
        /\ draft (ui (final r)) = None /\ step (ui (final r)) = WELCOME).
Proof.
  intros ((Hlive & Hrole & Hs & Ha & Hch & HLs & HLc) & Hcl).
  split; [|split].
  - destruct w as [u ses ctx str rl cap hp j t n].
    destruct u as [ustep umode udoc upat udet ublocks umsgs ucur udraft ustatus
                     uerr ulive utr ufin].
    cbn in Hlive, Hrole, Hs, Ha, Hch, HLs, HLc, Hcl. subst ses ctx str rl ulive.
    cbn zeta. apply runs_run. unfold resetAllState.
    follow. loud. follow.
    context_state Hcl. follow. calm. follow.
    arrived. unfold idle, released. worlds.
    rewrite !liveStreams_snoc, !liveChannels_snoc, HLs, HLc.
    cbn. rewrite !Nat.eqb_refl. cbn. rewrite <- !app_assoc. cbn.
    repeat split; reflexivity.
  - destruct w as [u ses ctx str rl cap hp j t n].
    destruct u as [ustep umode udoc upat udet ublocks umsgs ucur udraft ustatus
                     uerr ulive utr ufin].
    cbn in Hlive, Hrole, Hs, Ha, Hch, HLs, HLc, Hcl. subst ses ctx str rl ulive.
    cbn zeta. apply runs_run. unfold resetAllState.
    follow. loud. follow. arrived.
    rewrite !liveChannels_snoc, HLc.
    repeat split; reflexivity.
  - intros w0 script0 H1 H2 H3.
    destruct w0 as [u ses ctx str rl cap hp j t n].
    destruct u as [ustep umode udoc upat udet ublocks umsgs ucur udraft ustatus
                     uerr ulive utr ufin].
    cbn in H1, H2, H3. subst ses ctx str.
    cbn zeta. apply runs_run. unfold resetAllState.
    follow. arrived. repeat split; reflexivity.
Qed.

(** X6 on the scribe consultation. *)
Lemma X6_witness :
  capturing Scribe 0 1 2 Sample.scribeHeard
  /\ requests (run (resetAllState Sample.scribeHeard)
                   [([], RespSession false); ([], RespUnit)])
     = [ReqSession 2; ReqCloseContext 1]
  /\ scribeBlocks (ui (final (run (resetAllState Sample.scribeHeard)
                                  [([], RespSession false); ([], RespUnit)])))
     = []
  /\ step (ui (final (run (resetAllState Sample.scribeHeard)
                          [([], RespSession false); ([], RespUnit)])))
     = WELCOME.
Proof.
  assert (Hc : capturing Scribe 0 1 2 Sample.scribeHeard)
    by (vm_compute; repeat split).
  pose proof (X6_reset Scribe 0 1 2 Sample.scribeHeard [] [] RespUnit false
                Sample.outage [] Hc) as H.
  cbv zeta in H.
  destruct H as ((_ & H1 & _ & _ & H2 & _ & _ & _ & _ & H3 & _) & _).
  split; [exact Hc|]. split; [exact H1|]. split; [exact H2 | exact H3].
Defined.

(* ===================================================================== *)
(** ** The waits of [withRetry] *)
(* ===================================================================== *)

Lemma sleeps_app (qs qs' : list Req) :
  sleeps (qs ++ qs') = sleeps qs ++ sleeps qs'.
Proof. unfold sleeps. now rewrite flat_map_app. Qed.

Lemma requests_seqRun {A B} (r1 : Run A) (r2 : Run B) :
  requests (seqRun r1 r2) = requests r1 ++ requests r2.
Proof. unfold requests, seqRun. cbn. now rewrite map_app. Qed.

Lemma backoff_shift (delay k : nat) :
  map (fun i => delay * 2 * 2 ^ i) (seq 0 k)
  = map (fun i => delay * 2 ^ i) (seq 1 k).
Proof.
  rewrite <- seq_shift, map_map. apply map_ext. intros i.
  rewrite Nat.pow_succ_r'. lia.
Qed.

(** X7. Whatever the numbers of retries and the delay, and whatever the
    environment answers: when the wrapped call itself sets no timer and
    makes at most [m] requests, [withRetry] waits [delay], then twice that,
    then four times that, and so on, at most [retries] times; its waits add
    up to [delay * (2 ^ k - 1)] for the number [k] of waits, hence to at
    most [delay * (2 ^ retries - 1)]; and it makes at most [k + 1] attempts,
    that is [(k + 1) * m] requests beside the timers. *)
Theorem X7_withRetry_waits {T : Type} (fn : Async T) (m : nat) :
  (forall w script,
     sleeps (requests (run (fn w) script)) = []
     /\ length (requests (run (fn w) script)) <= m) ->
  forall retries delay w script,
    let r := run (withRetry fn retries delay w) script in
    exists k,
      k <= retries
      /\ sleeps (requests r) = map (fun i => delay * 2 ^ i) (seq 0 k)
      /\ list_sum (sleeps (requests r)) + delay = delay * 2 ^ k
      /\ list_sum (sleeps (requests r)) + delay <= delay * 2 ^ retries
      /\ length (requests r) <= (k + 1) * m + k.
Proof.
  intros Hfn retries.
  induction retries as [|retries IH]; intros delay w script r; subst r;
    rewrite run_withRetry; cbn zeta;
    destruct (Hfn w script) as [Hs Hl];
    set (r1 := run (fn w) script) in *.
  - exists 0.
    assert (E : sleeps (requests
                  match outcome r1 with
                  | Rejected e =>
                      seqRun r1
                        (if isQuota e
                         then run (throw systemBusy (final r1)) (unused r1)
                         else run (throw e (final r1)) (unused r1))
                  | _ => r1
                  end) = []
                /\ length (requests
                  match outcome r1 with
                  | Rejected e =>
                      seqRun r1
                        (if isQuota e
                         then run (throw systemBusy (final r1)) (unused r1)
                         else run (throw e (final r1)) (unused r1))
                  | _ => r1
                  end) <= m).
    { destruct (outcome r1) as [a|e|q]; [now split| |now split].
      rewrite requests_seqRun.
      destruct (isQuota e); cbn; rewrite app_nil_r; now split. }
    destruct E as [E1 E2]. rewrite E1. cbn [seq map list_sum Nat.pow fold_right].
    repeat split; first [reflexivity | lia].
  - destruct (outcome r1) as [a|e|q].
    + exists 0. rewrite Hs. cbn. repeat split; try lia.
      assert (0 < 2 ^ retries) by (apply Nat.neq_0_lt_0, Nat.pow_nonzero; lia).
      nia.
    + rewrite requests_seqRun, sleeps_app, Hs, length_app. cbn [app].
      destruct (isQuota e).
      * destruct (unused r1) as [|[fs x] rest] eqn:Hu.
        -- exists 1. cbn. rewrite Nat.mul_1_r. repeat split; try lia.
           assert (0 < 2 ^ retries)
             by (apply Nat.neq_0_lt_0, Nat.pow_nonzero; lia).
           nia.
        -- rewrite run_sleep_then.
           destruct (IH (delay * 2) (meanwhile (ReqSleep delay) fs (final r1))
                        rest) as (k & Hk & Hsl & Hsum & Hmax & Hlen).
           cbv zeta in Hsl, Hsum, Hmax, Hlen.
           set (r2 := run (withRetry fn retries (delay * 2)
                             (meanwhile (ReqSleep delay) fs (final r1))) rest)
             in *.
           exists (S k).
           change (requests (afterRequest (ReqSleep delay) (final r1) r2))
             with (ReqSleep delay :: requests r2).
           change (sleeps (ReqSleep delay :: requests r2))
             with (delay :: sleeps (requests r2)).
           cbn [length list_sum].
           split; [lia|]. split.
           { rewrite Hsl, backoff_shift. cbn [seq map].
             rewrite Nat.pow_0_r, Nat.mul_1_r. reflexivity. }
           rewrite !Nat.pow_succ_r'.
           change (list_sum (delay :: sleeps (requests r2)))
             with (delay + list_sum (sleeps (requests r2))).
           repeat split; nia.
      * exists 0. cbn. repeat split; try lia.
        assert (0 < 2 ^ retries)
          by (apply Nat.neq_0_lt_0, Nat.pow_nonzero; lia).
        nia.
    + exists 0. rewrite Hs. cbn. repeat split; try lia.
      assert (0 < 2 ^ retries) by (apply Nat.neq_0_lt_0, Nat.pow_nonzero; lia).
      nia.
Qed.

(** X7 on the sample call, with three quota failures in a row. *)
Lemma X7_witness :
  (forall w script,
     sleeps (requests (run (Sample.call w) script)) = []
     /\ length (requests (run (Sample.call w) script)) <= 1)
  /\ list_sum
       (sleeps
          (requests
             (run (withRetry Sample.call 2 200 (Sample.worldOf Sample.scribe0))
                  [([], RespFail Sample.quota); ([], RespUnit);
                   ([], RespFail Sample.quota); ([], RespUnit);
                   ([], RespFail Sample.quota)]))) + 200
     <= 200 * 2 ^ 2.
Proof.
  assert (Hc : forall w script,
             sleeps (requests (run (Sample.call w) script)) = []
             /\ length (requests (run (Sample.call w) script)) <= 1).
  { intros w [|[fs x] script]; [split; [reflexivity | cbn; lia]|].
    unfold Sample.call, bind, await. cbn [bindS run].
    destruct x; cbn;
      repeat match goal with
             | |- context [match ?o with Some _ => _ | None => _ end] =>
                 destruct o; cbn
             end;
      (split; [reflexivity | lia]). }
  split; [exact Hc|].
  destruct (X7_withRetry_waits Sample.call 1 Hc 2 200
              (Sample.worldOf Sample.scribe0)
              [([], RespFail Sample.quota); ([], RespUnit);
               ([], RespFail Sample.quota); ([], RespUnit);
               ([], RespFail Sample.quota)]) as (k & _ & _ & _ & H & _).
  exact H.
Defined.

(* ===================================================================== *)
(** ** An audit that is answered later *)
(* ===================================================================== *)

Lemma withPrescriptions_same (d : ConsultationDraft) :
  withPrescriptions (prescriptions d) d = d.
Proof. now destruct d. Qed.

Lemma heap_meanwhile (r : Req) (fs : list string) (w : World) :
  heap (meanwhile r fs w) = heap w.
Proof. exact (heap_stable (heap w) r fs w eq_refl). Qed.

(** The click on [Audit]: the handler marks the object and is left
    suspended on the audit; [K] is what it does with the answer. *)
Lemma verify_click (c : ReactState) (idx : nat) (d : ConsultationDraft)
    (a : Addr) (p : VerifiedPrescription) (w : World) :
  draft c = Some d -> prescriptions d !! idx = Some a ->
  heap w !! a = Some p ->
  exists K,
    spawn (handleVerifyMedicine c idx) w
    = Detach (ReqAudit (medicineName (fields p)) (dosage (fields p))) K
        (Done tt (withUi (withDraft (Some d))
                    (withHeap (alter (setVerification Pending) a) w)))
    /\ (forall v m w',
          K (RespAudit v m) w'
          = Done tt
              (withUi (withDraft (Some d))
                 (withHeap (alter (setVerificationError m) a)
                    (withHeap (alter (setVerification
                                        (if v then Verified else Warning)) a)
                       w'))))
    /\ (forall e w',
          isQuota e = false ->
          K (RespFail e) w'
          = Done tt
              (withUi (withDraft (Some d))
                 (withHeap (alter (setVerificationError
                                     (Some "Audit timeout."%string)) a)
                    (withHeap (alter (setVerification Warning) a) w')))).
Proof.
  intros Hd Hidx Hp.
  unfold spawn, handleVerifyMedicine. rewrite Hd.
  unfold writeAt. rewrite Hidx. rewrite withPrescriptions_same.
  unfold verifyMedication, defaultRetries, defaultDelay.
  cbn [withRetry].
  unfold setDraft, tryCatch, bind, gets, modify, ret, await.
  cbn [bindS catchS heap withUi withHeap].
  rewrite lookup_alter_eq, Hp.
  cbn [fmap option_fmap option_map setVerification fields bindS catchS
       detachS].
  eexists. split; [reflexivity|].
  split.
  - intros v m w'. cbn [bindS catchS isValid errorMsg]. reflexivity.
  - intros e w' He. unfold throw. cbn [bindS catchS]. rewrite He.
    cbn [bindS catchS]. reflexivity.
Qed.

(** X9. A click on [Audit] ([handleVerifyMedicine] called without being
    awaited) returns at once, asking nothing yet: the object is marked
    Pending and the audit of its name and dosage of that moment is in
    flight.  When the answer arrives later, in whatever state the screen is
    by then, the verdict is written on the object as it then is: fields
    edited in the meantime are kept, and carry the verdict of the values
    that were sent; no other object is touched; and the draft is set back
    to the draft of the render in which the button was clicked, so that a
    change made to the draft in the meantime is undone.  An answer that is
    a failure other than a quota condition marks the object Warning with
    [Audit timeout.], in the same way. *)
Theorem X9_audit_answered_later (c : ReactState) (idx : nat)
    (d : ConsultationDraft) (a : Addr) (p : VerifiedPrescription)
    (w : World) (script : list Input) :
  draft c = Some d -> prescriptions d !! idx = Some a ->
  heap w !! a = Some p ->
  let click := run (spawn (handleVerifyMedicine c idx) w) script in
  outcome click = Returned tt
  /\ requests click = []
  /\ unused click = script
  /\ heap (final click) !! a
     = Some (mkVerified (fields p) (Some Pending) (verificationError p))
  /\ exists call,
       detached click = [call]
       /\ waitingOn call
          = ReqAudit (medicineName (fields p)) (dosage (fields p))
       /\ (forall fs v m w' p' rest,
             heap w' !! a = Some p' ->
             let r := resume call (fs, RespAudit v m) w' rest in
             outcome r = Returned tt
             /\ requests r = [] /\ unused r = rest
             /\ draft (ui (final r)) = Some d
             /\ heap (final r) !! a
                = Some (mkVerified (fields p')
                          (Some (if v then Verified else Warning)) m)
             /\ (forall b, b <> a -> heap (final r) !! b = heap w' !! b))
       /\ (forall fs e w' p' rest,
             heap w' !! a = Some p' -> isQuota e = false ->
             let r := resume call (fs, RespFail e) w' rest in
             outcome r = Returned tt
             /\ requests r = [] /\ unused r = rest
             /\ draft (ui (final r)) = Some d
             /\ heap (final r) !! a
                = Some (mkVerified (fields p') (Some Warning)
                          (Some "Audit timeout."%string))
             /\ (forall b, b <> a -> heap (final r) !! b = heap w' !! b)).
Proof.
  intros Hd Hidx Hp click. subst click.
  destruct (verify_click c idx d a p w Hd Hidx Hp) as (K & E & Hok & Hfail).
  rewrite E. cbn [run outcome final asked detached unused requests map].
  split; [reflexivity|]. split; [reflexivity|]. split; [reflexivity|].
  split.
  { cbn [heap withUi withHeap]. rewrite lookup_alter_eq, Hp. reflexivity. }
  eexists. split; [reflexivity|]. split; [reflexivity|].
  split.
  - intros fs v m w' p' rest Hp'.
    unfold resume. cbn [resumeWith waitingOn fst snd]. rewrite Hok.
    cbn [run outcome final asked detached unused requests map].
    repeat (split; [reflexivity|]).
    cbn [heap withUi withHeap]. split.
    + rewrite !lookup_alter_eq, heap_meanwhile, Hp'. reflexivity.
    + intros b Hb. rewrite !lookup_alter_ne by congruence.
      apply (f_equal (fun h => h !! b)), heap_meanwhile.
  - intros fs e w' p' rest Hp' He.
    unfold resume. cbn [resumeWith waitingOn fst snd]. rewrite Hfail by exact He.
    cbn [run outcome final asked detached unused requests map].
    repeat (split; [reflexivity|]).
    cbn [heap withUi withHeap]. split.
    + rewrite !lookup_alter_eq, heap_meanwhile, Hp'. reflexivity.
    + intros b Hb. rewrite !lookup_alter_ne by congruence.
      apply (f_equal (fun h => h !! b)), heap_meanwhile.
Qed.

(** X9 on the review screen: the second prescription is audited. *)
Lemma X9_witness :
  draft Sample.review = Some Sample.reviewed
  /\ prescriptions Sample.reviewed !! 1 = Some 1
  /\ heap Sample.reviewWorld !! 1 = Some (mkVerified Sample.ibuprofen None None)
  /\ outcome (run (spawn (handleVerifyMedicine Sample.review 1)
                         Sample.reviewWorld) [])
     = Returned tt
  /\ heap (final (run (spawn (handleVerifyMedicine Sample.review 1)
                             Sample.reviewWorld) []))
       !! 1
     = Some (mkVerified Sample.ibuprofen (Some Pending) None).
Proof.
  assert (Hd : draft Sample.review = Some Sample.reviewed) by reflexivity.
  assert (Hi : prescriptions Sample.reviewed !! 1 = Some 1) by reflexivity.
  assert (Hp : heap Sample.reviewWorld !! 1
               = Some (mkVerified Sample.ibuprofen None None))
    by (vm_compute; reflexivity).
  pose proof (X9_audit_answered_later Sample.review 1 Sample.reviewed 1
                (mkVerified Sample.ibuprofen None None) Sample.reviewWorld
                [] Hd Hi Hp) as H.
  cbv zeta in H. destruct H as (H1 & _ & _ & H2 & _).
  split; [exact Hd|]. split; [exact Hi|]. split; [exact Hp|].
  split; [exact H1 | exact H2].
Defined.

(** X8. [handleVerifyMedicine] without a target.  When there is no draft
    the handler returns at once and nothing happens.  When the index is
    beyond the prescriptions of the draft, the first write fails before the
    [try]: the handler rejects with a [TypeError], no audit is asked, and
    neither the draft nor any object has been touched. *)
Theorem X8_verify_without_target (c : ReactState) (idx : nat) (w : World)
    (script : list Input) :
  (draft c = None ->
   run (handleVerifyMedicine c idx w) script
   = mkRun (Returned tt) w [] [] script)
  /\ (forall d,
        draft c = Some d -> prescriptions d !! idx = None ->
        run (handleVerifyMedicine c idx w) script
        = mkRun (Rejected (mkError "TypeError" None None)) w [] [] script).
Proof.
  split.
  - intros Hd. unfold handleVerifyMedicine. now rewrite Hd.
  - intros d Hd Hidx. unfold handleVerifyMedicine. rewrite Hd.
    unfold writeAt at 1. now rewrite Hidx.
Qed.

(** Lookups in a heap after writes to objects. *)
Ltac lookups :=
  repeat first [ rewrite lookup_alter_eq
               | rewrite lookup_alter_ne by congruence ].

(** X10. Two audits in flight at the same time, on two different
    prescriptions: each click marks its own object Pending and leaves the
    other one alone, and when the two answers have arrived, in either
    order, each object carries its own verdict.  The draft is the one of
    the render of the click that was answered last. *)
Theorem X10_overlapping_audits (c c' : ReactState) (idx idx' : nat)
    (d d' : ConsultationDraft) (a b : Addr) (pa pb : VerifiedPrescription)
    (w : World) :
  draft c = Some d -> prescriptions d !! idx = Some a ->
  draft c' = Some d' -> prescriptions d' !! idx' = Some b ->
  a <> b -> heap w !! a = Some pa -> heap w !! b = Some pb ->
  let first := run (spawn (handleVerifyMedicine c idx) w) [] in
  let second := run (spawn (handleVerifyMedicine c' idx') (final first)) [] in
  let verdict (v : bool) := if v then Verified else Warning in
  exists callA callB,
    detached first = [callA] /\ detached second = [callB]
    /\ heap (final second) !! a
       = Some (mkVerified (fields pa) (Some Pending) (verificationError pa))
    /\ heap (final second) !! b
       = Some (mkVerified (fields pb) (Some Pending) (verificationError pb))
    /\ (forall fsA fsB vA mA vB mB,
          let rB := resume callB (fsB, RespAudit vB mB) (final second) [] in
          let rA := resume callA (fsA, RespAudit vA mA) (final rB) [] in
          heap (final rA) !! a
          = Some (mkVerified (fields pa) (Some (verdict vA)) mA)
          /\ heap (final rA) !! b
             = Some (mkVerified (fields pb) (Some (verdict vB)) mB)
          /\ draft (ui (final rA)) = Some d)
    /\ (forall fsA fsB vA mA vB mB,
          let rA := resume callA (fsA, RespAudit vA mA) (final second) [] in
          let rB := resume callB (fsB, RespAudit vB mB) (final rA) [] in
          heap (final rB) !! a
          = Some (mkVerified (fields pa) (Some (verdict vA)) mA)
          /\ heap (final rB) !! b
             = Some (mkVerified (fields pb) (Some (verdict vB)) mB)
          /\ draft (ui (final rB)) = Some d').
Proof.
  intros Hd Hidx Hd' Hidx' Hab Hpa Hpb first second verdict.
  subst first second verdict.
  destruct (verify_click c idx d a pa w Hd Hidx Hpa) as (KA & EA & HA & _).
  rewrite EA. cbn [run final detached].
  set (w1 := withUi (withDraft (Some d))
               (withHeap (alter (setVerification Pending) a) w)).
  assert (Hpb1 : heap w1 !! b = Some pb).
  { unfold w1. cbn [heap withUi withHeap].
    rewrite lookup_alter_ne by congruence. exact Hpb. }
  destruct (verify_click c' idx' d' b pb w1 Hd' Hidx' Hpb1)
    as (KB & EB & HB & _).
  rewrite EB. cbn [run final detached].
  set (w2 := withUi (withDraft (Some d'))
               (withHeap (alter (setVerification Pending) b) w1)).
  assert (Ha2 : heap w2 !! a
                = Some (mkVerified (fields pa) (Some Pending)
                          (verificationError pa))).
  { unfold w2, w1. cbn [heap withUi withHeap].
    rewrite lookup_alter_ne by congruence.
    rewrite lookup_alter_eq, Hpa. reflexivity. }
  assert (Hb2 : heap w2 !! b
                = Some (mkVerified (fields pb) (Some Pending)
                          (verificationError pb))).
  { unfold w2. cbn [heap withUi withHeap].
    rewrite lookup_alter_eq, Hpb1. reflexivity. }
  eexists. eexists. split; [reflexivity|]. split; [reflexivity|].
  split; [exact Ha2|]. split; [exact Hb2|].
  split.
  - intros fsA fsB vA mA vB mB.
    unfold resume. cbn [resumeWith waitingOn fst snd].
    rewrite HB. cbn [run final]. rewrite HA. cbn [run final].
    cbn [heap withUi withHeap ui draft withDraft].
    rewrite !heap_meanwhile. cbn [heap withUi withHeap].
    rewrite !heap_meanwhile.
    split; [|split; [|reflexivity]]; lookups;
      rewrite ?Ha2, ?Hb2; reflexivity.
  - intros fsA fsB vA mA vB mB.
    unfold resume. cbn [resumeWith waitingOn fst snd].
    rewrite HA. cbn [run final]. rewrite HB. cbn [run final].
    cbn [heap withUi withHeap ui draft withDraft].
    rewrite !heap_meanwhile. cbn [heap withUi withHeap].
    rewrite !heap_meanwhile.
    split; [|split; [|reflexivity]]; lookups;
      rewrite ?Ha2, ?Hb2; reflexivity.
Qed.

(** X10 on the review screen: both prescriptions are audited at once. *)
Lemma X10_witness :
  draft Sample.review = Some Sample.reviewed
  /\ prescriptions Sample.reviewed !! 0 = Some 0
  /\ prescriptions Sample.reviewed !! 1 = Some 1
  /\ 0 <> 1
  /\ heap Sample.reviewWorld !! 0
     = Some (mkVerified Sample.paracetamol None None)
  /\ heap Sample.reviewWorld !! 1 = Some (mkVerified Sample.ibuprofen None None)
  /\ heap (final (run (spawn (handleVerifyMedicine Sample.review 1)
                         (final (run (spawn (handleVerifyMedicine
                                               Sample.review 0)
                                        Sample.reviewWorld) []))) []))
       !! 0
     = Some (mkVerified Sample.paracetamol (Some Pending) None)
  /\ heap (final (run (spawn (handleVerifyMedicine Sample.review 1)
                         (final (run (spawn (handleVerifyMedicine
                                               Sample.review 0)
                                        Sample.reviewWorld) []))) []))
       !! 1
     = Some (mkVerified Sample.ibuprofen (Some Pending) None).
Proof.
  assert (Hd : draft Sample.review = Some Sample.reviewed) by reflexivity.
  assert (H0 : prescriptions Sample.reviewed !! 0 = Some 0) by reflexivity.
  assert (H1 : prescriptions Sample.reviewed !! 1 = Some 1) by reflexivity.
  assert (Hne : 0 <> 1) by discriminate.
  assert (Hp0 : heap Sample.reviewWorld !! 0
                = Some (mkVerified Sample.paracetamol None None))
    by (vm_compute; reflexivity).
  assert (Hp1 : heap Sample.reviewWorld !! 1
                = Some (mkVerified Sample.ibuprofen None None))
    by (vm_compute; reflexivity).
  pose proof (X10_overlapping_audits Sample.review Sample.review 0 1
                Sample.reviewed Sample.reviewed 0 1
                (mkVerified Sample.paracetamol None None)
                (mkVerified Sample.ibuprofen None None) Sample.reviewWorld
                Hd H0 Hd H1 Hne Hp0 Hp1) as H.
  cbv zeta in H. destruct H as (callA & callB & _ & _ & Ha & Hb & _).
  repeat split; assumption.
Defined.

(* ===================================================================== *)
(** ** Analysis while a capture is active *)
(* ===================================================================== *)

(** X11. [handleAnalyze] pressed while a role is capturing, in unilingual
    mode: the capture is stopped first, its final text is appended to the
    log and refined, and only then is the reasoning service asked; but the
    transcript that is sent is the one of the render in which the button
    was pressed.  The request leaves a world whose log holds the last
    utterance, refined, while the transcript is built from the log of that
    render.  When that log gives an empty transcript, the reasoning service
    is not asked at all, and the analysis ends with the generic error,
    although the log now holds the utterance. *)
Theorem X11_analyze_while_capturing (c : ReactState) (role : Role)
    (s : StreamId) (a : ContextId) (ch : ChannelId) (w : World)
    (fs1 fs2 fs3 fs4 : list string) (x1 x3 : Resp) (closeThrows : bool)
    (t : string) (script : list Input) :
  mode c = UNILINGUAL -> isLive c = Some role ->
  capturing role s a ch w ->
  let finalText := Js.trim (accumulate (capturedTextRef w) fs1) in
  Js.truthy finalText = true ->
  let r := run (handleAnalyze c w)
               ((fs1, x1) :: (fs2, RespSession closeThrows) :: (fs3, x3)
                  :: (fs4, RespText (Some t)) :: script) in
  let log :=
    map (attachRefined finalText (Js.trim t))
        (scribeBlocks (ui w) ++ [mkScribeBlock finalText None]) in
  take 4 (requests r)
  = [ReqSleep 400; ReqSession ch; ReqCloseContext a;
     ReqRefine finalText (docLang c)]
  /\ (Js.truthy (Js.trim (transcriptOf c)) = true ->
      exists w5,
        nth_error (asked r) 4 = Some (ReqReason (transcriptOf c), w5)
        /\ scribeBlocks (ui w5) = log
        /\ status (ui w5) = PROCESSING
        /\ idle w5)
  /\ (Js.truthy (Js.trim (transcriptOf c)) = false ->
      outcome r = Returned tt
      /\ length (requests r) = 4
      /\ unused r = script
      /\ error (ui (final r)) = Some "AI analysis error."%string
      /\ status (ui (final r)) = IDLE
      /\ scribeBlocks (ui (final r)) = log
      /\ draft (ui (final r)) = draft (ui w)
      /\ step (ui (final r)) = step (ui w)).
Proof.
  intros Hm Hl ((Hlive & Hrole & Hs & Ha & Hch & HLs & HLc) & Hcl)
         finalText Ht r log.
  subst r log. apply runs_run.
  destruct w as [u ses ctx str rl cap hp j t0 n].
  destruct u as [ustep umode udoc upat udet ublocks umsgs ucur udraft ustatus
                   uerr ulive utr ufin].
  cbn in Hlive, Hrole, Hs, Ha, Hch, HLs, HLc, Hcl. subst ses ctx str rl ulive.
  cbn [capturedTextRef] in finalText.
  unfold handleAnalyze, processConsultation. rewrite Hl.
  unfold finalText in *. clear finalText.
  assert (Ht' : Js.truthy (Js.trim (Js.trim (accumulate cap fs1))) = true)
    by (rewrite trim_idem; exact Ht).
  destruct (Js.truthy (Js.trim (transcriptOf c))).
  - follow. loud. follow. loud. follow.
    context_state Hcl. follow. calm. follow.
    calm. follow.
    asks. intros r' (rest & Hr'). arrived. rewrite Hr'.
    split; [reflexivity|]. split; [|discriminate].
    intros _. eexists. split; [reflexivity|].
    unfold idle, released. worlds.
    rewrite !liveStreams_snoc, !liveChannels_snoc, HLs, HLc.
    cbn. rewrite !Nat.eqb_refl. repeat split; reflexivity.
  - follow. loud. follow. loud. follow.
    context_state Hcl. follow. calm. follow.
    calm. follow.
    arrived.
    split; [reflexivity|]. split; [discriminate|].
    intros _. repeat split; reflexivity.
Qed.

(** X11 on the scribe consultation that goes on after a first utterance:
    the transcript that is sent holds the first utterance only. *)
Lemma X11_witness :
  mode (ui Clinic.resumedHeard) = UNILINGUAL
  /\ isLive (ui Clinic.resumedHeard) = Some Scribe
  /\ capturing Scribe 0 1 2 Clinic.resumedHeard
  /\ Js.truthy (Js.trim (accumulate (capturedTextRef Clinic.resumedHeard) []))
     = true
  /\ take 4 (requests
               (run (handleAnalyze (ui Clinic.resumedHeard) Clinic.resumedHeard)
                    (Sample.stopped [] false
                       ++ [([], RespText (Some "And cough."%string))])))
     = [ReqSleep 400; ReqSession 2; ReqCloseContext 1;
        ReqRefine
          (Js.trim (accumulate (capturedTextRef Clinic.resumedHeard) []))
          (docLang (ui Clinic.resumedHeard))].
Proof.
  assert (Hc : capturing Scribe 0 1 2 Clinic.resumedHeard)
    by (vm_compute; repeat split).
  assert (Ht : Js.truthy
                 (Js.trim (accumulate (capturedTextRef Clinic.resumedHeard) []))
               = true) by (vm_compute; reflexivity).
  pose proof (X11_analyze_while_capturing (ui Clinic.resumedHeard) Scribe
                0 1 2 Clinic.resumedHeard [] [] [] [] RespUnit RespUnit false
                "And cough."%string [] eq_refl eq_refl Hc Ht) as H.
  cbv zeta in H. destruct H as (H1 & _).
  split; [reflexivity|]. split; [reflexivity|]. split; [exact Hc|].
  split; [exact Ht | exact H1].
Defined.

(* ===================================================================== *)
(** ** What the translation service is asked to speak *)
(* ===================================================================== *)





(* ===================================================================== *)
(** ** Playback of the translation *)
(* ===================================================================== *)

(** X14. [handleTranslationPhase] once the translation and the speech have
    been answered: the message is in the log, with the translation (or
    [...] for a blank one) and the time of the append.  When the speech
    service gave no audio, no playback is started and nothing is reported.
    When the audio is not valid base64, no playback is started either: the
    failure of the decoding goes to the console, the message stays and the
    handler returns with [isTranslating] off.  Otherwise the decoded bytes
    are what is handed to the playback, and the log already holds the
    message by then. *)
Theorem X14_playback (c : ReactState) (speaker : Speaker) (text : string)
    (w : World) (fs1 fs2 : list string) (t : string) (d : option string)
    (script : list Input) :
  Js.truthy (Js.trim text) = true ->
  let from := match speaker with Doctor => docLang c | Patient => patLang c end in
  let to := match speaker with Doctor => patLang c | Patient => docLang c end in
  let translated :=
    if Js.truthy (Js.trim t) then Js.trim t else "..."%string in
  let audio := match d with Some data => data | None => ""%string end in
  let msg := mkMessage speaker text (Some translated) (now w) in
  let r := run (handleTranslationPhase c speaker text w)
               ((fs1, RespText (Some t)) :: (fs2, RespAudio d) :: script) in
  let silent :=
    outcome r = Returned tt
    /\ requests r = [ReqTranslate text from to; ReqSpeech translated]
    /\ unused r = script
    /\ messages (ui (final r)) = messages (ui w) ++ [msg]
    /\ isTranslating (ui (final r)) = false
    /\ error (ui (final r)) = error (ui w) in
  (Js.truthy audio = false -> silent /\ journal (final r) = journal w)
  /\ (Js.truthy audio = true -> Base64.decode audio = None ->
      silent
      /\ journal (final r)
         = journal w ++ [EvConsoleError (mkError "InvalidCharacterError"
                                                 None None)])
  /\ (forall pcm,
        Js.truthy audio = true -> Base64.decode audio = Some pcm ->
        exists w3,
          nth_error (asked r) 2 = Some (ReqPlay pcm, w3)
          /\ messages (ui w3) = messages (ui w) ++ [msg]
          /\ isTranslating (ui w3) = true).
Proof.
  intros Ht from to translated audio msg r silent.
  subst silent r msg translated from to.
  destruct w as [u ses ctx str rl cap hp j t0 n].
  destruct u as [ustep umode udoc upat udet ublocks umsgs ucur udraft ustatus
                   uerr ulive utr ufin].
  unfold handleTranslationPhase, translateAndSpeak. rewrite Ht.
  destruct d as [data|]; subst audio.
  - split; [|split].
    + intros Ha. apply runs_run.
      follow. ambient. follow. ambient. follow.
      arrived. repeat split; reflexivity.
    + intros Ha Hd. apply runs_run. unfold playAudio.
      follow. ambient. follow. ambient. follow.
      arrived. repeat split; reflexivity.
    + intros pcm Ha Hd. apply runs_run. unfold playAudio.
      follow. ambient. follow. ambient. follow.
      asks. intros r' (rest & Hr'). arrived. rewrite Hr'.
      eexists. split; [reflexivity|]. split; reflexivity.
  - split; [|split]; [|discriminate|discriminate].
    intros _. apply runs_run.
    follow. ambient. follow. ambient. follow.
    arrived. repeat split; reflexivity.
Qed.

(** X14 on the interpreted consultation: the speech service answers with
    something that is not base64. *)
Lemma X14_witness :
  Js.truthy (Js.trim "hello") = true
  /\ Base64.decode "@@@@" = None
  /\ outcome (run (handleTranslationPhase Sample.interpreter0 Doctor "hello"
                     (Sample.worldOf Sample.interpreter0))
                  [([], RespText (Some "namaste"%string));
                   ([], RespAudio (Some "@@@@"%string))])
     = Returned tt
  /\ requests (run (handleTranslationPhase Sample.interpreter0 Doctor "hello"
                      (Sample.worldOf Sample.interpreter0))
                   [([], RespText (Some "namaste"%string));
                    ([], RespAudio (Some "@@@@"%string))])
     = [ReqTranslate "hello" "English" "Hindi"; ReqSpeech "namaste"].
Proof.
  assert (Ht : Js.truthy (Js.trim "hello") = true) by (vm_compute; reflexivity).
  assert (Hd : Base64.decode "@@@@" = None) by (vm_compute; reflexivity).
  pose proof (X14_playback Sample.interpreter0 Doctor "hello"
                (Sample.worldOf Sample.interpreter0) [] [] "namaste"
                (Some "@@@@"%string) [] Ht) as H.
  cbv zeta in H. destruct H as (_ & H & _).
  destruct (H eq_refl Hd) as ((H1 & H2 & _) & _).
  split; [exact Ht|]. split; [exact Hd|]. split; [exact H1|].
  etransitivity; [exact H2 | vm_compute; reflexivity].
Defined.

(* ===================================================================== *)
(** ** [cleanupSession] from any state *)
(* ===================================================================== *)

Lemma cleanup_released (w : World) :
  streamRef w = None -> sessionRef w = None -> audioContextRef w = None ->
  cleanupSession w = Done tt w.
Proof.
  destruct w as [u ses ctx str rl cap hp j t n]. cbn.
  intros -> -> ->. reflexivity.
Qed.

Lemma cleanup_always (w : World) :
  always
    (fun q _ =>
       (exists ch, sessionRef w = Some ch /\ q = ReqSession ch)
       \/ (exists a, audioContextRef w = Some a /\ q = ReqCloseContext a))
    (fun _ => False)
    (fun o w' =>
       streamRef w' = None
       /\ (o = Returned tt ->
           sessionRef w' = None /\ audioContextRef w' = None))
    (cleanupSession w).
Proof.
  destruct w as [u ses ctx str rl cap hp j t n].
  destruct u as [ustep umode udoc upat udet ublocks umsgs ucur udraft ustatus
                   uerr ulive utr ufin].
  unfold cleanupSession.
  destruct str as [s|], ses as [ch|], ctx as [a|];
    repeat
      (exec;
       try (worlds;
            first [ left; eexists; split; reflexivity
                  | right; eexists; split; reflexivity
                  | split;
                    [ reflexivity
                    | intros E; first [discriminate E | split; reflexivity] ] ]);
       try ambient;
       try match goal with
           | x : Resp |- always _ _ _ ?s =>
               lazymatch s with context [x] => destruct x end
           | |- context [contextClosed ?a ?J] => destruct (contextClosed a J)
           end).
Qed.

(** X12. [cleanupSession] from any state and on any script.  However it
    ends, the stream is no longer referenced; it asks for nothing but the
    session and the closing of the context that were referenced when it
    started; when it returns, the three references are empty, and a second
    clean-up then asks nothing and changes nothing. *)
Theorem X12_cleanup_from_any_state (w : World) (script : list Input) :
  let r := run (cleanupSession w) script in
  streamRef (final r) = None
  /\ Forall (fun q =>
               (exists ch, sessionRef w = Some ch /\ q = ReqSession ch)
               \/ (exists a, audioContextRef w = Some a
                             /\ q = ReqCloseContext a))
            (requests r)
  /\ detached r = []
  /\ (outcome r = Returned tt ->
      sessionRef (final r) = None
      /\ audioContextRef (final r) = None
      /\ forall more,
           run (cleanupSession (final r)) more
           = mkRun (Returned tt) (final r) [] [] more).
Proof.
  intros r. subst r.
  destruct (always_run _ _ _ _ script (cleanup_always w))
    as ((Hs & Hret) & HA & HD).
  split; [exact Hs|]. split; [|split].
  - unfold requests. apply List.Forall_map.
    eapply List.Forall_impl; [|exact HA]. intros [q w'] H. exact H.
  - destruct (detached (run (cleanupSession w) script)) as [|p l];
      [reflexivity|]. now inversion HD.
  - intros E. destruct (Hret E) as [H1 H2].
    split; [exact H1|]. split; [exact H2|].
    intros more. now rewrite cleanup_released.
Qed.

(* ===================================================================== *)
(** ** The vault *)
(* ===================================================================== *)

Lemma NoDup_map_filter {A B} (f : A -> B) (p : A -> bool) (l : list A) :
  List.NoDup (map f l) -> List.NoDup (map f (List.filter p l)).
Proof.
  induction l as [|a l IH]; cbn [map List.filter]; intros H; [exact H|].
  apply List.NoDup_cons_iff in H. destruct H as [Hn Hd].
  destruct (p a); [|now apply IH].
  cbn [map]. constructor; [|now apply IH].
  intros Hin. apply Hn. apply List.in_map_iff in Hin.
  destruct Hin as (x & Hx & Hin). apply List.filter_In in Hin.
  apply List.in_map_iff. exists x. tauto.
Qed.

Lemma filter_twice {A} (p : A -> bool) (l : list A) :
  List.filter p (List.filter p l) = List.filter p l.
Proof.
  induction l as [|a l IH]; [reflexivity|].
  cbn [List.filter]. destruct (p a) eqn:E; [|exact IH].
  cbn [List.filter]. now rewrite E, IH.
Qed.

Lemma filter_none {A} (p : A -> bool) (l : list A) :
  List.filter p (List.filter (fun a => negb (p a)) l) = [].
Proof.
  induction l as [|a l IH]; [reflexivity|].
  cbn [List.filter]. destruct (p a) eqn:E; cbn [negb List.filter];
    [exact IH | now rewrite E].
Qed.

(** X15. Confirming a draft puts it at the head of the vault and takes out
    every record that has its [id], however many there were: the draft is
    then the only record with that [id].  The other records stay, in their
    order; confirming the same draft again changes nothing; the vault
    grows by one record at most; and when no two records of the vault
    shared an [id], none do afterwards. *)
Theorem X15_archive_updater {P : Type} (draft : Draft P)
    (prev : list (Draft P)) :
  let same := fun a : Draft P => String.eqb (id a) (id draft) in
  let other := fun a : Draft P => negb (String.eqb (id a) (id draft)) in
  let next := archiveUpdater draft prev in
  head next = Some draft
  /\ List.filter same next = [draft]
  /\ List.filter other next = List.filter other prev
  /\ (forall a, In a prev -> id a <> id draft -> In a next)
  /\ archiveUpdater draft next = next
  /\ length next <= S (length prev)
  /\ (List.NoDup (map id prev) -> List.NoDup (map id next)).
Proof.
  intros same other next. subst next. unfold archiveUpdater. fold other.
  assert (Hself : other draft = false).
  { unfold other. now rewrite String.eqb_refl. }
  assert (Hsame : same draft = true) by apply String.eqb_refl.
  split; [reflexivity|].
  split; [|split; [|split; [|split; [|split]]]].
  - cbn [List.filter]. rewrite Hsame. f_equal.
    exact (filter_none same prev).
  - cbn [List.filter]. rewrite Hself. apply filter_twice.
  - intros a Hin Hne. right. apply List.filter_In. split; [exact Hin|].
    unfold other. apply negb_true_iff, String.eqb_neq. exact Hne.
  - cbn [List.filter]. rewrite Hself. now rewrite filter_twice.
  - cbn [length]. apply le_n_S, List.filter_length_le.
  - intros Hnd. cbn [map]. constructor; [|now apply NoDup_map_filter].
    intros Hin. apply List.in_map_iff in Hin.
    destruct Hin as (x & Hx & Hin). apply List.filter_In in Hin.
    destruct Hin as [_ Hin]. unfold other in Hin.
    rewrite Hx, String.eqb_refl in Hin. discriminate.
Qed.

(** X15 on a vault that holds two older versions of the review and the
    record of another consultation. *)
Lemma X15_witness :
  archiveUpdater (withPrescriptions [0] Sample.reviewed)
    [Sample.reviewed; Clinic.earlier; withPrescriptions [1] Sample.reviewed]
  = [withPrescriptions [0] Sample.reviewed; Clinic.earlier]
  /\ List.filter
       (fun a : ConsultationDraft =>
          String.eqb (id a) (id (withPrescriptions [0] Sample.reviewed)))
       (archiveUpdater (withPrescriptions [0] Sample.reviewed)
          [Sample.reviewed; Clinic.earlier;
           withPrescriptions [1] Sample.reviewed])
     = [withPrescriptions [0] Sample.reviewed].
Proof.
  pose proof (X15_archive_updater (withPrescriptions [0] Sample.reviewed)
                [Sample.reviewed; Clinic.earlier;
                 withPrescriptions [1] Sample.reviewed]) as H.
  cbv zeta in H. destruct H as (_ & H & _).
  split; [vm_compute; reflexivity | exact H].
Defined.

(* ===================================================================== *)
(** ** Fenced answers *)
(* ===================================================================== *)

Lemma prefix_plain (ch : ascii) (rest tag : string) :
  negb (Ascii.eqb ch "`") = true ->
  String.prefix (String "`" tag) (String ch rest) = false.
Proof.
  intros H. cbn [String.prefix].
  destruct (ascii_dec "`" ch) as [<-|_]; [discriminate H | reflexivity].
Qed.

Lemma removeFences_plain (text : string) :
  plain text = true -> removeFences 0 text = text.
Proof.
  induction text as [|ch rest IH]; [reflexivity|].
  cbn [plain]. intros H. apply andb_true_iff in H. destruct H as [Hc Hr].
  cbn [removeFences].
  rewrite (prefix_plain ch rest "``json" Hc), (prefix_plain ch rest "``" Hc).
  now rewrite IH.
Qed.

Lemma removeFences_closing (body : string) :
  plain body = true -> removeFences 0 (body +:+ "```") = body.
Proof.
  induction body as [|ch rest IH]; [reflexivity|].
  cbn [plain]. intros H. apply andb_true_iff in H. destruct H as [Hc Hr].
  change (String ch rest +:+ "```") with (String ch (rest +:+ "```")).
  cbn [removeFences].
  rewrite (prefix_plain ch _ "``json" Hc), (prefix_plain ch _ "``" Hc).
  now rewrite IH.
Qed.

Lemma plain_app (s t : string) :
  plain (s +:+ t) = plain s && plain t.
Proof.
  induction s as [|ch rest IH]; [reflexivity|].
  change (String ch rest +:+ t) with (String ch (rest +:+ t)).
  cbn [plain]. now rewrite IH, andb_assoc.
Qed.

Lemma trimEnd_newline (s : string) :
  Js.trimEnd (s +:+ newline) = Js.trimEnd s.
Proof.
  induction s as [|ch rest IH]; [reflexivity|].
  change (String ch rest +:+ newline) with (String ch (rest +:+ newline)).
  cbn [Js.trimEnd]. now rewrite IH.
Qed.

Lemma trim_newline (s : string) : Js.trim (s +:+ newline) = Js.trim s.
Proof.
  unfold Js.trim.
  induction s as [|ch rest IH]; [reflexivity|].
  change (String ch rest +:+ newline) with (String ch (rest +:+ newline)).
  cbn [Js.trimStart]. destruct (Js.isWhite ch); [exact IH|].
  exact (trimEnd_newline (String ch rest)).
Qed.

Lemma removeFences_json (rest : string) :
  removeFences 0 ("```json" +:+ newline +:+ rest) = removeFences 0 rest.
Proof. destruct rest; reflexivity. Qed.

Lemma removeFences_bare (rest : string) :
  removeFences 0 ("```" +:+ newline +:+ rest) = newline +:+ removeFences 0 rest.
Proof. reflexivity. Qed.

Lemma trim_after_newline (s : string) : Js.trim (newline +:+ s) = Js.trim s.
Proof. reflexivity. Qed.

(** X16. [cleanJsonResponse] on an answer that holds no backtick is
    [trim]; on such a body between a [json] fence and a closing fence, or
    between two bare fences, each on a line of its own, it is the trimmed
    body: the fences, the tag and the line feeds around the body are
    gone. *)
Theorem X16_cleanJsonResponse (body : string) :
  plain body = true ->
  cleanJsonResponse body = Js.trim body
  /\ cleanJsonResponse
       ("```json" +:+ newline +:+ body +:+ newline +:+ "```")
     = Js.trim body
  /\ cleanJsonResponse ("```" +:+ newline +:+ body +:+ newline +:+ "```")
     = Js.trim body.
Proof.
  intros H. unfold cleanJsonResponse.
  assert (Hb : plain (body +:+ newline) = true)
    by (rewrite plain_app, H; reflexivity).
  split; [now rewrite removeFences_plain|]. split.
  - rewrite removeFences_json, <- append_assoc, removeFences_closing by exact Hb.
    apply trim_newline.
  - rewrite removeFences_bare, <- append_assoc, removeFences_closing by exact Hb.
    rewrite trim_after_newline. apply trim_newline.
Qed.

(** X16 on a fenced object that the service has edged with no-break
    spaces. *)
Lemma X16_witness :
  plain (Clinic.nbsp +:+ "{}" +:+ Clinic.nbsp) = true
  /\ cleanJsonResponse
       ("```json" +:+ newline +:+ (Clinic.nbsp +:+ "{}" +:+ Clinic.nbsp)
          +:+ newline +:+ "```")
     = "{}"%string.
Proof.
  pose proof (X16_cleanJsonResponse (Clinic.nbsp +:+ "{}" +:+ Clinic.nbsp)
                eq_refl) as H.
  destruct H as (_ & H & _).
  split; [reflexivity|].
  etransitivity; [exact H | vm_compute; reflexivity].
Defined.

(* ===================================================================== *)
(** ** Two starts in flight *)
(* ===================================================================== *)

(** A tap on the microphone while no capture is active, as the button
    makes it (the promise is dropped): the handler is left waiting for the
    microphone; [K] is what it does once the microphone is granted. *)
Lemma start_click (c : ReactState) (role : Role) (w : World) :
  isLive c = None ->
  exists K,
    spawn (toggleMic c role) w
    = Detach ReqGetUserMedia K
        (Done tt (withCapturedTextRef ""
                    (withUi (withCurrentInput (fun _ => ""%string))
                       (withUi (withError None) w))))
    /\ forall w' fs rest,
         let r := run (K RespStream w') ((fs, RespContext false) :: rest) in
         let n := nextId w' in
         outcome r = Returned tt
         /\ unused r = rest
         /\ journal (final r)
            = journal w'
                ++ [EvAcquireStream n; EvOpenContext (n + 1);
                    EvConnect (n + 2)
                      (mkInstruction role
                         match role with
                         | Party Patient => patLang c
                         | _ => docLang c
                         end);
                    EvWire n (n + 1) (n + 2)]
         /\ streamRef (final r) = Some n
         /\ audioContextRef (final r) = Some (n + 1)
         /\ sessionRef (final r) = Some (n + 2)
         /\ currentRoleRef (final r) = Some role
         /\ isLive (ui (final r)) = Some role
         /\ nextId (final r) = n + 3
         /\ heap (final r) = heap w'.
Proof.
  intros Hl. unfold spawn. rewrite (toggleMic_start c role w Hl).
  unfold startCapture.
  unfold setError, setCurrentInput, tryCatch, bind, modify, await.
  cbn [bindS catchS detachS].
  eexists. split; [reflexivity|].
  intros w' fs rest. cbv zeta.
  destruct w' as [u ses ctx str rl cap hp j t n].
  destruct u as [ustep umode udoc upat udet ublocks umsgs ucur udraft ustatus
                   uerr ulive utr ufin].
  cbn [nextId journal heap].
  apply runs_run.
  follow. calm. follow. arrived.
  rewrite <- !app_assoc. cbn [app].
  replace (n + 1) with (S n) by lia.
  replace (n + 2) with (S (S n)) by lia.
  replace (n + 3) with (S (S (S n))) by lia.
  repeat split; reflexivity.
Qed.

(** What the environment leaves alone while a handler waits. *)
Lemma meanwhile_frame (r : Req) (fs : list string) (w : World) :
  journal (meanwhile r fs w) = journal w
  /\ nextId (meanwhile r fs w) = nextId w
  /\ streamRef (meanwhile r fs w) = streamRef w
  /\ sessionRef (meanwhile r fs w) = sessionRef w
  /\ audioContextRef (meanwhile r fs w) = audioContextRef w.
Proof.
  apply (stable_by
           (fun w' => journal w' = journal w /\ nextId w' = nextId w
                      /\ streamRef w' = streamRef w
                      /\ sessionRef w' = sessionRef w
                      /\ audioContextRef w' = audioContextRef w)).
  - intros w' f cap t H. exact H.
  - repeat split.
Qed.

(** X17. Two taps on the microphone, for the same role or for two roles,
    before the first one has been answered (the buttons are not disabled,
    and both handlers see [isLive = null]): once the microphone has been
    granted to both, two streams and two channels are live, and the
    references hold the second of each; the role of the second tap is shown
    as capturing.  A clean-up, and so a stop or a reset, then releases what
    is referenced and nothing else: the first stream keeps running and the
    first channel stays connected. *)
Theorem X17_two_starts (c c' : ReactState) (role role' : Role) (w : World)
    (fsA fsB fs1 fs2 fs3 fs4 : list string) (closeThrows : bool) (x : Resp) :
  isLive c = None -> isLive c' = None -> released w ->
  let n := nextId w in
  let first := run (spawn (toggleMic c role) w) [] in
  let second := run (spawn (toggleMic c' role') (final first)) [] in
  exists tapA tapB,
    detached first = [tapA] /\ detached second = [tapB]
    /\ waitingOn tapA = ReqGetUserMedia /\ waitingOn tapB = ReqGetUserMedia
    /\ requests first = [] /\ requests second = []
    /\ let rA := resume tapA (fsA, RespStream) (final second)
                   [(fs1, RespContext false)] in
       let rB := resume tapB (fsB, RespStream) (final rA)
                   [(fs2, RespContext false)] in
       let cleaned := run (cleanupSession (final rB))
                          [(fs3, RespSession closeThrows); (fs4, x)] in
       outcome rA = Returned tt /\ outcome rB = Returned tt
       /\ liveStreams (journal (final rB)) = [n; n + 3]
       /\ liveChannels (journal (final rB)) = [n + 2; n + 5]
       /\ streamRef (final rB) = Some (n + 3)
       /\ sessionRef (final rB) = Some (n + 5)
       /\ isLive (ui (final rB)) = Some role'
       /\ outcome cleaned = Returned tt
       /\ liveStreams (journal (final cleaned)) = [n]
       /\ liveChannels (journal (final cleaned)) = [n + 2]
       /\ streamRef (final cleaned) = None
       /\ sessionRef (final cleaned) = None.
Proof.
  intros Hl Hl' (Hlive & Hrole & Hs & Ha & Hch & HLs & HLc) n first second.
  subst n first second.
  destruct (start_click c role w Hl) as (KA & EA & HA).
  rewrite EA. cbn [run final detached requests asked map outcome].
  match goal with
  | |- context [spawn (toggleMic c' role') ?W] =>
      destruct (start_click c' role' W Hl') as (KB & EB & HB); rewrite EB
  end.
  cbn [run final detached requests asked map outcome].
  eexists. eexists.
  repeat (split; [reflexivity|]).
  unfold resume. cbn [resumeWith waitingOn fst snd].
  set (W2 := withCapturedTextRef "" _).
  assert (HW2 : journal W2 = journal w /\ nextId W2 = nextId w)
    by (destruct w as [u ? ? ? ? ? ? ? ? ?]; destruct u; split; reflexivity).
  destruct HW2 as [HjW2 HnW2].
  destruct (meanwhile_frame ReqGetUserMedia fsA W2) as (HjA & HnA & _).
  specialize (HA (meanwhile ReqGetUserMedia fsA W2) fs1 []).
  cbv zeta in HA. rewrite HjA, HnA, HjW2, HnW2 in HA.
  set (rA := run (KA RespStream (meanwhile ReqGetUserMedia fsA W2)) _) in *.
  destruct HA as (HoA & _ & HjrA & _ & _ & _ & _ & _ & HnrA & _).
  destruct (meanwhile_frame ReqGetUserMedia fsB (final rA)) as (HjB & HnB & _).
  specialize (HB (meanwhile ReqGetUserMedia fsB (final rA)) fs2 []).
  cbv zeta in HB. rewrite HjB, HnB, HjrA, HnrA in HB.
  set (rB := run (KB RespStream (meanwhile ReqGetUserMedia fsB (final rA))) _)
    in *.
  destruct HB as (HoB & _ & HjrB & HsB & HaB & HchB & _ & HlB & _ & _).
  set (n := nextId w) in *.
  assert (HLS : liveStreams (journal (final rB)) = [n; n + 3]).
  { rewrite HjrB, !liveStreams_app, HLs. reflexivity. }
  assert (HLC : liveChannels (journal (final rB)) = [n + 2; n + 3 + 2]).
  { rewrite HjrB, !liveChannels_app, HLc. reflexivity. }
  replace (n + 5) with (n + 3 + 2) by lia.
  split; [exact HoA|]. split; [exact HoB|]. split; [exact HLS|].
  split; [exact HLC|]. split; [exact HsB|]. split; [exact HchB|].
  split; [exact HlB|].
  clearbody rB. clear HjrB.
  destruct (final rB) as [u ses ctx str rl cap hp j t0 m].
  cbn [streamRef audioContextRef sessionRef journal] in HsB, HaB, HchB, HLS, HLC.
  subst str ctx ses.
  assert (E1 : Nat.eqb n (n + 3) = false) by (apply Nat.eqb_neq; lia).
  assert (E2 : Nat.eqb (n + 2) (n + 3 + 2) = false)
    by (apply Nat.eqb_neq; lia).
  apply runs_run.
  follow. ambient. follow.
  match goal with
  | |- context [contextClosed ?a ?J] => destruct (contextClosed a J)
  end.
  - follow. arrived.
    rewrite !liveStreams_snoc, !liveChannels_snoc, HLS, HLC.
    cbn [streamStep channelStep List.filter].
    rewrite !Nat.eqb_refl, E1, E2. repeat split; reflexivity.
  - follow. ambient. follow. arrived.
    rewrite !liveStreams_snoc, !liveChannels_snoc, HLS, HLC.
    cbn [streamStep channelStep List.filter].
    rewrite !Nat.eqb_refl, E1, E2. repeat split; reflexivity.
Qed.

(** X17 on the scribe consultation: two taps before anything was said. *)
Lemma X17_witness :
  isLive Sample.scribe0 = None
  /\ released (Sample.worldOf Sample.scribe0)
  /\ exists tapA tapB,
       detached (run (spawn (toggleMic Sample.scribe0 Scribe)
                        (Sample.worldOf Sample.scribe0)) []) = [tapA]
       /\ detached
            (run (spawn (toggleMic Sample.scribe0 Scribe)
                    (final (run (spawn (toggleMic Sample.scribe0 Scribe)
                                   (Sample.worldOf Sample.scribe0)) []))) [])
          = [tapB]
       /\ waitingOn tapA = ReqGetUserMedia
       /\ waitingOn tapB = ReqGetUserMedia.
Proof.
  assert (Hr : released (Sample.worldOf Sample.scribe0))
    by (vm_compute; repeat split).
  pose proof (X17_two_starts Sample.scribe0 Sample.scribe0 Scribe Scribe
                (Sample.worldOf Sample.scribe0) [] [] [] [] [] [] false
                RespUnit eq_refl eq_refl Hr) as H.
  cbv zeta in H. destruct H as (tapA & tapB & H1 & H2 & H3 & H4 & _).
  split; [reflexivity|]. split; [exact Hr|].
  exists tapA, tapB. split; [exact H1|]. split; [exact H2|].
  split; [exact H3 | exact H4].
Defined.
